(** * HOS compliance engine: a shallow embedding of [hos_engine.py]

    The engine of [backend/hos_app/hos_engine.py] plans a multi-day trip
    under the hours-of-service rules.  This file embeds
    [HOSEngine.calculate_trip] and the functions it calls, and proves
    properties of the schedule it generates.

    Numbers.  The Python code computes with [float].  Here every hour and
    mile quantity is an exact rational ([Q]); [round(x, 2)] is rounding to
    the nearest hundredth, ties to even; [min] keeps its first minimal
    argument, as Python's does.  Equality of quantities is [Qeq] ([==]).
    A sum of doubles can differ from the exact sum in its last places, so
    that the program's unrounded day totals need not be whole hundredths
    as they are here; a property that compares the cycle counter (which
    adds the unrounded totals) with figures rounded to two decimals is
    therefore stated with a tolerance that holds for the doubles too.

    Time.  A [datetime] is a number of microseconds since a midnight
    (type [Z]); [timedelta(hours=h)] is [h] hours rounded to the nearest
    microsecond, ties to even, as the [timedelta] constructor does.  The
    calendar is unbounded (CPython's stops at year 9999).  [date()] is the
    day ordinal.  The two [strftime] renderings stored in each entry
    ([start_time_str], [end_time_str]) are functions of [start_time] and
    [end_time] and are not modelled.

    Loops.  The two [while] loops are iterated by a [nat] of fuel; [None]
    means the loop has not left within the fuel.

    Further modules.  [ELDLogGenerator] embeds the grid data and the
    status line of [eld_generator.py]; [RouteService] the route service
    of [route_service.py] as the view uses it, without an API key, with
    the distance computed over the real numbers; [Views] the function
    [serialize_datetime_in_dict] and steps 1 to 3 of the view
    [calculate_trip] of [views.py]. *)

From Stdlib Require Import Reals.
From Stdlib Require Lra.
From Stdlib Require Import ZArith QArith Qround Qminmax Lqa Lia.
From Stdlib Require Import List String Bool DecimalString.
Import ListNotations.

Open Scope Q_scope.

(** ** Numeric primitives *)

Definition Qlt_bool (x y : Q) : bool := negb (Qle_bool y x).

(** Nearest integer, ties to even. *)
Definition round_half_even (x : Q) : Z :=
  let f := Qfloor x in
  match Qcompare (x - inject_Z f) (1 # 2) with
  | Lt => f
  | Gt => (f + 1)%Z
  | Eq => if Z.even f then f else (f + 1)%Z
  end.

(** [round(x, 2)] *)
Definition round2 (x : Q) : Q := round_half_even (x * 100) # 100.

(** [min(a, b, c)] and [min(a, b, c, d, e)] *)
Definition min3 (a b c : Q) : Q := Qmin (Qmin a b) c.
Definition min5 (a b c d e : Q) : Q := Qmin (Qmin (Qmin (Qmin a b) c) d) e.

(** ** Clock *)

Definition datetime := Z.

Definition US_PER_HOUR : Z := 3600000000.
Definition US_PER_DAY : Z := 24 * US_PER_HOUR.

(** [timedelta(hours=h)] in microseconds *)
Definition timedelta_hours (h : Q) : Z :=
  round_half_even (h * inject_Z US_PER_HOUR).

(** [t.date()] *)
Definition date_of (t : datetime) : Z := (t / US_PER_DAY)%Z.

(** [t.replace(hour=6, minute=0, second=0, microsecond=0)] *)
Definition replace_6am (t : datetime) : datetime :=
  (date_of t * US_PER_DAY + 6 * US_PER_HOUR)%Z.

(** ** Data model *)

Inductive DutyStatus := OFF | SB | D | ON.

Definition DutyStatus_eqb (a b : DutyStatus) : bool :=
  match a, b with
  | OFF, OFF | SB, SB | D, D | ON, ON => true
  | _, _ => false
  end.

Module LogEntry.
Record t := mk {
    status : DutyStatus;
    start_time : datetime;
    end_time : datetime;
    duration : Q;
    notes : string
  }.
End LogEntry.

Module DayLog.
  (** A work-day dict has no ['is_restart'] key; [log.get('is_restart')]
      is then falsy, which is [is_restart = false] here. *)
Record t := mk {
    day_number : Z;
    date : Z;
    start_time : datetime;
    log_entries : list LogEntry.t;
    total_driving_hours : Q;
    total_on_duty_hours : Q;
    total_off_duty_hours : Q;
    remaining_drive_time : Q;
    remaining_on_duty_time : Q;
    cycle_hours_remaining : Q;
    end_time : datetime;
    is_restart : bool
  }.
End DayLog.

Module TripPlan.
Record t := mk {
    total_miles : Q;
    total_driving_hours : Q;
    estimated_days : Z;
    actual_days : Z;
    num_fuel_stops : Z;
    daily_logs : list DayLog.t;
    cycle_used_before : Q;
    cycle_used_after : Q;
    restart_needed : bool
  }.
End TripPlan.

(** ** The engine *)

Module HOSEngine.

Definition MAX_DRIVING_HOURS : Q := 11.
Definition MAX_ON_DUTY_HOURS : Q := 14.
Definition REQUIRED_BREAK_AFTER_HOURS : Q := 8.
Definition REQUIRED_BREAK_DURATION : Q := 1 # 2.
Definition MAX_CYCLE_HOURS : Q := 70.
Definition RESET_OFF_DUTY_HOURS : Q := 10.
Definition RESTART_OFF_DUTY_HOURS : Q := 34.

Definition AVG_SPEED_MPH : Q := 60.
Definition FUEL_STOP_MILES : Q := 1000.
Definition FUEL_STOP_DURATION : Q := 1 # 2.
Definition PICKUP_DURATION : Q := 1.
Definition DROPOFF_DURATION : Q := 1.

(** The literals of the driving loop. *)
Definition MAX_SEGMENT_HOURS : Q := 2.
Definition MIN_SEGMENT_HOURS : Q := 1 # 10.

Definition NOTE_PICKUP : string := "Pickup - Loading".
Definition NOTE_BREAK : string := "30-minute break (8-hour rule)".
Definition NOTE_FUEL : string := "Fuel stop".
Definition NOTE_DROPOFF : string := "Dropoff - Unloading".
Definition NOTE_REST : string := "10-hour rest period (daily reset)".
Definition NOTE_RESTART : string := "34-hour restart (cycle reset)".

(** [f'Driving - {miles_driven:.0f} miles'] *)
Definition note_driving (miles_driven : Q) : string :=
  ("Driving - "
   ++ NilZero.string_of_int (Z.to_int (round_half_even miles_driven))
   ++ " miles")%string.

Definition _create_log_entry
    (status : DutyStatus) (start_time : datetime) (duration : Q)
    (notes : string) : LogEntry.t :=
  let end_time := (start_time + timedelta_hours duration)%Z in
  {| LogEntry.status := status;
     LogEntry.start_time := start_time;
     LogEntry.end_time := end_time;
     LogEntry.duration := round2 duration;
     LogEntry.notes := notes |}.

Definition _create_restart_log (day_number : Z) (start_time : datetime)
    : DayLog.t :=
  let end_time := (start_time + timedelta_hours RESTART_OFF_DUTY_HOURS)%Z in
  {| DayLog.day_number := day_number;
     DayLog.date := date_of start_time;
     DayLog.start_time := start_time;
     DayLog.end_time := end_time;
     DayLog.log_entries :=
       [ {| LogEntry.status := OFF;
            LogEntry.start_time := start_time;
            LogEntry.end_time := end_time;
            LogEntry.duration := RESTART_OFF_DUTY_HOURS;
            LogEntry.notes := NOTE_RESTART |} ];
     DayLog.total_driving_hours := 0;
     DayLog.total_on_duty_hours := 0;
     DayLog.total_off_duty_hours := RESTART_OFF_DUTY_HOURS;
     DayLog.remaining_drive_time := MAX_DRIVING_HOURS;
     DayLog.remaining_on_duty_time := MAX_ON_DUTY_HOURS;
     DayLog.cycle_hours_remaining := MAX_CYCLE_HOURS;
     DayLog.is_restart := true |}.

(** The local variables of [_generate_daily_schedule].  The first nine
    live across days; the others are set afresh when a work day starts
    ([day_entries] is [day_log['log_entries']]). *)
Record Locals := mkLocals {
  daily_logs : list DayLog.t;
  remaining_miles : Q;
  remaining_driving_hours : Q;
  miles_since_fuel : Q;
  current_cycle : Q;
  day_number : Z;
  current_time : datetime;
  pickup_done : bool;
  dropoff_done : bool;
  day_start_time : datetime;
  day_entries : list LogEntry.t;
  max_drive_hours : Q;
  max_on_duty_hours : Q;
  hours_driven_today : Q;
  hours_on_duty_today : Q;
  hours_since_break : Q
}.

(** Lines 106-117: the state before the first iteration. *)
Definition initial_locals (now : datetime) (total_miles total_driving_hours
    current_cycle_used : Q) : Locals :=
  {| daily_logs := [];
     remaining_miles := total_miles;
     remaining_driving_hours := total_driving_hours;
     miles_since_fuel := 0;
     current_cycle := current_cycle_used;
     day_number := 1;
     current_time := replace_6am now;
     pickup_done := false;
     dropoff_done := false;
     day_start_time := replace_6am now;
     day_entries := [];
     max_drive_hours := 0;
     max_on_duty_hours := 0;
     hours_driven_today := 0;
     hours_on_duty_today := 0;
     hours_since_break := 0 |}.

(** Lines 123-127 (and 134-138): a restart day. *)
Definition restart_day (s : Locals) : Locals :=
  let restart_log := _create_restart_log (day_number s) (current_time s) in
  {| daily_logs := daily_logs s ++ [restart_log];
     remaining_miles := remaining_miles s;
     remaining_driving_hours := remaining_driving_hours s;
     miles_since_fuel := miles_since_fuel s;
     current_cycle := 0;
     day_number := (day_number s + 1)%Z;
     current_time := DayLog.end_time restart_log;
     pickup_done := pickup_done s;
     dropoff_done := dropoff_done s;
     day_start_time := day_start_time s;
     day_entries := day_entries s;
     max_drive_hours := max_drive_hours s;
     max_on_duty_hours := max_on_duty_hours s;
     hours_driven_today := hours_driven_today s;
     hours_on_duty_today := hours_on_duty_today s;
     hours_since_break := hours_since_break s |}.

(** Lines 142-166: a new work day. *)
Definition start_day (s : Locals) : Locals :=
  let available_cycle_hours := MAX_CYCLE_HOURS - current_cycle s in
  {| daily_logs := daily_logs s;
     remaining_miles := remaining_miles s;
     remaining_driving_hours := remaining_driving_hours s;
     miles_since_fuel := miles_since_fuel s;
     current_cycle := current_cycle s;
     day_number := day_number s;
     current_time := current_time s;
     pickup_done := pickup_done s;
     dropoff_done := dropoff_done s;
     day_start_time := current_time s;
     day_entries := [];
     max_drive_hours :=
       min3 MAX_DRIVING_HOURS (remaining_driving_hours s)
            available_cycle_hours;
     max_on_duty_hours := Qmin MAX_ON_DUTY_HOURS available_cycle_hours;
     hours_driven_today := 0;
     hours_on_duty_today := 0;
     hours_since_break := 0 |}.

(** Lines 169-179: the pickup, once. *)
Definition do_pickup (s : Locals) : Locals :=
  if pickup_done s then s else
  let entry := _create_log_entry ON (current_time s) PICKUP_DURATION
                 NOTE_PICKUP in
  {| daily_logs := daily_logs s;
     remaining_miles := remaining_miles s;
     remaining_driving_hours := remaining_driving_hours s;
     miles_since_fuel := miles_since_fuel s;
     current_cycle := current_cycle s;
     day_number := day_number s;
     current_time := LogEntry.end_time entry;
     pickup_done := true;
     dropoff_done := dropoff_done s;
     day_start_time := day_start_time s;
     day_entries := day_entries s ++ [entry];
     max_drive_hours := max_drive_hours s;
     max_on_duty_hours := max_on_duty_hours s;
     hours_driven_today := hours_driven_today s;
     hours_on_duty_today := hours_on_duty_today s + PICKUP_DURATION;
     hours_since_break := hours_since_break s |}.

(** Lines 188-196: the 30-minute break. *)
Definition take_break (s : Locals) : Locals :=
  let entry := _create_log_entry OFF (current_time s)
                 REQUIRED_BREAK_DURATION NOTE_BREAK in
  {| daily_logs := daily_logs s;
     remaining_miles := remaining_miles s;
     remaining_driving_hours := remaining_driving_hours s;
     miles_since_fuel := miles_since_fuel s;
     current_cycle := current_cycle s;
     day_number := day_number s;
     current_time := LogEntry.end_time entry;
     pickup_done := pickup_done s;
     dropoff_done := dropoff_done s;
     day_start_time := day_start_time s;
     day_entries := day_entries s ++ [entry];
     max_drive_hours := max_drive_hours s;
     max_on_duty_hours := max_on_duty_hours s;
     hours_driven_today := hours_driven_today s;
     hours_on_duty_today := hours_on_duty_today s;
     hours_since_break := 0 |}.

(** Lines 201-210: a fuel stop. *)
Definition fuel_stop (s : Locals) : Locals :=
  let entry := _create_log_entry ON (current_time s) FUEL_STOP_DURATION
                 NOTE_FUEL in
  {| daily_logs := daily_logs s;
     remaining_miles := remaining_miles s;
     remaining_driving_hours := remaining_driving_hours s;
     miles_since_fuel := 0;
     current_cycle := current_cycle s;
     day_number := day_number s;
     current_time := LogEntry.end_time entry;
     pickup_done := pickup_done s;
     dropoff_done := dropoff_done s;
     day_start_time := day_start_time s;
     day_entries := day_entries s ++ [entry];
     max_drive_hours := max_drive_hours s;
     max_on_duty_hours := max_on_duty_hours s;
     hours_driven_today := hours_driven_today s;
     hours_on_duty_today := hours_on_duty_today s + FUEL_STOP_DURATION;
     hours_since_break := hours_since_break s |}.

(** Lines 214-224: the length of the next driving segment. *)
Definition drive_duration (s : Locals) : Q :=
  let hours_until_break := REQUIRED_BREAK_AFTER_HOURS - hours_since_break s in
  let hours_until_drive_limit := max_drive_hours s - hours_driven_today s in
  let hours_until_duty_limit := max_on_duty_hours s - hours_on_duty_today s in
  min5 hours_until_break hours_until_drive_limit hours_until_duty_limit
       (remaining_driving_hours s) MAX_SEGMENT_HOURS.

(** Lines 230-245: a driving segment. *)
Definition drive (s : Locals) : Locals :=
  let drive_duration := drive_duration s in
  let miles_driven := drive_duration * AVG_SPEED_MPH in
  let entry := _create_log_entry D (current_time s) drive_duration
                 (note_driving miles_driven) in
  {| daily_logs := daily_logs s;
     remaining_miles := remaining_miles s - miles_driven;
     remaining_driving_hours := remaining_driving_hours s - drive_duration;
     miles_since_fuel := miles_since_fuel s + miles_driven;
     current_cycle := current_cycle s;
     day_number := day_number s;
     current_time := LogEntry.end_time entry;
     pickup_done := pickup_done s;
     dropoff_done := dropoff_done s;
     day_start_time := day_start_time s;
     day_entries := day_entries s ++ [entry];
     max_drive_hours := max_drive_hours s;
     max_on_duty_hours := max_on_duty_hours s;
     hours_driven_today := hours_driven_today s + drive_duration;
     hours_on_duty_today := hours_on_duty_today s + drive_duration;
     hours_since_break := hours_since_break s + drive_duration |}.

(** Lines 250-259: the dropoff. *)
Definition do_dropoff (s : Locals) : Locals :=
  let entry := _create_log_entry ON (current_time s) DROPOFF_DURATION
                 NOTE_DROPOFF in
  {| daily_logs := daily_logs s;
     remaining_miles := remaining_miles s;
     remaining_driving_hours := remaining_driving_hours s;
     miles_since_fuel := miles_since_fuel s;
     current_cycle := current_cycle s;
     day_number := day_number s;
     current_time := LogEntry.end_time entry;
     pickup_done := pickup_done s;
     dropoff_done := true;
     day_start_time := day_start_time s;
     day_entries := day_entries s ++ [entry];
     max_drive_hours := max_drive_hours s;
     max_on_duty_hours := max_on_duty_hours s;
     hours_driven_today := hours_driven_today s;
     hours_on_duty_today := hours_on_duty_today s + DROPOFF_DURATION;
     hours_since_break := hours_since_break s |}.

(** How the driving loop of a day was left: its condition became false,
    the [drive_duration < 0.1] guard of line 226, or the dropoff. *)
Inductive LoopExit := CondFalse | EpsilonBreak | DropoffBreak.

(** Lines 182-184: the condition of the driving loop. *)
Definition drive_cond (s : Locals) : bool :=
  Qlt_bool (hours_driven_today s) (max_drive_hours s)
  && Qlt_bool (hours_on_duty_today s) (max_on_duty_hours s)
  && Qlt_bool 0 (remaining_driving_hours s).

(** Lines 186-260: one pass through the body of the driving loop;
    [None] is [continue] or falling off the end, [Some e] a [break]. *)
Definition drive_body (s : Locals) : Locals * option LoopExit :=
  if Qle_bool REQUIRED_BREAK_AFTER_HOURS (hours_since_break s) then
    (take_break s, None)
  else if Qle_bool FUEL_STOP_MILES (miles_since_fuel s)
          && Qlt_bool 0 (remaining_miles s) then
    (fuel_stop s, None)
  else if Qlt_bool (drive_duration s) MIN_SEGMENT_HOURS then
    (s, Some EpsilonBreak)
  else
    let s1 := drive s in
    if Qle_bool (remaining_driving_hours s1) 0 && negb (dropoff_done s1) then
      (do_dropoff s1, Some DropoffBreak)
    else (s1, None).

Fixpoint drive_loop (fuel : nat) (s : Locals) : option (Locals * LoopExit) :=
  match fuel with
  | O => None
  | S fuel' =>
      if drive_cond s then
        match drive_body s with
        | (s', None) => drive_loop fuel' s'
        | (s', Some e) => Some (s', e)
        end
      else Some (s, CondFalse)
  end.

(** Lines 263-271: the 10-hour rest that closes a day. *)
Definition end_of_day_rest (total_driving_hours : Q) (s : Locals) : Locals :=
  if negb (dropoff_done s)
     || (day_number s <? Qceiling (total_driving_hours / MAX_DRIVING_HOURS))%Z
  then
    let entry := _create_log_entry SB (current_time s) RESET_OFF_DUTY_HOURS
                   NOTE_REST in
    {| daily_logs := daily_logs s;
       remaining_miles := remaining_miles s;
       remaining_driving_hours := remaining_driving_hours s;
       miles_since_fuel := miles_since_fuel s;
       current_cycle := current_cycle s;
       day_number := day_number s;
       current_time := LogEntry.end_time entry;
       pickup_done := pickup_done s;
       dropoff_done := dropoff_done s;
       day_start_time := day_start_time s;
       day_entries := day_entries s ++ [entry];
       max_drive_hours := max_drive_hours s;
       max_on_duty_hours := max_on_duty_hours s;
       hours_driven_today := hours_driven_today s;
       hours_on_duty_today := hours_on_duty_today s;
       hours_since_break := hours_since_break s |}
  else s.

(** Lines 274-280: the three totals of a day, summed entry by entry. *)
Definition is_driving (e : LogEntry.t) : bool :=
  DutyStatus_eqb (LogEntry.status e) D.
Definition is_on_duty (e : LogEntry.t) : bool :=
  DutyStatus_eqb (LogEntry.status e) D || DutyStatus_eqb (LogEntry.status e) ON.
Definition is_off_duty (e : LogEntry.t) : bool :=
  DutyStatus_eqb (LogEntry.status e) OFF || DutyStatus_eqb (LogEntry.status e) SB.

Definition sum_durations (sel : LogEntry.t -> bool) (l : list LogEntry.t) : Q :=
  fold_left (fun acc e => if sel e then acc + LogEntry.duration e else acc)
            l 0.

(** Lines 273-297: totals, cycle update, and the day is appended.  The
    counter takes the unrounded on-duty total (line 283), the DayLog its
    rounding to two decimals (line 293). *)
Definition close_day (s : Locals) : Locals :=
  let driving := sum_durations is_driving (day_entries s) in
  let on_duty := sum_durations is_on_duty (day_entries s) in
  let off_duty := sum_durations is_off_duty (day_entries s) in
  let current_cycle' := current_cycle s + on_duty in
  let day_log :=
    {| DayLog.day_number := day_number s;
       DayLog.date := date_of (day_start_time s);
       DayLog.start_time := day_start_time s;
       DayLog.log_entries := day_entries s;
       DayLog.total_driving_hours := round2 driving;
       DayLog.total_on_duty_hours := round2 on_duty;
       DayLog.total_off_duty_hours := round2 off_duty;
       DayLog.remaining_drive_time := round2 (MAX_DRIVING_HOURS - driving);
       DayLog.remaining_on_duty_time := round2 (MAX_ON_DUTY_HOURS - on_duty);
       DayLog.cycle_hours_remaining :=
         round2 (MAX_CYCLE_HOURS - current_cycle');
       DayLog.end_time := current_time s;
       DayLog.is_restart := false |} in
  {| daily_logs := daily_logs s ++ [day_log];
     remaining_miles := remaining_miles s;
     remaining_driving_hours := remaining_driving_hours s;
     miles_since_fuel := miles_since_fuel s;
     current_cycle := current_cycle';
     day_number := (day_number s + 1)%Z;
     current_time := current_time s;
     pickup_done := pickup_done s;
     dropoff_done := dropoff_done s;
     day_start_time := day_start_time s;
     day_entries := day_entries s;
     max_drive_hours := max_drive_hours s;
     max_on_duty_hours := max_on_duty_hours s;
     hours_driven_today := hours_driven_today s;
     hours_on_duty_today := hours_on_duty_today s;
     hours_since_break := hours_since_break s |}.

(** Lines 141-297: a whole work day, with how its driving loop was left. *)
Definition work_day (n : nat) (total_driving_hours : Q) (s : Locals)
    : option (Locals * LoopExit) :=
  match drive_loop n (do_pickup (start_day s)) with
  | None => None
  | Some (s', e) => Some (close_day (end_of_day_rest total_driving_hours s'), e)
  end.

(** Lines 121 and 131-132: is a 34-hour restart inserted now? *)
Definition needs_restart (s : Locals) : bool :=
  Qle_bool MAX_CYCLE_HOURS (current_cycle s)
  || Qlt_bool (MAX_CYCLE_HOURS - current_cycle s) 1.

(** Line 119: the condition of the day loop. *)
Definition day_cond (s : Locals) : bool :=
  Qlt_bool 0 (remaining_driving_hours s) || negb (dropoff_done s).

(** Line 300: the test that leaves the day loop after a work day. *)
Definition trip_done (s : Locals) : bool :=
  dropoff_done s && Qle_bool (remaining_driving_hours s) 0.

(** Lines 119-301: the day loop.  [n] is the fuel of each day's driving
    loop, [fuel] bounds the number of days. *)
Fixpoint day_loop (n fuel : nat) (total_driving_hours : Q) (s : Locals)
    : option Locals :=
  match fuel with
  | O => None
  | S fuel' =>
      if day_cond s then
        if needs_restart s then
          day_loop n fuel' total_driving_hours (restart_day s)
        else
          match work_day n total_driving_hours s with
          | None => None
          | Some (s', _) =>
              if trip_done s' then Some s'
              else day_loop n fuel' total_driving_hours s'
          end
      else Some s
  end.

(** The run of [_generate_daily_schedule], with all its final locals. *)
Definition run_schedule (fuel : nat) (now : datetime)
    (total_miles total_driving_hours current_cycle_used : Q) : option Locals :=
  day_loop fuel fuel total_driving_hours
    (initial_locals now total_miles total_driving_hours current_cycle_used).

Definition _generate_daily_schedule (fuel : nat) (now : datetime)
    (total_miles total_driving_hours current_cycle_used : Q)
    : option (list DayLog.t) :=
  option_map daily_logs
    (run_schedule fuel now total_miles total_driving_hours current_cycle_used).

(** Lines 352-360: the loop of [_calculate_final_cycle_usage], over the
    rounded on-duty totals of the DayLogs. *)
Definition cycle_total (current_cycle_used : Q) (daily_logs : list DayLog.t)
    : Q :=
  fold_left
    (fun total log =>
       if DayLog.is_restart log then 0
       else total + DayLog.total_on_duty_hours log)
    daily_logs current_cycle_used.

Definition _calculate_final_cycle_usage (current_cycle_used : Q)
    (daily_logs : list DayLog.t) : Q :=
  round2 (cycle_total current_cycle_used daily_logs).

Definition _check_restart_needed (daily_logs : list DayLog.t) : bool :=
  existsb DayLog.is_restart daily_logs.

(** [calculate_trip], for an engine built with [current_cycle_used];
    [now] is the reading of [datetime.now()]. *)
Definition calculate_trip (fuel : nat) (now : datetime)
    (total_miles current_cycle_used : Q) : option TripPlan.t :=
  let total_driving_hours := total_miles / AVG_SPEED_MPH in
  let num_fuel_stops := Qfloor (total_miles / FUEL_STOP_MILES) in
  let estimated_days := Qceiling (total_driving_hours / MAX_DRIVING_HOURS) in
  match _generate_daily_schedule fuel now total_miles total_driving_hours
          current_cycle_used with
  | None => None
  | Some daily_logs =>
      Some {| TripPlan.total_miles := total_miles;
              TripPlan.total_driving_hours := round2 total_driving_hours;
              TripPlan.estimated_days := estimated_days;
              TripPlan.actual_days := Z.of_nat (List.length daily_logs);
              TripPlan.num_fuel_stops := num_fuel_stops;
              TripPlan.daily_logs := daily_logs;
              TripPlan.cycle_used_before := current_cycle_used;
              TripPlan.cycle_used_after :=
                _calculate_final_cycle_usage current_cycle_used daily_logs;
              TripPlan.restart_needed := _check_restart_needed daily_logs |}
  end.

End HOSEngine.

Import HOSEngine.

(** ** The ELD log generator ([eld_generator.py]) *)

Module ELDLogGenerator.

Definition WIDTH : Q := 1200.
Definition HEIGHT : Q := 600.
Definition MARGIN_LEFT : Q := 100.
Definition MARGIN_RIGHT : Q := 50.
Definition MARGIN_TOP : Q := 150.
Definition MARGIN_BOTTOM : Q := 100.

Definition GRAPH_WIDTH : Q := WIDTH - MARGIN_LEFT - MARGIN_RIGHT.
Definition GRAPH_HEIGHT : Q := 400.

Definition STATUS_POSITIONS (status : DutyStatus) : Z :=
  match status with
  | OFF => 0
  | SB => 1
  | D => 2
  | ON => 3
  end.

Definition STATUS_LABELS (status : DutyStatus) : string :=
  match status with
  | OFF => "Off Duty"
  | SB => "Sleeper Berth"
  | D => "Driving"
  | ON => "On Duty (Not Driving)"
  end.

(** [datetime.fromisoformat(day_log['date'])]: midnight of the day. *)
Definition day_start_of (day_log : DayLog.t) : datetime :=
  (DayLog.date day_log * US_PER_DAY)%Z.

(** [(t - day_start).total_seconds() / 3600] *)
Definition hours_from (day_start t : datetime) : Q :=
  inject_Z (t - day_start) / inject_Z US_PER_HOUR.

(** [max(0, min(24, hours))] *)
Definition clip_24 (hours : Q) : Q := Qmax 0 (Qmin 24 hours).

(** Two decimal digits, as [%H] and [%M] print them. *)
Definition two_digits (n : Z) : string :=
  String (Ascii.ascii_of_nat (48 + Z.to_nat (n / 10)))
    (String (Ascii.ascii_of_nat (48 + Z.to_nat (n mod 10))) EmptyString).

(** [t.strftime('%H:%M')] *)
Definition strftime_HM (t : datetime) : string :=
  (two_digits ((t mod US_PER_DAY) / US_PER_HOUR)
   ++ ":"
   ++ two_digits ((t mod US_PER_HOUR) / 60000000))%string.

(** An entry of ['entries'] in the result of
    [generate_json_for_frontend]. *)
Record GridEntry := mkGridEntry {
  status : DutyStatus;
  status_label : string;
  status_y : Z;
  start_hours : Q;
  end_hours : Q;
  duration : Q;
  notes : string;
  start_time_str : string;
  end_time_str : string
}.

Record Summary := mkSummary {
  total_driving_hours : Q;
  total_on_duty_hours : Q;
  total_off_duty_hours : Q;
  remaining_drive_time : Q;
  remaining_on_duty_time : Q;
  cycle_hours_remaining : Q
}.

Record Grid := mkGrid {
  day_number : Z;
  date : Z;
  entries : list GridEntry;
  summary : Summary
}.

(** Lines 318-346: one entry, for entries that hold [datetime] objects
    (as the logs of [calculate_trip] do; the branch for ISO strings only
    parses them first). *)
Definition process_entry (day_start : datetime) (entry : LogEntry.t)
    : GridEntry :=
  let start_time := LogEntry.start_time entry in
  let end_time := LogEntry.end_time entry in
  let start_hours := clip_24 (hours_from day_start start_time) in
  let end_hours := clip_24 (hours_from day_start end_time) in
  {| status := LogEntry.status entry;
     status_label := STATUS_LABELS (LogEntry.status entry);
     status_y := STATUS_POSITIONS (LogEntry.status entry);
     start_hours := round2 start_hours;
     end_hours := round2 end_hours;
     duration := LogEntry.duration entry;
     notes := LogEntry.notes entry;
     start_time_str := strftime_HM start_time;
     end_time_str := strftime_HM end_time |}.

Definition generate_json_for_frontend (day_log : DayLog.t) : Grid :=
  let day_start := day_start_of day_log in
  {| day_number := DayLog.day_number day_log;
     date := DayLog.date day_log;
     entries := map (process_entry day_start) (DayLog.log_entries day_log);
     summary :=
       {| total_driving_hours := DayLog.total_driving_hours day_log;
          total_on_duty_hours := DayLog.total_on_duty_hours day_log;
          total_off_duty_hours := DayLog.total_off_duty_hours day_log;
          remaining_drive_time := DayLog.remaining_drive_time day_log;
          remaining_on_duty_time := DayLog.remaining_on_duty_time day_log;
          cycle_hours_remaining := DayLog.cycle_hours_remaining day_log |} |}.

(** The commands collected in [path_data] by [_draw_status_lines], before
    they are printed into the [d] attribute (["M x,y"], ["L x,y"]). *)
Inductive PathCmd :=
| M (x y : Q)
| L (x y : Q).

Definition hour_width : Q := GRAPH_WIDTH / 24.
Definition status_height : Q := GRAPH_HEIGHT / 4.

(** Line 219 (and 229): the height of the lane of a status. *)
Definition lane_y (status : DutyStatus) : Q :=
  MARGIN_TOP + inject_Z (STATUS_POSITIONS status) * status_height
  + status_height / 2.

(** Lines 194-236: the loop over the entries; [prev] is the status of
    the entry before (none for the first entry). *)
Fixpoint status_path (day_start : datetime) (prev : option DutyStatus)
    (log_entries : list LogEntry.t) : list PathCmd :=
  match log_entries with
  | [] => []
  | entry :: rest =>
      let status := LogEntry.status entry in
      let start_hours :=
        clip_24 (hours_from day_start (LogEntry.start_time entry)) in
      let end_hours :=
        clip_24 (hours_from day_start (LogEntry.end_time entry)) in
      let x1 := MARGIN_LEFT + start_hours * hour_width in
      let x2 := MARGIN_LEFT + end_hours * hour_width in
      let y := lane_y status in
      (match prev with
       | None => [M x1 y]
       | Some prev_status =>
           if DutyStatus_eqb status prev_status then []
           else [L x1 (lane_y prev_status); L x1 y]
       end)
      ++ [L x2 y]
      ++ status_path day_start (Some status) rest
  end.

(** [_draw_status_lines]: the path added to the drawing, if any. *)
Definition _draw_status_lines (day_log : DayLog.t) : option (list PathCmd) :=
  match DayLog.log_entries day_log with
  | [] => None
  | log_entries =>
      Some (status_path (day_start_of day_log) None log_entries)
  end.

End ELDLogGenerator.

(** ** The route service ([route_service.py])

    The service as the view constructs it, [RouteService()]: without an
    API key no request is sent, [geocode_address] looks the address up
    in the table of cities and [calculate_route] takes the fallback.
    Coordinates are pairs (longitude, latitude) of decimal numbers; the
    distance is computed over the real numbers, with [sin], [cos],
    [asin], [sqrt] and [PI] those of the standard library. *)

Module RouteService.

(** What a call gives: a value, or the [ValueError] it raises. *)
Inductive result (A : Type) : Type :=
| Ok (a : A)
| ValueError (msg : string).

Arguments Ok {A} a.
Arguments ValueError {A} msg.

Definition bind {A B : Type} (r : result A) (f : A -> result B) : result B :=
  match r with
  | Ok a => f a
  | ValueError msg => ValueError msg
  end.

Notation "x <- r ;; k" := (bind r (fun x => k))
  (at level 61, r at next level, right associativity).

Definition Coord : Type := Q * Q.

(** [math.sqrt] and [math.asin] raise outside their domain. *)
Definition math_sqrt (x : R) : result R :=
  if Rlt_dec x 0 then ValueError "math domain error" else Ok (sqrt x).

Definition math_asin (x : R) : result R :=
  if Rlt_dec x (-1) then ValueError "math domain error"
  else if Rlt_dec 1 x then ValueError "math domain error"
  else Ok (asin x).

Definition math_radians (x : R) : R := (x * (PI / 180))%R.

(** Nearest integer of a real number, ties to even. *)
Definition round_half_even_R (x : R) : Z :=
  let f := Int_part x in
  match total_order_T (x - IZR f) (1 / 2) with
  | inleft (left _) => f
  | inleft (right _) => if Z.even f then f else (f + 1)%Z
  | inright _ => (f + 1)%Z
  end.

(** [round(x, 1)] and [round(x, 2)] of a real number *)
Definition round1_R (x : R) : Q := round_half_even_R (x * 10) # 10.
Definition round2_R (x : R) : Q := round_half_even_R (x * 100) # 100.

(** [sub in s] for strings *)
Fixpoint contains (sub s : string) : bool :=
  String.prefix sub s
  || match s with
     | EmptyString => false
     | String _ s' => contains sub s'
     end.

(** Lines 221-242: common locations (longitude, latitude), in the order
    of the dictionary. *)
Definition locations_db : list (string * Coord) :=
  [ ("new york"%string, (-74.0060, 40.7128));
    ("los angeles"%string, (-118.2437, 34.0522));
    ("chicago"%string, (-87.6298, 41.8781));
    ("houston"%string, (-95.3698, 29.7604));
    ("phoenix"%string, (-112.0740, 33.4484));
    ("philadelphia"%string, (-75.1652, 39.9526));
    ("san antonio"%string, (-98.4936, 29.4241));
    ("san diego"%string, (-117.1611, 32.7157));
    ("dallas"%string, (-96.7970, 32.7767));
    ("san jose"%string, (-121.8863, 37.3382));
    ("austin"%string, (-97.7431, 30.2672));
    ("jacksonville"%string, (-81.6557, 30.3322));
    ("miami"%string, (-80.1918, 25.7617));
    ("atlanta"%string, (-84.3880, 33.7490));
    ("boston"%string, (-71.0589, 42.3601));
    ("seattle"%string, (-122.3321, 47.6062));
    ("denver"%string, (-104.9903, 39.7392));
    ("las vegas"%string, (-115.1398, 36.1699));
    ("portland"%string, (-122.6765, 45.5231));
    ("detroit"%string, (-83.0458, 42.3314)) ].

(** Line 252: the centre of the US. *)
Definition default_coords : Coord := (-98.5795, 39.8283).

(** Lines 247-252: the first city of [db] whose name occurs in
    [location_lower], the centre of the US if there is none. *)
Fixpoint first_known (db : list (string * Coord)) (location_lower : string)
    : Coord :=
  match db with
  | [] => default_coords
  | (city, coords) :: db' =>
      if contains city location_lower then coords
      else first_known db' location_lower
  end.

Record Segment := mkSegment {
  seg_start : Coord;
  seg_end : Coord;
  distance_miles : Q
}.

Record Waypoint := mkWaypoint {
  location : Coord;
  address : option string
}.

Record Route := mkRoute {
  total_miles : Q;
  total_duration_hours : Q;
  coordinates : list Coord;
  segments : list Segment;
  waypoints : list Waypoint;
  method : string
}.

(** [_haversine_distance]: the distance in kilometers. *)
Definition _haversine_distance (coord1 coord2 : Coord) : result R :=
  let '(lon1, lat1) := coord1 in
  let '(lon2, lat2) := coord2 in
  let lon1 := math_radians (Q2R lon1) in
  let lat1 := math_radians (Q2R lat1) in
  let lon2 := math_radians (Q2R lon2) in
  let lat2 := math_radians (Q2R lat2) in
  let dlon := (lon2 - lon1)%R in
  let dlat := (lat2 - lat1)%R in
  let a := (sin (dlat / 2) ^ 2 + cos lat1 * cos lat2 * sin (dlon / 2) ^ 2)%R in
  root <- math_sqrt a ;;
  angle <- math_asin root ;;
  let c := (2 * angle)%R in
  let r := 6371%R in
  Ok (c * r)%R.

(** Lines 146-159: the loop of [_calculate_route_fallback] from index
    [i] on; [coordinates] is the list from [coordinates[i]] on. *)
Fixpoint fallback_loop (coordinates : list Coord) (total_miles : R)
    (segments : list Segment) : result (R * list Segment) :=
  match coordinates with
  | start :: (stop :: _) as rest =>
      distance <- _haversine_distance start stop ;;
      let distance_miles := (distance * 0.621371 * 1.2)%R in
      fallback_loop rest (total_miles + distance_miles)%R
        (segments ++ [ {| seg_start := start;
                          seg_end := stop;
                          distance_miles := round1_R distance_miles |} ])
  | _ => Ok (total_miles, segments)
  end.

(** Lines 169-172: the waypoints, from index [i] on. *)
Fixpoint waypoints_from (i : nat) (coordinates : list Coord)
    (locations : list string) : list Waypoint :=
  match coordinates with
  | [] => []
  | coord :: rest =>
      {| location := coord; address := nth_error locations i |}
      :: waypoints_from (S i) rest locations
  end.

Definition _calculate_route_fallback (coordinates : list Coord)
    (locations : list string) : result Route :=
  r <- fallback_loop coordinates 0%R [] ;;
  let '(total_miles, segments) := r in
  let duration_hours := (total_miles / 60)%R in
  Ok {| total_miles := round1_R total_miles;
        total_duration_hours := round2_R duration_hours;
        coordinates := coordinates;
        segments := segments;
        waypoints := waypoints_from 0 coordinates locations;
        method := "fallback" |}.

Section Service.

(** [str.lower] *)
Variable lower : string -> string.

Definition _get_approximate_coords (location : string) : Coord :=
  let location_lower := lower location in
  first_known locations_db location_lower.

(** [geocode_address] without an API key (lines 86-87). *)
Definition geocode_address (address : string) : Coord :=
  _get_approximate_coords address.

(** [calculate_route] with [use_geocoding=True].  A pair of coordinates
    is never falsy, so the branch of line 56 is not taken; an exception
    of the fallback is caught and the fallback is called again (lines
    70-72). *)
Definition calculate_route (locations : list string) : result Route :=
  let coordinates := map geocode_address locations in
  if (List.length coordinates <? 2)%nat
  then ValueError "At least 2 locations required"
  else
    match _calculate_route_fallback coordinates locations with
    | Ok route_data => Ok route_data
    | ValueError _ => _calculate_route_fallback coordinates locations
    end.

End Service.

End RouteService.

(** ** The view ([views.py]) *)

Module Views.

(** The objects [serialize_datetime_in_dict] is applied to: [datetime]
    objects, dictionaries, lists, and objects of other types, of which
    tuples can hold further objects. *)
#[warnings="-register-all"] Inductive value : Type :=
| VDatetime (t : datetime)
| VStr (s : string)
| VNumber (x : Q)
| VBool (b : bool)
| VNone
| VDict (items : list (value * value))
| VList (items : list value)
| VTuple (items : list value).

Section Serialize.

(** [datetime.isoformat] *)
Variable isoformat : datetime -> string.

(** Lines 22-30. *)
Fixpoint serialize_datetime_in_dict (obj : value) : value :=
  match obj with
  | VDatetime t => VStr (isoformat t)
  | VDict items =>
      VDict (map (fun item =>
                    (fst item, serialize_datetime_in_dict (snd item)))
                 items)
  | VList items => VList (map serialize_datetime_in_dict items)
  | _ => obj
  end.

End Serialize.

(** Steps 1 to 3 of the view [calculate_trip] (lines 54-76), on the
    validated data: the route of the three locations, the plan of the
    engine for its [total_miles], and the grid of every DayLog.  [None]
    means the engine has not returned within the fuel. *)
Definition calculate_trip (fuel : nat) (now : datetime)
    (lower : string -> string)
    (current_location pickup_location dropoff_location : string)
    (current_cycle_used : Q)
    : option (RouteService.result
                (RouteService.Route * TripPlan.t
                 * list ELDLogGenerator.Grid)) :=
  let locations := [current_location; pickup_location; dropoff_location] in
  match RouteService.calculate_route lower locations with
  | RouteService.ValueError msg => Some (RouteService.ValueError msg)
  | RouteService.Ok route_data =>
      match HOSEngine.calculate_trip fuel now
              (RouteService.total_miles route_data) current_cycle_used with
      | None => None
      | Some trip_plan =>
          Some (RouteService.Ok
                  (route_data, trip_plan,
                   map ELDLogGenerator.generate_json_for_frontend
                       (TripPlan.daily_logs trip_plan)))
      end
  end.

End Views.


(** * Vocabulary of the properties *)

(** A whole number of hundredths. *)
Definition is_cent (x : Q) : Prop := exists z : Z, x == z # 100.

(** The two daily caps, on the totals a DayLog reports. *)
Definition within_caps (d : DayLog.t) : Prop :=
  DayLog.total_driving_hours d <= MAX_DRIVING_HOURS /\
  DayLog.total_on_duty_hours d <= MAX_ON_DUTY_HOURS.

(** All the segments of a plan, in order. *)
Definition all_entries (logs : list DayLog.t) : list LogEntry.t :=
  flat_map DayLog.log_entries logs.

(** How many entries of [l] satisfy [sel]. *)
Definition count_entries (sel : LogEntry.t -> bool) (l : list LogEntry.t)
    : nat :=
  List.length (filter sel l).

(** The pickup and dropoff segments: status ON with the notes of lines
    174 and 254. *)
Definition is_pickup (e : LogEntry.t) : bool :=
  DutyStatus_eqb (LogEntry.status e) ON
  && String.eqb (LogEntry.notes e) NOTE_PICKUP.

Definition is_dropoff (e : LogEntry.t) : bool :=
  DutyStatus_eqb (LogEntry.status e) ON
  && String.eqb (LogEntry.notes e) NOTE_DROPOFF.

(** The fuel-stop segments: status ON with the note of line 205. *)
Definition is_fuel_stop (e : LogEntry.t) : bool :=
  DutyStatus_eqb (LogEntry.status e) ON
  && String.eqb (LogEntry.notes e) NOTE_FUEL.

(** The 10-hour rest that closes a day: status SB with the note of line
    268. *)
Definition is_rest (e : LogEntry.t) : bool :=
  DutyStatus_eqb (LogEntry.status e) SB
  && String.eqb (LogEntry.notes e) NOTE_REST.

(** How many fuel-stop segments [l] holds. *)
Definition fuel_segments (l : list LogEntry.t) : nat :=
  count_entries is_fuel_stop l.

(** Neither a pickup nor a dropoff. *)
Definition quiet (l : list LogEntry.t) : Prop :=
  Forall (fun e => is_pickup e = false /\ is_dropoff e = false) l.

(** No driving segment. *)
Definition no_driving (l : list LogEntry.t) : Prop :=
  Forall (fun e => is_driving e = false) l.

(** A restart day: flagged so, with entries that are neither driving nor
    pickup nor dropoff. *)
Definition restart_only (d : DayLog.t) : Prop :=
  DayLog.is_restart d = true /\
  quiet (DayLog.log_entries d) /\ no_driving (DayLog.log_entries d).

(** The pickup opens the first day that is not a restart day. *)
Definition pickup_placed (logs : list DayLog.t) : Prop :=
  exists rs w rest e tl,
    logs = rs ++ w :: rest /\
    Forall restart_only rs /\
    DayLog.is_restart w = false /\
    DayLog.log_entries w = e :: tl /\
    is_pickup e = true.

(** The dropoff directly follows a driving segment, and no driving
    segment comes after it. *)
Definition dropoff_placed (logs : list DayLog.t) : Prop :=
  exists l d drop tail,
    all_entries logs = l ++ d :: drop :: tail /\
    is_driving d = true /\
    is_dropoff drop = true /\
    no_driving tail.

(** A segment without its timestamps, the duration in lowest terms. *)
Definition entry_shape (e : LogEntry.t) : DutyStatus * Q * string :=
  (LogEntry.status e, Qred (LogEntry.duration e), LogEntry.notes e).

(** A day as its restart flag and the shapes of its segments. *)
Definition day_shape (d : DayLog.t)
    : bool * list (DutyStatus * Q * string) :=
  (DayLog.is_restart d, map entry_shape (DayLog.log_entries d)).

(** A plan as the shapes of its days. *)
Definition plan_shape (p : TripPlan.t)
    : list (bool * list (DutyStatus * Q * string)) :=
  map day_shape (TripPlan.daily_logs p).

(** [x] and [y] differ by at most [eps]. *)
Definition within (eps x y : Q) : Prop := x - eps <= y /\ y <= x + eps.

(** * Invariants of the two loops *)

(** The five ways through the body of the driving loop. *)
Inductive body_case (s : Locals) : Locals * option LoopExit -> Prop :=
| case_break :
    REQUIRED_BREAK_AFTER_HOURS <= hours_since_break s ->
    body_case s (take_break s, None)
| case_fuel :
    hours_since_break s < REQUIRED_BREAK_AFTER_HOURS ->
    FUEL_STOP_MILES <= miles_since_fuel s ->
    0 < remaining_miles s ->
    body_case s (fuel_stop s, None)
| case_epsilon :
    hours_since_break s < REQUIRED_BREAK_AFTER_HOURS ->
    drive_duration s < MIN_SEGMENT_HOURS ->
    body_case s (s, Some EpsilonBreak)
| case_dropoff :
    hours_since_break s < REQUIRED_BREAK_AFTER_HOURS ->
    MIN_SEGMENT_HOURS <= drive_duration s ->
    remaining_driving_hours (drive s) <= 0 ->
    dropoff_done s = false ->
    body_case s (do_dropoff (drive s), Some DropoffBreak)
| case_drive :
    hours_since_break s < REQUIRED_BREAK_AFTER_HOURS ->
    MIN_SEGMENT_HOURS <= drive_duration s ->
    0 < remaining_driving_hours (drive s) \/ dropoff_done s = true ->
    body_case s (drive s, None).

(** The driving loop touches neither the logs of earlier days nor the
    cycle counter, the day number, the pickup flag or the day's caps. *)
Definition same_day_frame (s0 s : Locals) : Prop :=
  daily_logs s = daily_logs s0 /\
  current_cycle s = current_cycle s0 /\
  day_number s = day_number s0 /\
  pickup_done s = pickup_done s0 /\
  day_start_time s = day_start_time s0 /\
  max_drive_hours s = max_drive_hours s0 /\
  max_on_duty_hours s = max_on_duty_hours s0.

(** A whole even number of hours, up to the 8 that make a break due. *)
Definition even_hours (h : Q) : Prop :=
  h == 0 \/ h == 2 \/ h == 4 \/ h == 6 \/ h == 8.

(** The invariant of the driving loop behind the two caps.  While the
    loop runs every driving segment so far is a whole 2 hours, so the
    rounded durations add up to [hours_driven_today]; a day has at most
    one fuel stop, because after it fewer than 1000 miles fit in the
    day's driving allotment. *)
Definition caps_inv (s : Locals) : Prop :=
  max_drive_hours s <= MAX_DRIVING_HOURS /\
  0 <= hours_driven_today s /\
  sum_durations is_driving (day_entries s) <= MAX_DRIVING_HOURS /\
  (sum_durations is_on_duty (day_entries s)
   <= sum_durations is_driving (day_entries s) + 1
   \/ (sum_durations is_on_duty (day_entries s)
       <= sum_durations is_driving (day_entries s) + (3 # 2)
       /\ miles_since_fuel s <= AVG_SPEED_MPH * hours_driven_today s)) /\
  (drive_cond s = true ->
     sum_durations is_driving (day_entries s) == hours_driven_today s
     /\ (exists k : Z, hours_driven_today s == inject_Z k)
     /\ even_hours (hours_since_break s)).

(** What [caps_inv] leaves when the driving loop is left. *)
Definition caps_post (s : Locals) : Prop :=
  sum_durations is_driving (day_entries s) <= MAX_DRIVING_HOURS /\
  sum_durations is_on_duty (day_entries s)
  <= sum_durations is_driving (day_entries s) + (5 # 2).

(** Every duration stored in the entries is a number of hundredths. *)
Definition cent_entries (l : list LogEntry.t) : Prop :=
  Forall (fun e => is_cent (LogEntry.duration e)) l.

(** The running total of [_calculate_final_cycle_usage], before the final
    rounding, is the cycle counter of the simulation. *)
Definition cycle_agrees (c0 : Q) (s : Locals) : Prop :=
  cycle_total c0 (daily_logs s) == current_cycle s.

(** A count, as a rational. *)
Definition qcount (n : nat) : Q := inject_Z (Z.of_nat n).

(** The fuel stops emitted so far, [k], have each used up 1000 miles of
    the distance driven, and the last one was emitted with miles left. *)
Definition fuel_bound (M : Q) (k : Q) (s : Locals) : Prop :=
  FUEL_STOP_MILES * k + miles_since_fuel s <= M - remaining_miles s /\
  (k == 0 \/ FUEL_STOP_MILES * k < M).

(** [fuel_bound] inside a day: the logs of earlier days and the entries
    of the day under construction. *)
Definition fuel_inv_day (M : Q) (s : Locals) : Prop :=
  fuel_bound M (qcount (fuel_segments (all_entries (daily_logs s))
                        + fuel_segments (day_entries s))) s.

(** [fuel_bound] between days. *)
Definition fuel_inv (M : Q) (s : Locals) : Prop :=
  fuel_bound M (qcount (fuel_segments (all_entries (daily_logs s)))) s.

(** What the driving loop appends to the entries of the day: breaks, fuel
    stops and driving segments, closed by a driving segment and the
    dropoff exactly when the loop is left by the dropoff. *)
Definition appended (s0 r : Locals) (e : LoopExit) : Prop :=
  exists mid,
    quiet mid /\
    ((e <> DropoffBreak /\ dropoff_done r = false /\
      day_entries r = day_entries s0 ++ mid)
     \/
     (e = DropoffBreak /\ dropoff_done r = true /\
      remaining_driving_hours r <= 0 /\
      exists d drop,
        day_entries r = day_entries s0 ++ mid ++ [d; drop] /\
        is_driving d = true /\ is_dropoff drop = true)).

(** The invariant of the driving loop that gives [appended]. *)
Definition appending (s0 s : Locals) : Prop :=
  dropoff_done s = false /\
  exists mid, quiet mid /\ day_entries s = day_entries s0 ++ mid.

(** The entries of a completed work day. *)
Inductive day_shape_of (s s' : Locals) (d : DayLog.t) : Prop :=
| day_shape_intro (pre mid tail : list LogEntry.t) :
    (pickup_done s = true /\ pre = []
     \/ pickup_done s = false /\ exists p, pre = [p] /\ is_pickup p = true
                                          /\ is_dropoff p = false) ->
    quiet mid -> quiet tail -> no_driving tail ->
    (dropoff_done s' = false /\ DayLog.log_entries d = pre ++ mid ++ tail
     \/
     dropoff_done s' = true /\ remaining_driving_hours s' <= 0 /\
     exists dr drop,
       DayLog.log_entries d = pre ++ mid ++ dr :: drop :: tail /\
       is_driving dr = true /\ is_dropoff drop = true) ->
    day_shape_of s s' d.

(** The invariant of the day loop: the pickup is counted and placed as
    soon as it is done; the dropoff is absent until it is done, and then
    it is placed and the trip is over. *)
Definition plan_inv (s : Locals) : Prop :=
  (pickup_done s = false -> Forall restart_only (daily_logs s)) /\
  (pickup_done s = true ->
     pickup_placed (daily_logs s) /\
     count_entries is_pickup (all_entries (daily_logs s)) = 1%nat) /\
  (dropoff_done s = false /\
   count_entries is_dropoff (all_entries (daily_logs s)) = 0%nat
   \/
   dropoff_done s = true /\ pickup_done s = true /\
   remaining_driving_hours s <= 0 /\
   dropoff_placed (daily_logs s) /\
   count_entries is_dropoff (all_entries (daily_logs s)) = 1%nat).

(** Tenths of an hour of driving still allowed today, and one more pass
    for a break that is due and for a fuel stop that is due. *)
Definition drive_measure (s : Locals) : nat :=
  (3 * Z.to_nat (Qceiling (10 * (max_drive_hours s - hours_driven_today s)))
   + (if Qle_bool REQUIRED_BREAK_AFTER_HOURS (hours_since_break s)
      then 1 else 0)
   + (if Qle_bool FUEL_STOP_MILES (miles_since_fuel s) then 1 else 0))%nat.

(** * Vocabulary and invariants of the further properties *)

(** ** Timestamps: the segments of a plan follow one another *)

(** The entries of [l] follow one another from [t] on: each starts when
    the one before ended, and none ends before it starts. *)
Fixpoint chained (t : datetime) (l : list LogEntry.t) : Prop :=
  match l with
  | [] => True
  | e :: l' =>
      LogEntry.start_time e = t /\
      (LogEntry.start_time e <= LogEntry.end_time e)%Z /\
      chained (LogEntry.end_time e) l'
  end.

(** Where a chain of entries that starts at [t] ends. *)
Fixpoint chain_end (t : datetime) (l : list LogEntry.t) : datetime :=
  match l with
  | [] => t
  | e :: l' => chain_end (LogEntry.end_time e) l'
  end.

(** The days of [logs] follow one another from [t] on: a day starts when
    the day before ended, its entries are chained from its start, and it
    ends with its last entry. *)
Fixpoint days_chained (t : datetime) (logs : list DayLog.t) : Prop :=
  match logs with
  | [] => True
  | d :: logs' =>
      DayLog.start_time d = t /\
      chained t (DayLog.log_entries d) /\
      chain_end t (DayLog.log_entries d) = DayLog.end_time d /\
      days_chained (DayLog.end_time d) logs'
  end.

(** Where a chain of days that starts at [t] ends. *)
Fixpoint days_end (t : datetime) (logs : list DayLog.t) : datetime :=
  match logs with
  | [] => t
  | d :: logs' => days_end (DayLog.end_time d) logs'
  end.

(** The invariant of the driving loop for the timestamps. *)
Definition clock_inv_day (s : Locals) : Prop :=
  chained (day_start_time s) (day_entries s) /\
  chain_end (day_start_time s) (day_entries s) = current_time s.

(** The invariant of the day loop for the timestamps. *)
Definition clock_inv (t0 : datetime) (s : Locals) : Prop :=
  days_chained t0 (daily_logs s) /\
  days_end t0 (daily_logs s) = current_time s.

(** ** Day numbers, the day estimate and how days end *)

(** The days of [logs] are numbered [k], [k + 1], ... *)
Fixpoint numbered (k : Z) (logs : list DayLog.t) : Prop :=
  match logs with
  | [] => True
  | d :: logs' => DayLog.day_number d = k /\ numbered (k + 1) logs'
  end.

(** A day that is closed by the 10-hour rest. *)
Definition ends_with_rest (d : DayLog.t) : Prop :=
  exists es r, DayLog.log_entries d = es ++ [r] /\ is_rest r = true.

(** A day that is closed by the dropoff. *)
Definition ends_with_dropoff (d : DayLog.t) : Prop :=
  exists es drop, DayLog.log_entries d = es ++ [drop] /\ is_dropoff drop = true.

(** The last day is a work day closed by the dropoff; every work day
    before it is closed by the 10-hour rest. *)
Definition plan_closed (logs : list DayLog.t) : Prop :=
  exists init last,
    logs = init ++ [last] /\
    DayLog.is_restart last = false /\
    ends_with_dropoff last /\
    Forall (fun d => DayLog.is_restart d = false -> ends_with_rest d) init.

(** The invariant of the driving loop for the hours driven: what is
    driven today is taken from the remaining hours, and is at most 11. *)
Definition hours_inv (R0 : Q) (s : Locals) : Prop :=
  remaining_driving_hours s + hours_driven_today s == R0 /\
  hours_driven_today s <= MAX_DRIVING_HOURS /\
  max_drive_hours s <= MAX_DRIVING_HOURS.

(** The invariant of the day loop for the day numbers, for the hours
    driven against the number of days, and for the way days end. *)
Definition closing_inv (tdh : Q) (s : Locals) : Prop :=
  numbered 1 (daily_logs s) /\
  day_number s = (1 + Z.of_nat (List.length (daily_logs s)))%Z /\
  tdh - remaining_driving_hours s
  <= MAX_DRIVING_HOURS * qcount (List.length (daily_logs s)) /\
  (dropoff_done s = false /\
   Forall (fun d => DayLog.is_restart d = false -> ends_with_rest d)
          (daily_logs s)
   \/
   dropoff_done s = true /\ remaining_driving_hours s <= 0 /\
   plan_closed (daily_logs s)).

(** ** The 30-minute break after 8 hours of driving *)

(** The driving accumulated since the last off-duty segment, as the
    reported durations give it: a driving segment adds its duration, an
    OFF or SB segment starts afresh, an ON segment changes nothing. *)
Definition stretch_step (acc : Q) (e : LogEntry.t) : Q :=
  match LogEntry.status e with
  | D => acc + LogEntry.duration e
  | ON => acc
  | OFF | SB => 0
  end.

Definition stretch (l : list LogEntry.t) : Q := fold_left stretch_step l 0.

(** At no point of the day more than 8 hours of driving have accumulated
    since the last off-duty segment (or since the day began). *)
Definition break_rule (l : list LogEntry.t) : Prop :=
  forall n : nat, stretch (firstn n l) <= REQUIRED_BREAK_AFTER_HOURS.

(** The invariant of the driving loop for the break rule. *)
Definition break_inv (s : Locals) : Prop :=
  break_rule (day_entries s) /\
  (drive_cond s = true ->
     stretch (day_entries s) == hours_since_break s /\
     even_hours (hours_since_break s)).

(** ** Restart days *)

(** No restart day is directly followed by another restart day. *)
Fixpoint no_double_restart (logs : list DayLog.t) : Prop :=
  match logs with
  | d :: ((d' :: _) as logs') =>
      (DayLog.is_restart d = true -> DayLog.is_restart d' = false) /\
      no_double_restart logs'
  | _ => True
  end.

(** Is the last day of [logs] a restart day? *)
Definition last_is_restart (logs : list DayLog.t) : bool :=
  last (map DayLog.is_restart logs) false.

(** The invariant of the day loop for the restart days: right after a
    restart day the cycle counter is zero. *)
Definition restart_inv (s : Locals) : Prop :=
  no_double_restart (daily_logs s) /\
  (last_is_restart (daily_logs s) = true -> current_cycle s == 0).

(** The totals and the remaining times of a DayLog fit together. *)
Definition report_consistent (d : DayLog.t) : Prop :=
  0 <= DayLog.total_driving_hours d /\
  DayLog.total_driving_hours d <= DayLog.total_on_duty_hours d /\
  DayLog.remaining_drive_time d + DayLog.total_driving_hours d
  == MAX_DRIVING_HOURS /\
  DayLog.remaining_on_duty_time d + DayLog.total_on_duty_hours d
  == MAX_ON_DUTY_HOURS /\
  0 <= DayLog.remaining_drive_time d /\
  0 <= DayLog.remaining_on_duty_time d.

(** No entry has a negative duration. *)
Definition nonneg_entries (l : list LogEntry.t) : Prop :=
  Forall (fun e => 0 <= LogEntry.duration e) l.

(** ** Fuel stops in a day *)

(** The invariant of the driving loop for the fuel stops of the day:
    after a fuel stop, the miles since it are miles driven today, fewer
    than the 1000 that call for the next one. *)
Definition one_fuel_inv (s : Locals) : Prop :=
  max_drive_hours s <= MAX_DRIVING_HOURS /\
  0 <= hours_driven_today s /\
  (fuel_segments (day_entries s) = 0%nat
   \/ fuel_segments (day_entries s) = 1%nat
      /\ miles_since_fuel s <= AVG_SPEED_MPH * hours_driven_today s).

(** ** The plan drives the whole distance *)

(** The driving hours the DayLogs of a plan report, added up. *)
Definition reported_driving (logs : list DayLog.t) : Q :=
  fold_left (fun acc d => acc + DayLog.total_driving_hours d) logs 0.

(** The invariant of the driving loop for the hours reported: the
    rounded durations of the driving segments of the day are within half
    a hundredth of the hours driven, and no more is driven than is left
    to drive. *)
Definition driven_inv (s : Locals) : Prop :=
  caps_inv s /\
  0 <= remaining_driving_hours s /\
  within (1 # 200) (hours_driven_today s)
         (sum_durations is_driving (day_entries s)).

(** The invariant of the day loop for the hours reported. *)
Definition distance_inv (tdh : Q) (s : Locals) : Prop :=
  0 <= remaining_driving_hours s /\
  within (qcount (List.length (daily_logs s)) * (1 # 200))
         (tdh - remaining_driving_hours s)
         (reported_driving (daily_logs s)).

(** ** The grid of the ELD log *)

(** The hours of a grid entry lie on the 24-hour grid. *)
Definition in_grid (g : ELDLogGenerator.GridEntry) : Prop :=
  0 <= ELDLogGenerator.start_hours g /\ ELDLogGenerator.start_hours g <= 24 /\
  0 <= ELDLogGenerator.end_hours g /\ ELDLogGenerator.end_hours g <= 24.

(** The grid entries follow one another: none ends before it starts, and
    each starts at the hour at which the one before ends. *)
Fixpoint grid_chained (l : list ELDLogGenerator.GridEntry) : Prop :=
  match l with
  | [] => True
  | g :: l' =>
      ELDLogGenerator.start_hours g <= ELDLogGenerator.end_hours g /\
      match l' with
      | g' :: _ =>
          ELDLogGenerator.end_hours g == ELDLogGenerator.start_hours g'
      | [] => True
      end /\
      grid_chained l'
  end.

Definition cmd_point (c : ELDLogGenerator.PathCmd) : Q * Q :=
  match c with
  | ELDLogGenerator.M x y => (x, y)
  | ELDLogGenerator.L x y => (x, y)
  end.

Definition is_line_to (c : ELDLogGenerator.PathCmd) : Prop :=
  match c with
  | ELDLogGenerator.L _ _ => True
  | ELDLogGenerator.M _ _ => False
  end.

(** A point of the graph area: between its left and right edge, at the
    middle height of one of the four lanes. *)
Definition on_graph (p : Q * Q) : Prop :=
  ELDLogGenerator.MARGIN_LEFT <= fst p /\
  fst p <= ELDLogGenerator.MARGIN_LEFT + ELDLogGenerator.GRAPH_WIDTH /\
  (snd p == 200 \/ snd p == 300 \/ snd p == 400 \/ snd p == 500).

(** From [p] on, every command moves along one axis only. *)
Fixpoint rectilinear (p : Q * Q) (l : list ELDLogGenerator.PathCmd) : Prop :=
  match l with
  | [] => True
  | c :: l' =>
      (fst (cmd_point c) == fst p \/ snd (cmd_point c) == snd p) /\
      rectilinear (cmd_point c) l'
  end.

(** A path that starts with its only move-to, runs along the axes, and
    stays on the graph. *)
Definition status_line_ok (path : list ELDLogGenerator.PathCmd) : Prop :=
  match path with
  | ELDLogGenerator.M x y :: rest =>
      Forall is_line_to rest /\
      rectilinear (x, y) rest /\
      Forall on_graph (map cmd_point path)
  | _ => False
  end.

(** From the abscissa [x] on, the path never turns back to the left. *)
Fixpoint runs_forward (x : Q) (l : list ELDLogGenerator.PathCmd) : Prop :=
  match l with
  | [] => True
  | c :: l' => x <= fst (cmd_point c) /\ runs_forward (fst (cmd_point c)) l'
  end.

(** The abscissa of a time on the graph of the day that starts at [ds]. *)
Definition abscissa (ds t : datetime) : Q :=
  ELDLogGenerator.MARGIN_LEFT
  + ELDLogGenerator.clip_24 (ELDLogGenerator.hours_from ds t)
    * ELDLogGenerator.hour_width.

(** ** The route service *)

(** [sub] occurs in [s]. *)
Definition occurs (sub s : string) : Prop :=
  exists pre post, s = (pre ++ sub ++ post)%string.

(** The ASCII part of [str.lower]. *)
Definition ascii_lower_char (c : Ascii.ascii) : Ascii.ascii :=
  let n := Ascii.nat_of_ascii c in
  if ((65 <=? n) && (n <=? 90))%nat then Ascii.ascii_of_nat (n + 32) else c.

Fixpoint ascii_lower (s : string) : string :=
  match s with
  | EmptyString => EmptyString
  | String c s' => String (ascii_lower_char c) (ascii_lower s')
  end.

(** The segments of a route join the coordinates, each to the next. *)
Fixpoint joins (coordinates : list RouteService.Coord)
    (segments : list RouteService.Segment) : Prop :=
  match coordinates, segments with
  | [] , [] => True
  | [_], [] => True
  | start :: ((stop :: _) as rest), sg :: segments' =>
      RouteService.seg_start sg = start /\
      RouteService.seg_end sg = stop /\
      joins rest segments'
  | _, _ => False
  end.

(** ** Serializing the [datetime] objects of a response *)

(** No [datetime] object is left where [serialize_datetime_in_dict]
    looks: at the object itself, in the values of a dictionary, in the
    items of a list. *)
Fixpoint serialized (obj : Views.value) : Prop :=
  match obj with
  | Views.VDatetime _ => False
  | Views.VDict items =>
      (fix all (l : list (Views.value * Views.value)) : Prop :=
         match l with
         | [] => True
         | item :: l' => serialized (snd item) /\ all l'
         end) items
  | Views.VList items =>
      (fix all (l : list Views.value) : Prop :=
         match l with
         | [] => True
         | item :: l' => serialized item /\ all l'
         end) items
  | _ => True
  end.

(** * Properties *)

(** ** Comparisons, [min] and rounding *)

Lemma Qlt_bool_iff (x y : Q) : Qlt_bool x y = true <-> x < y.
Proof.
  unfold Qlt_bool. rewrite negb_true_iff.
  destruct (Qle_bool y x) eqn:E.
  - apply Qle_bool_iff in E. split; [discriminate | intros H; lra].
  - split; [intros _ | reflexivity].
    destruct (Qlt_le_dec x y) as [H | H]; [exact H | ].
    apply Qle_bool_iff in H. congruence.
Qed.

Lemma Qlt_bool_false (x y : Q) : Qlt_bool x y = false <-> y <= x.
Proof.
  unfold Qlt_bool. rewrite negb_false_iff. apply Qle_bool_iff.
Qed.

Lemma Qle_bool_false (x y : Q) : Qle_bool x y = false <-> y < x.
Proof.
  rewrite <- Qlt_bool_iff. unfold Qlt_bool.
  destruct (Qle_bool x y); simpl; split; congruence.
Qed.

(** Turn the boolean tests of the engine into order facts. *)
Ltac btests :=
  repeat match goal with
  | H : (_ && _)%bool = true |- _ => apply andb_true_iff in H; destruct H
  | H : (_ || _)%bool = false |- _ => apply orb_false_iff in H; destruct H
  | H : negb _ = true |- _ => apply negb_true_iff in H
  | H : negb _ = false |- _ => apply negb_false_iff in H
  | H : Qlt_bool _ _ = true |- _ => apply Qlt_bool_iff in H
  | H : Qlt_bool _ _ = false |- _ => apply Qlt_bool_false in H
  | H : Qle_bool _ _ = true |- _ => apply Qle_bool_iff in H
  | H : Qle_bool _ _ = false |- _ => apply Qle_bool_false in H
  end.

(** Split every [Qmin] of the goal and hypotheses into its two cases. *)
Ltac qmin_cases :=
  repeat match goal with
  | |- context [Qmin ?a ?b] =>
      let m := fresh "m" in let Hm := fresh "Hm" in let E := fresh "E" in
      destruct (Q.min_spec a b) as [[? Hm] | [? Hm]];
      remember (Qmin a b) as m eqn:E; clear E
  | H : context [Qmin ?a ?b] |- _ =>
      let m := fresh "m" in let Hm := fresh "Hm" in let E := fresh "E" in
      destruct (Q.min_spec a b) as [[? Hm] | [? Hm]];
      remember (Qmin a b) as m eqn:E; clear E
  end.

Ltac consts :=
  unfold MAX_DRIVING_HOURS, MAX_ON_DUTY_HOURS, REQUIRED_BREAK_AFTER_HOURS,
    REQUIRED_BREAK_DURATION, MAX_CYCLE_HOURS, RESET_OFF_DUTY_HOURS,
    RESTART_OFF_DUTY_HOURS, AVG_SPEED_MPH, FUEL_STOP_MILES,
    FUEL_STOP_DURATION, PICKUP_DURATION, DROPOFF_DURATION,
    MAX_SEGMENT_HOURS, MIN_SEGMENT_HOURS in *.

Lemma Qcompare_cases (x y : Q) :
  match Qcompare x y with Lt => x < y | Eq => x == y | Gt => y < x end.
Proof.
  destruct (Qcompare x y) eqn:C.
  - apply (proj2 (Qeq_alt x y) C).
  - apply (proj2 (Qlt_alt x y) C).
  - apply (proj2 (Qgt_alt x y) C).
Qed.

Lemma round_half_even_floor (x : Q) :
  (Qfloor x <= round_half_even x <= Qfloor x + 1)%Z.
Proof.
  unfold round_half_even.
  destruct (Qcompare (x - inject_Z (Qfloor x)) (1 # 2));
    [destruct (Z.even (Qfloor x)) | | ]; lia.
Qed.

Lemma round_half_even_mono (x y : Q) :
  x <= y -> (round_half_even x <= round_half_even y)%Z.
Proof.
  intros Hxy.
  pose proof (Qfloor_resp_le x y Hxy) as Hf.
  pose proof (round_half_even_floor x) as Hx.
  pose proof (round_half_even_floor y) as Hy.
  destruct (Z.eq_dec (Qfloor x) (Qfloor y)) as [E | NE]; [ | lia].
  unfold round_half_even. rewrite <- E.
  pose proof (Qcompare_cases (x - inject_Z (Qfloor x)) (1 # 2)) as Cx.
  pose proof (Qcompare_cases (y - inject_Z (Qfloor x)) (1 # 2)) as Cy.
  destruct (Qcompare (x - inject_Z (Qfloor x)) (1 # 2));
  destruct (Qcompare (y - inject_Z (Qfloor x)) (1 # 2));
    try (destruct (Z.even (Qfloor x))); try lia; exfalso; lra.
Qed.

#[export] Instance round_half_even_comp : Proper (Qeq ==> eq) round_half_even.
Proof.
  intros x y E. unfold round_half_even.
  rewrite (Qfloor_comp x y E).
  assert (C : Qcompare (x - inject_Z (Qfloor y)) (1 # 2)
              = Qcompare (y - inject_Z (Qfloor y)) (1 # 2))
    by (apply Qcompare_comp; [rewrite E | ]; reflexivity).
  rewrite C. reflexivity.
Qed.

Lemma round_half_even_Z (z : Z) : round_half_even (inject_Z z) = z.
Proof.
  unfold round_half_even. rewrite Qfloor_Z.
  assert (C : Qcompare (inject_Z z - inject_Z z) (1 # 2) = Lt)
    by (apply (proj1 (Qlt_alt _ _)); lra).
  rewrite C. reflexivity.
Qed.

#[export] Instance round2_comp : Proper (Qeq ==> Qeq) round2.
Proof.
  intros x y E. unfold round2.
  assert (E' : x * 100 == y * 100) by (rewrite E; reflexivity).
  rewrite (round_half_even_comp _ _ E'). reflexivity.
Qed.

Lemma round2_mono (x y : Q) : x <= y -> round2 x <= round2 y.
Proof.
  intros H. unfold round2.
  assert (H' : x * 100 <= y * 100) by lra.
  apply round_half_even_mono in H'.
  unfold Qle; simpl. lia.
Qed.

Lemma round2_is_cent (x : Q) : is_cent (round2 x).
Proof. exists (round_half_even (x * 100)). reflexivity. Qed.

Lemma round2_cent (x : Q) : is_cent x -> round2 x == x.
Proof.
  intros [z Hz]. rewrite Hz. unfold round2.
  assert (E : (z # 100) * 100 == inject_Z z)
    by (unfold Qeq; simpl; lia).
  rewrite (round_half_even_comp _ _ E), round_half_even_Z. reflexivity.
Qed.

Lemma is_cent_Z (z : Z) : is_cent (inject_Z z).
Proof. exists (z * 100)%Z. unfold Qeq; simpl; lia. Qed.

Lemma is_cent_plus (x y : Q) : is_cent x -> is_cent y -> is_cent (x + y).
Proof.
  intros [a Ha] [b Hb]. exists (a + b)%Z. rewrite Ha, Hb.
  unfold Qeq; simpl; lia.
Qed.

Lemma is_cent_eq (x y : Q) : x == y -> is_cent x -> is_cent y.
Proof. intros E [z Hz]. exists z. rewrite <- E. exact Hz. Qed.

Lemma round2_Z (z : Z) : round2 (inject_Z z) == inject_Z z.
Proof. apply round2_cent, is_cent_Z. Qed.

Lemma round2_half : round2 (1 # 2) == 1 # 2.
Proof. reflexivity. Qed.

Lemma round2_one : round2 1 == 1.
Proof. reflexivity. Qed.

Lemma round2_two : round2 2 == 2.
Proof. reflexivity. Qed.

Lemma round2_eleven : round2 11 == 11.
Proof. reflexivity. Qed.

(** Rounding moves a number by at most half a unit. *)
Lemma round_half_even_close (x : Q) :
  within (1 # 2) x (inject_Z (round_half_even x)).
Proof.
  pose proof (Qfloor_le x) as Hlo.
  pose proof (Qlt_floor x) as Hhi.
  rewrite inject_Z_plus in Hhi.
  unfold within, round_half_even.
  pose proof (Qcompare_cases (x - inject_Z (Qfloor x)) (1 # 2)) as C.
  destruct (Qcompare (x - inject_Z (Qfloor x)) (1 # 2));
    [destruct (Z.even (Qfloor x)) | | ];
    rewrite ?inject_Z_plus; change (inject_Z 1) with 1 in *; split; lra.
Qed.

Lemma round2_close (x : Q) : within (1 # 200) x (round2 x).
Proof.
  destruct (round_half_even_close (x * 100)) as [H1 H2].
  assert (E : round2 x == inject_Z (round_half_even (x * 100)) / 100).
  { unfold round2. rewrite (Qmake_Qdiv _ 100). reflexivity. }
  unfold within. rewrite E. split.
  - apply Qle_shift_div_l; lra.
  - apply Qle_shift_div_r; lra.
Qed.

Lemma ceiling_drop (x y : Q) :
  y <= x - 1 -> 0 < x -> (Z.to_nat (Qceiling y) < Z.to_nat (Qceiling x))%nat.
Proof.
  intros Hy Hx.
  pose proof (Qceiling_lt y) as H1. pose proof (Qle_ceiling x) as H2.
  assert (H3 : inject_Z (Qceiling y - 1) < inject_Z (Qceiling x - 1)).
  { unfold Z.sub in *. rewrite inject_Z_plus in H1. rewrite !inject_Z_plus.
    rewrite inject_Z_opp in *. change (inject_Z 1) with 1 in *. lra. }
  rewrite <- Zlt_Qlt in H3.
  assert (H4 : inject_Z 0 < inject_Z (Qceiling x))
    by (change (inject_Z 0) with 0; lra).
  rewrite <- Zlt_Qlt in H4. lia.
Qed.

(** ** Reasoning principles for the two loops *)

(** A loop invariant [I] of the driving loop gives [P] at its exit. *)
Lemma drive_loop_inv (I : Locals -> Prop) (P : Locals -> LoopExit -> Prop) :
  (forall s, I s -> drive_cond s = false -> P s CondFalse) ->
  (forall s s', I s -> drive_cond s = true ->
                drive_body s = (s', None) -> I s') ->
  (forall s s' e, I s -> drive_cond s = true ->
                  drive_body s = (s', Some e) -> P s' e) ->
  forall fuel s r e, I s -> drive_loop fuel s = Some (r, e) -> P r e.
Proof.
  intros Hexit Hstep Hbreak.
  induction fuel as [ | fuel IH]; intros s r e Hs Hrun; simpl in Hrun.
  - discriminate.
  - destruct (drive_cond s) eqn:Hc.
    + destruct (drive_body s) as [s' [x | ]] eqn:Hb.
      * inversion Hrun; subst. eapply Hbreak; eauto.
      * eapply IH; [ | exact Hrun]. eapply Hstep; eauto.
    + inversion Hrun; subst. apply Hexit; assumption.
Qed.

Lemma drive_body_case (s : Locals) : body_case s (drive_body s).
Proof.
  unfold drive_body.
  destruct (Qle_bool REQUIRED_BREAK_AFTER_HOURS (hours_since_break s)) eqn:Hb.
  { btests. now apply case_break. }
  destruct (Qle_bool FUEL_STOP_MILES (miles_since_fuel s)
            && Qlt_bool 0 (remaining_miles s)) eqn:Hf.
  { btests. now apply case_fuel. }
  destruct (Qlt_bool (drive_duration s) MIN_SEGMENT_HOURS) eqn:He.
  { btests. now apply case_epsilon. }
  destruct (Qle_bool (remaining_driving_hours (drive s)) 0
            && negb (dropoff_done (drive s))) eqn:Hd.
  - btests. now apply case_dropoff.
  - btests. apply case_drive; try assumption.
    apply andb_false_iff in Hd. destruct Hd as [Hd | Hd]; btests.
    + now left.
    + right. exact Hd.
Qed.

Lemma drive_cond_true (s : Locals) :
  drive_cond s = true <->
  hours_driven_today s < max_drive_hours s /\
  hours_on_duty_today s < max_on_duty_hours s /\
  0 < remaining_driving_hours s.
Proof.
  unfold drive_cond. rewrite !andb_true_iff, !Qlt_bool_iff. tauto.
Qed.

(** The length of a driving segment is below each of its five bounds,
    and is one of them. *)
Lemma drive_duration_bounds (s : Locals) :
  drive_duration s <= REQUIRED_BREAK_AFTER_HOURS - hours_since_break s /\
  drive_duration s <= max_drive_hours s - hours_driven_today s /\
  drive_duration s <= max_on_duty_hours s - hours_on_duty_today s /\
  drive_duration s <= remaining_driving_hours s /\
  drive_duration s <= MAX_SEGMENT_HOURS.
Proof.
  unfold drive_duration, min5. cbv zeta. qmin_cases; repeat split; lra.
Qed.

Lemma drive_duration_attained (s : Locals) :
  drive_duration s == REQUIRED_BREAK_AFTER_HOURS - hours_since_break s \/
  drive_duration s == max_drive_hours s - hours_driven_today s \/
  drive_duration s == max_on_duty_hours s - hours_on_duty_today s \/
  drive_duration s == remaining_driving_hours s \/
  drive_duration s == MAX_SEGMENT_HOURS.
Proof.
  unfold drive_duration, min5. cbv zeta. qmin_cases; lra.
Qed.

(** An invariant of the day loop holds of the final locals. *)
Lemma day_loop_inv (I : Locals -> Prop) (n : nat) (tdh : Q) :
  (forall s, I s -> day_cond s = true -> needs_restart s = true ->
             I (restart_day s)) ->
  (forall s s' e, I s -> day_cond s = true -> needs_restart s = false ->
                  work_day n tdh s = Some (s', e) -> I s') ->
  forall fuel s r, I s -> day_loop n fuel tdh s = Some r -> I r.
Proof.
  intros Hrestart Hwork.
  induction fuel as [ | fuel IH]; intros s r Hs Hrun; simpl in Hrun.
  - discriminate.
  - destruct (day_cond s) eqn:Hc.
    + destruct (needs_restart s) eqn:Hr.
      * eapply IH; [ | exact Hrun]. now apply Hrestart.
      * destruct (work_day n tdh s) as [[s' e] | ] eqn:Hw; [ | discriminate].
        assert (Hs' : I s') by (eapply Hwork; eauto).
        destruct (trip_done s'); [inversion Hrun; subst; exact Hs' | ].
        eapply IH; eauto.
    + inversion Hrun; subst. exact Hs.
Qed.

(** When the day loop is left, the dropoff has been done. *)
Lemma day_loop_exit (n fuel : nat) (tdh : Q) (s r : Locals) :
  day_loop n fuel tdh s = Some r -> dropoff_done r = true.
Proof.
  revert s. induction fuel as [ | fuel IH]; intros s Hrun; simpl in Hrun.
  - discriminate.
  - destruct (day_cond s) eqn:Hc.
    + destruct (needs_restart s); [eapply IH; eauto | ].
      destruct (work_day n tdh s) as [[s' e] | ]; [ | discriminate].
      destruct (trip_done s') eqn:Ht; [ | eapply IH; eauto].
      inversion Hrun; subst. unfold trip_done in Ht. btests. assumption.
    + inversion Hrun; subst. unfold day_cond in Hc. btests. assumption.
Qed.

(** What a completed work day appends. *)
Lemma work_day_log (n : nat) (tdh : Q) (s s' : Locals) (e : LoopExit) :
  work_day n tdh s = Some (s', e) ->
  exists r, drive_loop n (do_pickup (start_day s)) = Some (r, e) /\
            s' = close_day (end_of_day_rest tdh r).
Proof.
  unfold work_day. destruct (drive_loop n (do_pickup (start_day s)))
    as [[r x] | ]; [ | discriminate].
  intros H. inversion H; subst. exists r. split; reflexivity.
Qed.

Lemma calculate_trip_some (fuel : nat) (now : datetime) (miles c : Q)
    (plan : TripPlan.t) :
  calculate_trip fuel now miles c = Some plan ->
  exists s,
    run_schedule fuel now miles (miles / AVG_SPEED_MPH) c = Some s /\
    TripPlan.daily_logs plan = daily_logs s /\
    TripPlan.num_fuel_stops plan = Qfloor (miles / FUEL_STOP_MILES) /\
    TripPlan.cycle_used_after plan
    = _calculate_final_cycle_usage c (daily_logs s).
Proof.
  unfold calculate_trip, _generate_daily_schedule.
  destruct (run_schedule _ _ _ _ _) as [s | ]; [ | discriminate].
  cbn [option_map]. intros H. exists s.
  assert (E := f_equal (fun o => match o with Some p => p | None => plan end) H).
  cbv beta iota in E. subst plan. repeat split.
Qed.

(** ** What the steps leave unchanged *)

Section Frames.
Variable s : Locals.
Variable tdh : Q.

Lemma pickup_dropoff_done : dropoff_done (do_pickup s) = dropoff_done s.
Proof. unfold do_pickup. now destruct (pickup_done s). Qed.
Lemma pickup_remaining_hours :
    remaining_driving_hours (do_pickup s) = remaining_driving_hours s.
Proof. unfold do_pickup. now destruct (pickup_done s). Qed.
Lemma pickup_remaining_miles :
    remaining_miles (do_pickup s) = remaining_miles s.
Proof. unfold do_pickup. now destruct (pickup_done s). Qed.
Lemma pickup_miles_since_fuel :
    miles_since_fuel (do_pickup s) = miles_since_fuel s.
Proof. unfold do_pickup. now destruct (pickup_done s). Qed.
Lemma pickup_current_cycle : current_cycle (do_pickup s) = current_cycle s.
Proof. unfold do_pickup. now destruct (pickup_done s). Qed.
Lemma pickup_daily_logs : daily_logs (do_pickup s) = daily_logs s.
Proof. unfold do_pickup. now destruct (pickup_done s). Qed.
Lemma pickup_max_drive : max_drive_hours (do_pickup s) = max_drive_hours s.
Proof. unfold do_pickup. now destruct (pickup_done s). Qed.
Lemma pickup_max_on_duty :
    max_on_duty_hours (do_pickup s) = max_on_duty_hours s.
Proof. unfold do_pickup. now destruct (pickup_done s). Qed.
Lemma pickup_hours_driven :
    hours_driven_today (do_pickup s) = hours_driven_today s.
Proof. unfold do_pickup. now destruct (pickup_done s). Qed.
Lemma pickup_hours_since_break :
    hours_since_break (do_pickup s) = hours_since_break s.
Proof. unfold do_pickup. now destruct (pickup_done s). Qed.
Lemma pickup_pickup_done : pickup_done (do_pickup s) = true.
Proof. unfold do_pickup. now destruct (pickup_done s) eqn:E. Qed.

Lemma rest_dropoff_done :
    dropoff_done (end_of_day_rest tdh s) = dropoff_done s.
Proof. unfold end_of_day_rest. now destruct (_ || _). Qed.
Lemma rest_pickup_done :
    pickup_done (end_of_day_rest tdh s) = pickup_done s.
Proof. unfold end_of_day_rest. now destruct (_ || _). Qed.
Lemma rest_remaining_hours :
    remaining_driving_hours (end_of_day_rest tdh s)
    = remaining_driving_hours s.
Proof. unfold end_of_day_rest. now destruct (_ || _). Qed.
Lemma rest_remaining_miles :
    remaining_miles (end_of_day_rest tdh s) = remaining_miles s.
Proof. unfold end_of_day_rest. now destruct (_ || _). Qed.
Lemma rest_miles_since_fuel :
    miles_since_fuel (end_of_day_rest tdh s) = miles_since_fuel s.
Proof. unfold end_of_day_rest. now destruct (_ || _). Qed.
Lemma rest_current_cycle :
    current_cycle (end_of_day_rest tdh s) = current_cycle s.
Proof. unfold end_of_day_rest. now destruct (_ || _). Qed.
Lemma rest_daily_logs : daily_logs (end_of_day_rest tdh s) = daily_logs s.
Proof. unfold end_of_day_rest. now destruct (_ || _). Qed.
End Frames.

Create Rewrite HintDb frame.
#[export] Hint Rewrite
  pickup_dropoff_done pickup_remaining_hours pickup_remaining_miles
  pickup_miles_since_fuel pickup_current_cycle pickup_daily_logs
  pickup_max_drive pickup_max_on_duty pickup_hours_driven
  pickup_hours_since_break pickup_pickup_done
  rest_dropoff_done rest_pickup_done rest_remaining_hours
  rest_remaining_miles rest_miles_since_fuel rest_current_cycle
  rest_daily_logs : frame.

(** Reduce the projections of a record built by one of the steps. *)
Ltac proj :=
  cbn [daily_logs remaining_miles remaining_driving_hours miles_since_fuel
       current_cycle day_number current_time pickup_done dropoff_done
       day_start_time day_entries max_drive_hours max_on_duty_hours
       hours_driven_today hours_on_duty_today hours_since_break
       LogEntry.status LogEntry.duration LogEntry.notes
       LogEntry.start_time LogEntry.end_time] in *.

Lemma drive_loop_frame (fuel : nat) (s0 r : Locals) (e : LoopExit) :
  drive_loop fuel s0 = Some (r, e) -> same_day_frame s0 r.
Proof.
  apply (drive_loop_inv (same_day_frame s0) (fun r _ => same_day_frame s0 r)).
  - auto.
  - intros s s' Hs _ Hb. pose proof (drive_body_case s) as C.
    rewrite Hb in C. inversion C; subst; exact Hs.
  - intros s s' x Hs _ Hb. pose proof (drive_body_case s) as C.
    rewrite Hb in C. inversion C; subst; exact Hs.
  - repeat split.
Qed.

(** ** Lists of entries *)

Lemma sum_durations_snoc (sel : LogEntry.t -> bool) (l : list LogEntry.t)
    (e : LogEntry.t) :
  sum_durations sel (l ++ [e])
  = if sel e then sum_durations sel l + LogEntry.duration e
    else sum_durations sel l.
Proof. unfold sum_durations. rewrite fold_left_app. reflexivity. Qed.

(** Evaluate the sums of a day whose last entries were just appended. *)
Ltac sums :=
  repeat rewrite sum_durations_snoc in *;
  unfold _create_log_entry, is_driving, is_on_duty, is_off_duty in *;
  cbn [LogEntry.status LogEntry.duration DutyStatus_eqb orb] in *.

Lemma all_entries_snoc (logs : list DayLog.t) (d : DayLog.t) :
  all_entries (logs ++ [d]) = all_entries logs ++ DayLog.log_entries d.
Proof.
  unfold all_entries. rewrite flat_map_app. simpl. now rewrite app_nil_r.
Qed.

Lemma count_entries_app (sel : LogEntry.t -> bool) (l1 l2 : list LogEntry.t) :
  count_entries sel (l1 ++ l2)
  = (count_entries sel l1 + count_entries sel l2)%nat.
Proof. unfold count_entries. now rewrite filter_app, length_app. Qed.

Lemma count_entries_cons (sel : LogEntry.t -> bool) (e : LogEntry.t)
    (l : list LogEntry.t) :
  count_entries sel (e :: l)
  = ((if sel e then 1 else 0) + count_entries sel l)%nat.
Proof. unfold count_entries. simpl. now destruct (sel e). Qed.

Lemma count_entries_nil (sel : LogEntry.t -> bool) :
  count_entries sel [] = 0%nat.
Proof. reflexivity. Qed.

Ltac counts :=
  rewrite ?all_entries_snoc, ?count_entries_app, ?count_entries_cons,
    ?count_entries_nil.

Lemma fuel_segments_snoc (l : list LogEntry.t) (e : LogEntry.t) :
  fuel_segments (l ++ [e])
  = (fuel_segments l + if is_fuel_stop e then 1 else 0)%nat.
Proof.
  unfold fuel_segments, count_entries. rewrite filter_app, length_app. simpl.
  destruct (is_fuel_stop e); reflexivity.
Qed.

Lemma fuel_segments_app (l1 l2 : list LogEntry.t) :
  fuel_segments (l1 ++ l2) = (fuel_segments l1 + fuel_segments l2)%nat.
Proof. unfold fuel_segments, count_entries. now rewrite filter_app, length_app. Qed.

(** ** The driving loop of a day always ends *)

Lemma drive_measure_decreases (s s' : Locals) :
  drive_cond s = true -> drive_body s = (s', None) ->
  (drive_measure s' < drive_measure s)%nat.
Proof.
  intros Hc Hb. apply drive_cond_true in Hc. destruct Hc as (Hc & _ & _).
  pose proof (drive_body_case s) as C. rewrite Hb in C.
  unfold drive_measure.
  inversion C as [H | H1 H2 H3 | | | H1 H2 H3]; subst; clear C.
  - unfold take_break. proj.
    apply (proj2 (Qle_bool_iff _ _)) in H. rewrite H.
    change (Qle_bool REQUIRED_BREAK_AFTER_HOURS 0) with false. cbv iota.
    destruct (Qle_bool FUEL_STOP_MILES (miles_since_fuel s)); lia.
  - unfold fuel_stop. proj.
    apply (proj2 (Qle_bool_false _ _)) in H1.
    apply (proj2 (Qle_bool_iff _ _)) in H2. rewrite H1, H2.
    change (Qle_bool FUEL_STOP_MILES 0) with false. cbv iota. lia.
  - unfold drive. proj.
    assert (D : (Z.to_nat (Qceiling (10 * (max_drive_hours s
                   - (hours_driven_today s + drive_duration s))))
                 < Z.to_nat (Qceiling (10 * (max_drive_hours s
                   - hours_driven_today s))))%nat).
    { apply ceiling_drop; consts; lra. }
    repeat match goal with |- context [if ?b then _ else _] => destruct b end;
      lia.
Qed.

Lemma drive_loop_enough (k : nat) (s : Locals) :
  (drive_measure s <= k)%nat -> exists r, drive_loop (S k) s = Some r.
Proof.
  revert s. induction k as [ | k IH]; intros s Hk; simpl;
    (destruct (drive_cond s) eqn:Hc; [ | eexists; reflexivity]);
    (destruct (drive_body s) as [s' [e | ]] eqn:Hb; [eexists; reflexivity | ]);
    pose proof (drive_measure_decreases s s' Hc Hb) as Hlt.
  - lia.
  - apply (IH s'). lia.
Qed.

(** Every work day is completed within 333 passes through its loop. *)
Lemma work_day_total (tdh : Q) (s : Locals) :
  exists r, work_day 333 tdh s = Some r.
Proof.
  unfold work_day.
  destruct (drive_loop_enough 332 (do_pickup (start_day s))) as [[r e] ->];
    [ | eexists; reflexivity].
  unfold drive_measure. autorewrite with frame. unfold start_day. proj.
  assert (H : (Z.to_nat (Qceiling (10 * (min3 MAX_DRIVING_HOURS
                 (remaining_driving_hours s)
                 (MAX_CYCLE_HOURS - current_cycle s) - 0))) <= 110)%nat).
  { assert (H1 : 10 * (min3 MAX_DRIVING_HOURS (remaining_driving_hours s)
                    (MAX_CYCLE_HOURS - current_cycle s) - 0) <= inject_Z 110).
    { change (inject_Z 110) with 110.
      unfold min3. qmin_cases; consts; lra. }
    apply Qceiling_resp_le in H1. rewrite Qceiling_Z in H1. lia. }
  change (Qle_bool REQUIRED_BREAK_AFTER_HOURS 0) with false. cbv iota.
  destruct (Qle_bool FUEL_STOP_MILES (miles_since_fuel s)); lia.
Qed.

(** ** More fuel changes nothing *)

Lemma drive_loop_more (n m : nat) (s : Locals) (r : Locals * LoopExit) :
  (n <= m)%nat -> drive_loop n s = Some r -> drive_loop m s = Some r.
Proof.
  revert m s. induction n as [ | n IH]; intros m s Hle Hrun; simpl in Hrun.
  - discriminate.
  - destruct m as [ | m]; [lia | ]. simpl.
    destruct (drive_cond s); [ | exact Hrun].
    destruct (drive_body s) as [s' [x | ]]; [exact Hrun | ].
    apply IH; [lia | exact Hrun].
Qed.

Lemma work_day_more (n m : nat) (tdh : Q) (s : Locals)
    (r : Locals * LoopExit) :
  (n <= m)%nat -> work_day n tdh s = Some r -> work_day m tdh s = Some r.
Proof.
  unfold work_day. intros Hle.
  destruct (drive_loop n (do_pickup (start_day s))) as [[s' e] | ] eqn:E;
    [ | discriminate].
  rewrite (drive_loop_more _ _ _ _ Hle E). auto.
Qed.

Lemma day_loop_more (n m fuel fuel' : nat) (tdh : Q) (s r : Locals) :
  (n <= m)%nat -> (fuel <= fuel')%nat ->
  day_loop n fuel tdh s = Some r -> day_loop m fuel' tdh s = Some r.
Proof.
  intros Hn. revert fuel' s.
  induction fuel as [ | fuel IH]; intros fuel' s Hle Hrun; simpl in Hrun.
  - discriminate.
  - destruct fuel' as [ | fuel']; [lia | ]. simpl.
    destruct (day_cond s); [ | exact Hrun].
    destruct (needs_restart s); [apply IH; [lia | exact Hrun] | ].
    destruct (work_day n tdh s) as [[s' e] | ] eqn:E; [ | discriminate].
    rewrite (work_day_more _ _ _ _ _ Hn E).
    destruct (trip_done s'); [exact Hrun | ].
    apply IH; [lia | exact Hrun].
Qed.

Lemma calculate_trip_more (fuel fuel' : nat) (now : datetime) (miles c : Q)
    (plan : TripPlan.t) :
  (fuel <= fuel')%nat ->
  calculate_trip fuel now miles c = Some plan ->
  calculate_trip fuel' now miles c = Some plan.
Proof.
  intros Hle. unfold calculate_trip, _generate_daily_schedule, run_schedule.
  destruct (day_loop fuel fuel _ _) as [s | ] eqn:E; [ | discriminate].
  rewrite (day_loop_more _ _ _ _ _ _ _ Hle Hle E). auto.
Qed.

(** A plan shape computed with some fuel is the plan shape with more. *)
Lemma plan_shape_more (fuel fuel' : nat) (now : datetime) (miles c : Q)
    (sh : list (bool * list (DutyStatus * Q * string))) :
  (fuel <= fuel')%nat ->
  option_map plan_shape (calculate_trip fuel now miles c) = Some sh ->
  option_map plan_shape (calculate_trip fuel' now miles c) = Some sh.
Proof.
  intros Hle. destruct (calculate_trip fuel now miles c) as [p | ] eqn:E;
    [ | discriminate].
  now rewrite (calculate_trip_more _ _ _ _ _ _ Hle E).
Qed.

(** ** C1: trips the day loop never finishes *)

(** While no driving hours remain, the driving loop of a day is not
    entered: the day consists of what came before the loop. *)
Lemma no_hours_no_driving (n : nat) (s : Locals) :
  remaining_driving_hours s <= 0 ->
  drive_loop (S n) (do_pickup (start_day s))
  = Some (do_pickup (start_day s), CondFalse).
Proof.
  intros Hrem. simpl.
  assert (Hc : drive_cond (do_pickup (start_day s)) = false).
  { unfold drive_cond.
    assert (Hl : Qlt_bool 0 (remaining_driving_hours (do_pickup (start_day s)))
                 = false).
    { apply Qlt_bool_false. autorewrite with frame. exact Hrem. }
    rewrite Hl. apply andb_false_r. }
  rewrite Hc. reflexivity.
Qed.

Lemma day_loop_stuck (n fuel : nat) (tdh : Q) (s : Locals) :
  remaining_driving_hours s <= 0 ->
  dropoff_done s = false ->
  day_loop n fuel tdh s = None.
Proof.
  revert s. induction fuel as [ | fuel IH]; intros s Hrem Hdrop; simpl.
  - reflexivity.
  - unfold day_cond. rewrite Hdrop, orb_true_r.
    destruct (needs_restart s).
    + apply IH; simpl; assumption.
    + unfold work_day. destruct n as [ | n]; [reflexivity | ].
      rewrite no_hours_no_driving by exact Hrem.
      set (s1 := close_day (end_of_day_rest tdh (do_pickup (start_day s)))).
      assert (Hd1 : dropoff_done s1 = false).
      { unfold s1. simpl. autorewrite with frame. exact Hdrop. }
      assert (Hr1 : remaining_driving_hours s1 <= 0).
      { unfold s1. simpl. autorewrite with frame. exact Hrem. }
      unfold trip_done. rewrite Hd1. simpl. apply IH; assumption.
Qed.

(** C1 (the code at the failing input).  With [total_miles = 0] the day
    loop of [calculate_trip] never reaches its exit: whatever the fuel,
    the clock reading and the cycle hours already used, no plan is
    returned. *)
Theorem zero_miles_never_returns (fuel : nat) (now : datetime) (c : Q) :
  calculate_trip fuel now 0 c = None.
Proof.
  unfold calculate_trip, _generate_daily_schedule, run_schedule.
  rewrite day_loop_stuck; [reflexivity | | reflexivity].
  simpl. unfold Qle; simpl. lia.
Qed.

(** With less than 0.1 driving hours left, the driving loop of a day
    leaves its locals as they were. *)
Lemma short_day_no_driving (n : nat) (s : Locals) :
  remaining_driving_hours s < MIN_SEGMENT_HOURS ->
  miles_since_fuel s < FUEL_STOP_MILES ->
  hours_since_break s < REQUIRED_BREAK_AFTER_HOURS ->
  drive_loop n s = None \/ exists e, drive_loop n s = Some (s, e).
Proof.
  intros Hrem Hfuel Hbrk. destruct n as [ | n]; [now left | right]. simpl.
  destruct (drive_cond s); [ | now exists CondFalse].
  pose proof (drive_body_case s) as C.
  pose proof (drive_duration_bounds s) as (_ & _ & _ & B & _).
  inversion C as [H | H1 H2 | H1 H2 | H1 H2 | H1 H2];
    try (exfalso; lra).
  now exists EpsilonBreak.
Qed.

Lemma day_loop_stuck_short (n fuel : nat) (tdh : Q) (s : Locals) :
  0 < remaining_driving_hours s ->
  remaining_driving_hours s < MIN_SEGMENT_HOURS ->
  miles_since_fuel s < FUEL_STOP_MILES ->
  dropoff_done s = false ->
  day_loop n fuel tdh s = None.
Proof.
  revert s. induction fuel as [ | fuel IH]; intros s H0 Hrem Hfuel Hdrop;
    simpl; [reflexivity | ].
  unfold day_cond. rewrite Hdrop, orb_true_r.
  destruct (needs_restart s); [now apply IH | ].
  unfold work_day.
  assert (A1 : remaining_driving_hours (do_pickup (start_day s))
               < MIN_SEGMENT_HOURS)
    by (autorewrite with frame; exact Hrem).
  assert (A2 : miles_since_fuel (do_pickup (start_day s)) < FUEL_STOP_MILES)
    by (autorewrite with frame; exact Hfuel).
  assert (A3 : hours_since_break (do_pickup (start_day s))
               < REQUIRED_BREAK_AFTER_HOURS)
    by (autorewrite with frame; unfold start_day; proj; consts; lra).
  destruct (short_day_no_driving n _ A1 A2 A3) as [-> | [e ->]];
    [reflexivity | ].
  set (s1 := close_day (end_of_day_rest tdh (do_pickup (start_day s)))).
  assert (Hd1 : dropoff_done s1 = false)
    by (unfold s1, close_day; proj; autorewrite with frame; exact Hdrop).
  unfold trip_done. rewrite Hd1. cbn [andb].
  apply IH; unfold s1, close_day; proj; autorewrite with frame; assumption.
Qed.

(** A trip of less than 6 miles has less than 0.1 driving hours, which
    the guard of line 226 never lets the engine drive: no plan is
    returned either. *)
Lemma short_trip_never_returns (fuel : nat) (now : datetime) (miles c : Q) :
  0 < miles -> miles < 6 -> calculate_trip fuel now miles c = None.
Proof.
  intros H0 H6.
  unfold calculate_trip, _generate_daily_schedule, run_schedule.
  rewrite day_loop_stuck_short; [reflexivity | | | | reflexivity];
    unfold initial_locals; proj; consts.
  - apply Qlt_shift_div_l; lra.
  - apply Qlt_shift_div_r; lra.
  - lra.
Qed.

(** ** C2: day 1 of a trip of zero miles *)

(** C2 (the code at the failing input).  With [total_miles = 0] and at
    most 69 cycle hours used, the first iteration of the day loop builds
    a work day whose driving loop is never entered: the day holds the
    pickup and the 10-hour rest, no dropoff, and the day loop goes on. *)
Theorem zero_miles_first_day (n : nat) (now : datetime) (c : Q) :
  c <= 69 ->
  let s0 := initial_locals now 0 (0 / AVG_SPEED_MPH) c in
  needs_restart s0 = false /\
  exists s1,
    work_day (S n) (0 / AVG_SPEED_MPH) s0 = Some (s1, CondFalse) /\
    map day_shape (daily_logs s1)
    = [(false, [(ON, 1, NOTE_PICKUP); (SB, 10, NOTE_REST)])] /\
    dropoff_done s1 = false /\
    day_cond s1 = true.
Proof.
  intros Hc s0. split.
  - unfold needs_restart, s0, initial_locals. proj.
    apply orb_false_iff. split.
    + apply Qle_bool_false. consts. lra.
    + apply Qlt_bool_false. consts. lra.
  - unfold work_day. rewrite no_hours_no_driving
      by (unfold s0, initial_locals; proj; unfold Qle; simpl; lia).
    eexists. split; [reflexivity | ].
    split; [vm_compute; reflexivity | ]. split; reflexivity.
Qed.

Lemma zero_miles_first_day_witness :
  let s0 := initial_locals 0%Z 0 (0 / AVG_SPEED_MPH) 0 in
  needs_restart s0 = false /\
  exists s1,
    work_day 1 (0 / AVG_SPEED_MPH) s0 = Some (s1, CondFalse) /\
    map day_shape (daily_logs s1)
    = [(false, [(ON, 1, NOTE_PICKUP); (SB, 10, NOTE_REST)])] /\
    dropoff_done s1 = false /\
    day_cond s1 = true.
Proof.
  apply (zero_miles_first_day 0 0%Z 0). unfold Qle; simpl; lia.
Defined.

(** ** C3: the daily caps *)

(** A driving segment after which the loop goes on is exactly 2 hours. *)
Lemma continued_segment_is_two (s : Locals) :
  drive_cond (drive s) = true ->
  hours_since_break s < REQUIRED_BREAK_AFTER_HOURS ->
  even_hours (hours_since_break s) ->
  drive_duration s == 2 /\ even_hours (hours_since_break (drive s)).
Proof.
  intros Hc Hb Hev. apply drive_cond_true in Hc. unfold drive in Hc. proj.
  destruct Hc as (H1 & H2 & H3).
  pose proof (drive_duration_bounds s) as (B1 & B2 & B3 & B4 & B5).
  assert (E : drive_duration s == 2).
  { destruct (drive_duration_attained s) as [A | [A | [A | [A | A]]]];
      consts; unfold even_hours in Hev;
      destruct Hev as [Hev | [Hev | [Hev | [Hev | Hev]]]]; lra. }
  split; [exact E | ].
  unfold drive. proj. unfold even_hours in *. consts.
  destruct Hev as [Hev | [Hev | [Hev | [Hev | Hev]]]]; lra.
Qed.

Lemma caps_inv_step (s s' : Locals) :
  caps_inv s -> drive_cond s = true -> drive_body s = (s', None) ->
  caps_inv s'.
Proof.
  intros (Hmax & Hdrv & HsD & Hon & Hrun) Hc Hb.
  destruct (Hrun Hc) as (Hsum & [k Hk] & Hev).
  pose proof (drive_body_case s) as C. rewrite Hb in C.
  inversion C; subst; clear C.
  - (* break *)
    unfold caps_inv, take_break. proj. sums.
    split; [exact Hmax | ]. split; [exact Hdrv | ]. split; [exact HsD | ].
    split; [exact Hon | ].
    intros _. split; [exact Hsum | ]. split; [exists k; exact Hk | ].
    left. reflexivity.
  - (* fuel *)
    apply drive_cond_true in Hc. destruct Hc as (Hc1 & Hc2 & Hc3).
    unfold caps_inv, fuel_stop. proj. sums.
    split; [exact Hmax | ]. split; [exact Hdrv | ]. split; [exact HsD | ].
    split.
    + right. rewrite round2_half. consts. destruct Hon as [Hon | [_ Hon]]; lra.
    + intros Hc'. split; [exact Hsum | ]. split; [exists k; exact Hk | exact Hev].
  - (* drive *)
    pose proof (drive_duration_bounds s) as (B1 & B2 & B3 & B4 & B5).
    apply drive_cond_true in Hc. destruct Hc as (Hc1 & Hc2 & Hc3).
    assert (Hr : round2 (drive_duration s) <= 11 - hours_driven_today s).
    { rewrite Hk.
      assert (E : 11 - inject_Z k == inject_Z (11 - k))
        by (unfold Zminus; rewrite inject_Z_plus, inject_Z_opp; reflexivity).
      rewrite E, <- round2_Z. apply round2_mono. rewrite <- E, <- Hk.
      consts. lra. }
    unfold caps_inv. split; [exact Hmax | ].
    split; [unfold drive; proj; consts; lra | ].
    split; [unfold drive; proj; sums; consts; lra | ].
    split.
    + unfold drive; proj; sums; consts.
      destruct Hon as [Hon | [Hon1 Hon2]]; [left; lra | right; split; lra].
    + intros Hc'.
      destruct (continued_segment_is_two s Hc' ltac:(assumption) Hev) as [E Hev'].
      split; [ | split; [ | exact Hev']].
      * unfold drive; proj; sums. rewrite E at 1. rewrite round2_two. lra.
      * exists (k + 2)%Z. unfold drive; proj. rewrite inject_Z_plus, <- Hk, E.
        reflexivity.
Qed.

Lemma caps_inv_exit (s : Locals) : caps_inv s -> caps_post s.
Proof.
  intros (Hmax & Hdrv & HsD & Hon & Hrun). split; [exact HsD | ].
  destruct Hon as [Hon | [Hon _]]; lra.
Qed.

Lemma caps_inv_break (s s' : Locals) (e : LoopExit) :
  caps_inv s -> drive_cond s = true -> drive_body s = (s', Some e) ->
  caps_post s'.
Proof.
  intros Hs Hc Hb.
  pose proof (drive_body_case s) as C. rewrite Hb in C.
  inversion C; subst; clear C.
  - now apply caps_inv_exit.
  - destruct Hs as (Hmax & Hdrv & HsD & Hon & Hrun).
    destruct (Hrun Hc) as (Hsum & [k Hk] & Hev).
    pose proof (drive_duration_bounds s) as (B1 & B2 & B3 & B4 & B5).
    assert (Hr : round2 (drive_duration s) <= 11 - hours_driven_today s).
    { rewrite Hk.
      assert (E : 11 - inject_Z k == inject_Z (11 - k))
        by (unfold Zminus; rewrite inject_Z_plus, inject_Z_opp; reflexivity).
      rewrite E, <- round2_Z. apply round2_mono. rewrite <- E, <- Hk.
      consts. lra. }
    unfold caps_post, do_dropoff, drive. proj. sums. rewrite round2_one.
    consts. split; [lra | ]. destruct Hon as [Hon | [Hon _]]; lra.
Qed.

Lemma caps_inv_start (s : Locals) : caps_inv (do_pickup (start_day s)).
Proof.
  unfold caps_inv. autorewrite with frame.
  assert (Hmax : max_drive_hours (start_day s) <= MAX_DRIVING_HOURS).
  { unfold start_day. proj. unfold min3. qmin_cases; lra. }
  split; [exact Hmax | ].
  split; [unfold start_day; proj; lra | ].
  assert (Hsum : sum_durations is_driving (day_entries (do_pickup (start_day s)))
                 == 0
                 /\ sum_durations is_on_duty
                      (day_entries (do_pickup (start_day s))) <= 1).
  { unfold do_pickup. destruct (pickup_done (start_day s)).
    - unfold start_day. proj. unfold sum_durations. simpl. lra.
    - unfold start_day. proj. rewrite app_nil_l. unfold sum_durations.
      simpl. rewrite round2_one. lra. }
  destruct Hsum as [HD HO].
  split; [rewrite HD; consts; lra | ].
  split; [left; lra | ].
  intros _. unfold start_day. proj. rewrite HD.
  split; [reflexivity | ]. split; [exists 0%Z; reflexivity | ].
  left. reflexivity.
Qed.

Lemma rest_sum_on_duty (tdh : Q) (s : Locals) :
  sum_durations is_on_duty (day_entries (end_of_day_rest tdh s))
  = sum_durations is_on_duty (day_entries s).
Proof.
  unfold end_of_day_rest. destruct (_ || _); [ | reflexivity].
  proj. sums. reflexivity.
Qed.

Lemma rest_sum_driving (tdh : Q) (s : Locals) :
  sum_durations is_driving (day_entries (end_of_day_rest tdh s))
  = sum_durations is_driving (day_entries s).
Proof.
  unfold end_of_day_rest. destruct (_ || _); [ | reflexivity].
  proj. sums. reflexivity.
Qed.

Lemma work_day_within_caps (n : nat) (tdh : Q) (s s' : Locals) (e : LoopExit) :
  work_day n tdh s = Some (s', e) ->
  exists d, daily_logs s' = daily_logs s ++ [d] /\ within_caps d.
Proof.
  intros Hw. apply work_day_log in Hw. destruct Hw as (r & Hrun & ->).
  pose proof (drive_loop_frame _ _ _ _ Hrun) as (Hlogs & _).
  assert (Hpost : caps_post r).
  { revert Hrun. apply (drive_loop_inv caps_inv (fun r _ => caps_post r)).
    - intros; now apply caps_inv_exit.
    - apply caps_inv_step.
    - apply caps_inv_break.
    - apply caps_inv_start. }
  destruct Hpost as [HD HO].
  unfold close_day. proj. autorewrite with frame.
  rewrite Hlogs. autorewrite with frame.
  eexists. split; [reflexivity | ].
  unfold within_caps. cbn [DayLog.total_driving_hours DayLog.total_on_duty_hours].
  rewrite rest_sum_driving, rest_sum_on_duty. split.
  - rewrite <- round2_eleven. apply round2_mono. exact HD.
  - assert (E : round2 14 == 14) by reflexivity.
    unfold MAX_ON_DUTY_HOURS. rewrite <- E. apply round2_mono.
    unfold MAX_DRIVING_HOURS in *. lra.
Qed.

Lemma restart_within_caps (k : Z) (t : datetime) :
  within_caps (_create_restart_log k t).
Proof. split; simpl; unfold Qle; simpl; lia. Qed.

(** C3.  In every plan the engine returns, each DayLog (restart days
    included) reports at most 11 driving hours and at most 14 on-duty
    hours; the day that receives the dropoff is no exception. *)
Theorem daily_caps_respected (fuel : nat) (now : datetime) (miles c : Q)
    (plan : TripPlan.t) :
  calculate_trip fuel now miles c = Some plan ->
  Forall within_caps (TripPlan.daily_logs plan).
Proof.
  unfold calculate_trip, _generate_daily_schedule, run_schedule.
  destruct (day_loop _ _ _ _) as [r | ] eqn:Hrun; [ | discriminate].
  simpl. intros H. inversion H; subst; clear H. simpl.
  revert Hrun.
  apply (day_loop_inv (fun s => Forall within_caps (daily_logs s))).
  - intros s Hs _ _. unfold restart_day. proj.
    apply Forall_app. split; [exact Hs | ].
    constructor; [apply restart_within_caps | constructor].
  - intros s s' e Hs _ _ Hw.
    destruct (work_day_within_caps _ _ _ _ _ Hw) as (d & -> & Hd).
    apply Forall_app. split; [exact Hs | ]. constructor; [exact Hd | constructor].
  - constructor.
Qed.

Lemma daily_caps_respected_witness :
  exists plan, calculate_trip 20 0%Z 660 0 = Some plan /\
               Forall within_caps (TripPlan.daily_logs plan).
Proof.
  eexists. split; [vm_compute; reflexivity | ].
  apply (daily_caps_respected 20 0%Z 660 0). vm_compute. reflexivity.
Defined.

(** ** C4: 100 miles with 68 cycle hours used *)

(** C4 (amended).  For 100 miles with 68 cycle hours used, the plan has
    three days: a work day that spends the two available cycle hours on
    the pickup and one hour of driving, then the restart day, then the
    day that finishes the driving and drops off. *)
Theorem scenario_c_plan (fuel : nat) (now : datetime) :
  (10 <= fuel)%nat ->
  option_map plan_shape (calculate_trip fuel now 100 68)
  = Some [ (false, [ (ON, 1, NOTE_PICKUP);
                     (D, 1, "Driving - 60 miles"%string);
                     (SB, 10, NOTE_REST) ]);
           (true,  [ (OFF, 34, NOTE_RESTART) ]);
           (false, [ (D, 67 # 100, "Driving - 40 miles"%string);
                     (ON, 1, NOTE_DROPOFF) ]) ].
Proof.
  intros Hle. apply (plan_shape_more 10 fuel); [exact Hle | ].
  vm_compute. reflexivity.
Qed.

Lemma scenario_c_plan_witness :
  option_map plan_shape (calculate_trip 10 0%Z 100 68)
  = Some [ (false, [ (ON, 1, NOTE_PICKUP);
                     (D, 1, "Driving - 60 miles"%string);
                     (SB, 10, NOTE_REST) ]);
           (true,  [ (OFF, 34, NOTE_RESTART) ]);
           (false, [ (D, 67 # 100, "Driving - 40 miles"%string);
                     (ON, 1, NOTE_DROPOFF) ]) ].
Proof.
  apply (scenario_c_plan 10 0%Z). lia.
Defined.

(** C4 (as stated, refuted).  The first day emitted for 100 miles with 68
    cycle hours used is not a restart day. *)
Lemma scenario_c_first_day_is_work :
  exists plan d rest,
    calculate_trip 10 0%Z 100 68 = Some plan /\
    TripPlan.daily_logs plan = d :: rest /\
    DayLog.is_restart d = false.
Proof.
  eexists. eexists. eexists.
  split; [vm_compute; reflexivity | ].
  split; reflexivity.
Qed.

(** ** C5: where the pickup and the dropoff are *)

Lemma count_pickup_quiet (l : list LogEntry.t) :
  quiet l -> count_entries is_pickup l = 0%nat.
Proof.
  unfold count_entries. induction 1 as [ | e l [He _] _ IH]; simpl.
  - reflexivity.
  - rewrite He. exact IH.
Qed.

Lemma count_dropoff_quiet (l : list LogEntry.t) :
  quiet l -> count_entries is_dropoff l = 0%nat.
Proof.
  unfold count_entries. induction 1 as [ | e l [_ He] _ IH]; simpl.
  - reflexivity.
  - rewrite He. exact IH.
Qed.

Lemma quiet_app (l1 l2 : list LogEntry.t) :
  quiet l1 -> quiet l2 -> quiet (l1 ++ l2).
Proof. intros H1 H2. apply Forall_app. now split. Qed.

Lemma quiet_one (e : LogEntry.t) :
  is_pickup e = false -> is_dropoff e = false -> quiet [e].
Proof. intros H1 H2. constructor; [now split | constructor]. Qed.

Lemma dropoff_not_pickup (e : LogEntry.t) :
  is_dropoff e = true -> is_pickup e = false.
Proof.
  unfold is_dropoff, is_pickup. intros H. apply andb_true_iff in H.
  destruct H as [H1 H2]. apply String.eqb_eq in H2. rewrite H1, H2.
  reflexivity.
Qed.

Lemma driving_is_quiet (e : LogEntry.t) :
  is_driving e = true -> is_pickup e = false /\ is_dropoff e = false.
Proof.
  unfold is_driving, is_pickup, is_dropoff.
  destruct (LogEntry.status e); simpl; intros H; try discriminate.
  split; reflexivity.
Qed.

Lemma appending_snoc (s0 s : Locals) (l : list LogEntry.t) (e : LogEntry.t) :
  (exists mid, quiet mid /\ day_entries s = day_entries s0 ++ mid) ->
  l = day_entries s ++ [e] ->
  is_pickup e = false -> is_dropoff e = false ->
  exists mid, quiet mid /\ l = day_entries s0 ++ mid.
Proof.
  intros (mid & Hq & E) -> H1 H2. exists (mid ++ [e]). split.
  - apply quiet_app; [exact Hq | now apply quiet_one].
  - rewrite E. now rewrite app_assoc.
Qed.

Lemma drive_loop_appended (fuel : nat) (s0 r : Locals) (e : LoopExit) :
  dropoff_done s0 = false ->
  drive_loop fuel s0 = Some (r, e) -> appended s0 r e.
Proof.
  intros H0.
  apply (drive_loop_inv (appending s0) (appended s0)).
  - intros s (Hd & mid & Hq & E) _. exists mid. split; [exact Hq | ].
    left. repeat split; [discriminate | exact Hd | exact E].
  - intros s s' (Hd & Hmid) _ Hb.
    pose proof (drive_body_case s) as C. rewrite Hb in C.
    inversion C; subst; clear C; (split; [exact Hd | ]);
      eapply appending_snoc; try exact Hmid; reflexivity.
  - intros s s' x (Hd & Hmid) _ Hb.
    pose proof (drive_body_case s) as C. rewrite Hb in C.
    inversion C; subst; clear C.
    + destruct Hmid as (mid & Hq & E). exists mid. split; [exact Hq | ].
      left. repeat split; [discriminate | exact Hd | exact E].
    + destruct Hmid as (mid & Hq & E). exists mid. split; [exact Hq | ].
      right. split; [reflexivity | ]. split; [reflexivity | ].
      split; [assumption | ].
      eexists. eexists.
      split; [unfold do_dropoff, drive; proj; rewrite E;
              rewrite <- !app_assoc; reflexivity | split; reflexivity].
  - split; [exact H0 | ]. exists []. split; [constructor | ].
    now rewrite app_nil_r.
Qed.

Lemma rest_entries (tdh : Q) (s : Locals) :
  exists tail, day_entries (end_of_day_rest tdh s) = day_entries s ++ tail /\
               quiet tail /\ no_driving tail.
Proof.
  unfold end_of_day_rest. destruct (_ || _).
  - proj. eexists. split; [reflexivity | ].
    split; (constructor; [ | constructor]); [split | ]; reflexivity.
  - exists []. rewrite app_nil_r. split; [reflexivity | ].
    split; constructor.
Qed.

Lemma pickup_entries (s : Locals) :
  pickup_done s = true /\ day_entries (do_pickup (start_day s)) = []
  \/ pickup_done s = false /\
     exists p, day_entries (do_pickup (start_day s)) = [p] /\
               is_pickup p = true /\ is_dropoff p = false.
Proof.
  unfold do_pickup. change (pickup_done (start_day s)) with (pickup_done s).
  destruct (pickup_done s).
  - left. split; reflexivity.
  - right. split; [reflexivity | ]. eexists. proj.
    split; [reflexivity | split; reflexivity].
Qed.

Lemma work_day_shape (n : nat) (tdh : Q) (s s' : Locals) (e : LoopExit) :
  dropoff_done s = false ->
  work_day n tdh s = Some (s', e) ->
  exists d, daily_logs s' = daily_logs s ++ [d] /\
            DayLog.is_restart d = false /\
            pickup_done s' = true /\
            day_shape_of s s' d.
Proof.
  intros Hd Hw. apply work_day_log in Hw. destruct Hw as (r & Hrun & ->).
  pose proof (drive_loop_frame _ _ _ _ Hrun) as (Hlogs & _ & _ & Hpick & _).
  assert (Hd1 : dropoff_done (do_pickup (start_day s)) = false)
    by (autorewrite with frame; exact Hd).
  destruct (drive_loop_appended _ _ _ _ Hd1 Hrun) as (mid & Hq & Happ).
  destruct (rest_entries tdh r) as (tail & Etail & Qtail & Dtail).
  eexists. split; [ | split; [ | split]].
  - unfold close_day. proj. autorewrite with frame. rewrite Hlogs.
    autorewrite with frame. reflexivity.
  - reflexivity.
  - unfold close_day. proj. autorewrite with frame. rewrite Hpick.
    autorewrite with frame. reflexivity.
  - cbn [DayLog.log_entries].
    destruct (pickup_entries s) as [[Hp Epre] | (Hp & p & Epre & Hpp & Hpd)].
    + apply (day_shape_intro _ _ _ [] mid tail); try assumption.
      * left. now split.
      * cbn [DayLog.log_entries]. unfold close_day. proj.
        autorewrite with frame. rewrite Etail.
        destruct Happ as [(_ & Hdr & E) | (_ & Hdr & Hrem & dr & drop & E & H1 & H2)].
        -- left. split; [exact Hdr | ]. rewrite E, Epre. reflexivity.
        -- right. split; [exact Hdr | ]. split; [exact Hrem | ].
           exists dr, drop. split; [ | now split].
           rewrite E, Epre. simpl. rewrite <- app_assoc. reflexivity.
    + apply (day_shape_intro _ _ _ [p] mid tail); try assumption.
      * right. split; [exact Hp | ]. exists p. repeat split; assumption.
      * cbn [DayLog.log_entries]. unfold close_day. proj.
        autorewrite with frame. rewrite Etail.
        destruct Happ as [(_ & Hdr & E) | (_ & Hdr & Hrem & dr & drop & E & H1 & H2)].
        -- left. split; [exact Hdr | ]. rewrite E, Epre.
           rewrite <- app_assoc. reflexivity.
        -- right. split; [exact Hdr | ]. split; [exact Hrem | ].
           exists dr, drop. split; [ | now split].
           rewrite E, Epre. rewrite <- !app_assoc. reflexivity.
Qed.

Lemma restart_days_quiet (logs : list DayLog.t) :
  Forall restart_only logs ->
  quiet (all_entries logs) /\ no_driving (all_entries logs).
Proof.
  induction 1 as [ | d logs (_ & Hq & Hn) _ [IHq IHn]]; simpl.
  - split; constructor.
  - split; apply Forall_app; split; assumption.
Qed.

Lemma restart_log_only (k : Z) (t : datetime) :
  restart_only (_create_restart_log k t).
Proof.
  split; [reflexivity | ].
  split; (constructor; [ | constructor]); [split | ]; reflexivity.
Qed.

Lemma pickup_placed_snoc (logs : list DayLog.t) (d : DayLog.t) :
  pickup_placed logs -> pickup_placed (logs ++ [d]).
Proof.
  intros (rs & w & rest & e & tl & -> & H1 & H2 & H3 & H4).
  exists rs, w, (rest ++ [d]), e, tl. rewrite <- app_assoc.
  repeat split; assumption.
Qed.

Lemma plan_inv_running (s : Locals) :
  plan_inv s -> day_cond s = true ->
  dropoff_done s = false /\
  count_entries is_dropoff (all_entries (daily_logs s)) = 0%nat.
Proof.
  intros (_ & _ & [H | (Hd & _ & Hr & _)]) Hc; [exact H | ].
  unfold day_cond in Hc. rewrite Hd in Hc. simpl in Hc.
  rewrite orb_false_r in Hc. btests. lra.
Qed.

Lemma plan_inv_restart (s : Locals) :
  plan_inv s -> day_cond s = true -> plan_inv (restart_day s).
Proof.
  intros Hs Hc. destruct (plan_inv_running s Hs Hc) as [Hd Hcnt].
  destruct Hs as (H1 & H2 & _).
  pose proof (restart_log_only (day_number s) (current_time s)) as Hr.
  destruct Hr as (Hr1 & Hr2 & Hr3).
  unfold plan_inv, restart_day. proj. split; [ | split].
  - intros Hp. apply Forall_app. split; [now apply H1 | ].
    constructor; [now repeat split | constructor].
  - intros Hp. destruct (H2 Hp) as [Hpl Hc1]. split.
    + now apply pickup_placed_snoc.
    + counts. rewrite Hc1, (count_pickup_quiet _ Hr2). reflexivity.
  - left. split; [exact Hd | ].
    counts. rewrite Hcnt, (count_dropoff_quiet _ Hr2). reflexivity.
Qed.

Lemma plan_inv_work (n : nat) (tdh : Q) (s s' : Locals) (e : LoopExit) :
  plan_inv s -> day_cond s = true ->
  work_day n tdh s = Some (s', e) -> plan_inv s'.
Proof.
  intros Hs Hc Hw. destruct (plan_inv_running s Hs Hc) as [Hd Hcnt].
  destruct Hs as (H1 & H2 & _).
  destruct (work_day_shape _ _ _ _ _ Hd Hw) as (d & Hlogs & Hres & Hpick & Hsh).
  destruct Hsh as [pre mid tail Hpre Qmid Qtail Dtail Hent].
  assert (Hpre' : count_entries is_dropoff pre = 0%nat).
  { destruct Hpre as [[_ ->] | (_ & p & -> & _ & Hp)]; [reflexivity | ].
    counts. now rewrite Hp. }
  unfold plan_inv. rewrite Hlogs, Hpick. split; [discriminate | ]. split.
  - intros _.
    assert (Hd_pick : count_entries is_pickup (mid ++ tail) = 0%nat
              /\ forall dr drop, is_driving dr = true -> is_dropoff drop = true ->
                 count_entries is_pickup (mid ++ dr :: drop :: tail) = 0%nat).
    { split; [ | intros dr drop Hdr Hdrop]; counts;
        rewrite ?(count_pickup_quiet _ Qmid), ?(count_pickup_quiet _ Qtail);
        [reflexivity | ].
      destruct (driving_is_quiet _ Hdr) as [-> _].
      now rewrite (dropoff_not_pickup _ Hdrop). }
    destruct Hd_pick as [Hc0 Hc0'].
    assert (Hent_pick : count_entries is_pickup (DayLog.log_entries d)
                        = count_entries is_pickup pre).
    { destruct Hent as [(_ & ->) | (_ & _ & dr & drop & -> & Hdr & Hdrop)];
        rewrite count_entries_app; [rewrite Hc0 | rewrite (Hc0' _ _ Hdr Hdrop)];
        apply Nat.add_0_r. }
    destruct Hpre as [[Hp ->] | (Hp & p & -> & Hpp & _)].
    + destruct (H2 Hp) as [Hpl Hc1]. split.
      * now apply pickup_placed_snoc.
      * counts. rewrite Hc1, Hent_pick. reflexivity.
    + pose proof (H1 Hp) as Hrs.
      destruct (restart_days_quiet _ Hrs) as [Hq _]. split.
      * assert (Htl : exists tl, DayLog.log_entries d = p :: tl).
        { destruct Hent as [(_ & ->) | (_ & _ & dr & drop & -> & _)];
            eexists; reflexivity. }
        destruct Htl as [tl Htl].
        exists (daily_logs s), d, [], p, tl. repeat split; assumption.
      * counts. rewrite (count_pickup_quiet _ Hq), Hent_pick. counts.
        now rewrite Hpp.
  - destruct Hent as [(Hdd & E) | (Hdd & Hrem & dr & drop & E & Hdr & Hdrop)].
    + left. split; [exact Hdd | ]. counts. rewrite Hcnt, E. counts.
      rewrite Hpre', (count_dropoff_quiet _ Qmid), (count_dropoff_quiet _ Qtail).
      reflexivity.
    + right. split; [exact Hdd | ]. split; [reflexivity | ].
      split; [exact Hrem | ]. split.
      * exists (all_entries (daily_logs s) ++ pre ++ mid), dr, drop, tail.
        split; [ | now repeat split].
        rewrite all_entries_snoc, E. rewrite <- !app_assoc. reflexivity.
      * counts. rewrite Hcnt, E. counts.
        rewrite Hpre', (count_dropoff_quiet _ Qmid),
          (count_dropoff_quiet _ Qtail), Hdrop.
        destruct (driving_is_quiet _ Hdr) as [_ ->]. reflexivity.
Qed.

(** C5 (amended).  Every plan the engine returns has exactly one pickup
    segment, the first segment of the first day that is not a restart day
    (only restart days, which hold no driving, come before it), and
    exactly one dropoff segment, directly after a driving segment that no
    other driving segment follows. *)
Theorem pickup_and_dropoff_placed (fuel : nat) (now : datetime) (miles c : Q)
    (plan : TripPlan.t) :
  calculate_trip fuel now miles c = Some plan ->
  pickup_placed (TripPlan.daily_logs plan) /\
  count_entries is_pickup (all_entries (TripPlan.daily_logs plan)) = 1%nat /\
  dropoff_placed (TripPlan.daily_logs plan) /\
  count_entries is_dropoff (all_entries (TripPlan.daily_logs plan)) = 1%nat.
Proof.
  intros Hplan.
  destruct (calculate_trip_some _ _ _ _ _ Hplan) as (s & Hrun & -> & _).
  unfold run_schedule in Hrun.
  pose proof (day_loop_exit _ _ _ _ _ Hrun) as Hdone.
  assert (Hinv : plan_inv s).
  { revert Hrun. apply (day_loop_inv plan_inv).
    - intros s0 H0 Hc _. now apply plan_inv_restart.
    - intros s0 s' e H0 Hc _ Hw. eapply plan_inv_work; eauto.
    - unfold plan_inv, initial_locals. proj.
      split; [intros _; constructor | ]. split; [discriminate | ].
      left. split; reflexivity. }
  destruct Hinv as (_ & H2 & [[Hd _] | (_ & Hp & _ & Hpl & Hcnt)]);
    [congruence | ].
  destruct (H2 Hp) as [Hpp Hpc]. repeat split; assumption.
Qed.

Lemma pickup_and_dropoff_placed_witness :
  exists plan,
    calculate_trip 20 0%Z 60 70 = Some plan /\
    pickup_placed (TripPlan.daily_logs plan) /\
    count_entries is_pickup (all_entries (TripPlan.daily_logs plan)) = 1%nat /\
    dropoff_placed (TripPlan.daily_logs plan) /\
    count_entries is_dropoff (all_entries (TripPlan.daily_logs plan)) = 1%nat.
Proof.
  eexists. split; [vm_compute; reflexivity | ].
  apply (pickup_and_dropoff_placed 20 0%Z 60 70). vm_compute. reflexivity.
Defined.

(** C5 (as stated, refuted).  With 70 cycle hours already used, day 1 of
    the plan is the restart day; the pickup is on day 2. *)
Lemma pickup_not_on_day_one :
  exists plan d1 d2,
    calculate_trip 20 0%Z 60 70 = Some plan /\
    TripPlan.daily_logs plan = [d1; d2] /\
    DayLog.day_number d1 = 1%Z /\
    DayLog.is_restart d1 = true /\
    count_entries is_pickup (DayLog.log_entries d1) = 0%nat /\
    DayLog.day_number d2 = 2%Z /\
    count_entries is_pickup (DayLog.log_entries d2) = 1%nat.
Proof.
  eexists. eexists. eexists.
  split; [vm_compute; reflexivity | ].
  split; [reflexivity | ].
  repeat split.
Qed.

(** ** C6: the cycle counter when a restart is triggered *)

(** C6 (the code at the failing input).  For 1200 miles with 51.75 cycle
    hours used, the second work day ends with a fuel stop that takes the
    cycle counter to 70.25; the restart is triggered from there. *)
Theorem fuel_stop_overruns_cycle (now : datetime) :
  let tdh := 1200 / AVG_SPEED_MPH in
  match work_day 20 tdh (initial_locals now 1200 tdh (207 # 4)) with
  | Some (s1, _) =>
      match work_day 20 tdh s1 with
      | Some (s2, _) =>
          Some (needs_restart s1, needs_restart s2, Qred (current_cycle s2),
                Qlt_bool MAX_CYCLE_HOURS (current_cycle s2))
      | None => None
      end
  | None => None
  end = Some (false, true, 281 # 4, true)
  /\ option_map plan_shape (calculate_trip 20 now 1200 (207 # 4))
     = Some [ (false, [ (ON, 1, NOTE_PICKUP);
                        (D, 2, "Driving - 120 miles"%string);
                        (D, 2, "Driving - 120 miles"%string);
                        (D, 2, "Driving - 120 miles"%string);
                        (D, 2, "Driving - 120 miles"%string);
                        (OFF, 1 # 2, NOTE_BREAK);
                        (D, 2, "Driving - 120 miles"%string);
                        (D, 1, "Driving - 60 miles"%string);
                        (SB, 10, NOTE_REST) ]);
              (false, [ (D, 2, "Driving - 120 miles"%string);
                        (D, 2, "Driving - 120 miles"%string);
                        (D, 2, "Driving - 120 miles"%string);
                        (ON, 1 # 2, NOTE_FUEL);
                        (SB, 10, NOTE_REST) ]);
              (true,  [ (OFF, 34, NOTE_RESTART) ]);
              (false, [ (D, 2, "Driving - 120 miles"%string);
                        (D, 1, "Driving - 60 miles"%string);
                        (ON, 1, NOTE_DROPOFF) ]) ].
Proof.
  split; vm_compute; reflexivity.
Qed.

(** ** C8: the cycle usage re-derived from the logs *)

Lemma create_log_entry_cent (st : DutyStatus) (t : datetime) (d : Q)
    (note : string) :
  is_cent (LogEntry.duration (_create_log_entry st t d note)).
Proof. apply round2_is_cent. Qed.

Lemma cent_entries_snoc (l : list LogEntry.t) (e : LogEntry.t) :
  cent_entries l -> is_cent (LogEntry.duration e) -> cent_entries (l ++ [e]).
Proof.
  intros Hl He. apply Forall_app. split; [exact Hl | ].
  constructor; [exact He | constructor].
Qed.

Lemma sum_durations_cent (sel : LogEntry.t -> bool) (l : list LogEntry.t) :
  cent_entries l -> is_cent (sum_durations sel l).
Proof.
  unfold sum_durations.
  assert (G : forall acc, is_cent acc -> cent_entries l ->
            is_cent (fold_left
              (fun a e => if sel e then a + LogEntry.duration e else a) l acc)).
  { induction l as [ | e l IH]; intros acc Hacc Hl; simpl.
    - exact Hacc.
    - inversion Hl; subst. apply IH; [ | assumption].
      destruct (sel e); [apply is_cent_plus | ]; assumption. }
  intros Hl. apply G; [ | exact Hl]. exists 0%Z. reflexivity.
Qed.

Lemma drive_loop_cent (fuel : nat) (s r : Locals) (e : LoopExit) :
  cent_entries (day_entries s) ->
  drive_loop fuel s = Some (r, e) -> cent_entries (day_entries r).
Proof.
  intros Hs Hrun. revert Hrun.
  apply (drive_loop_inv (fun s => cent_entries (day_entries s))
                        (fun r _ => cent_entries (day_entries r)));
    [auto | | | exact Hs].
  - intros s1 s2 H1 _ Hb. pose proof (drive_body_case s1) as C.
    rewrite Hb in C. inversion C; subst;
      apply cent_entries_snoc; solve [assumption | apply create_log_entry_cent].
  - intros s1 s2 x H1 _ Hb. pose proof (drive_body_case s1) as C.
    rewrite Hb in C. inversion C; subst; [assumption | ].
    repeat apply cent_entries_snoc;
      solve [assumption | apply create_log_entry_cent].
Qed.

Lemma start_day_cent (s : Locals) :
  cent_entries (day_entries (do_pickup (start_day s))).
Proof.
  unfold do_pickup. destruct (pickup_done (start_day s)).
  - constructor.
  - proj. apply cent_entries_snoc; [constructor | apply create_log_entry_cent].
Qed.

Lemma rest_cent (tdh : Q) (s : Locals) :
  cent_entries (day_entries s) ->
  cent_entries (day_entries (end_of_day_rest tdh s)).
Proof.
  intros H. unfold end_of_day_rest. destruct (_ || _); [ | exact H].
  proj. apply cent_entries_snoc; [exact H | apply create_log_entry_cent].
Qed.

Lemma cycle_total_snoc (c0 : Q) (l : list DayLog.t) (d : DayLog.t) :
  cycle_total c0 (l ++ [d])
  = if DayLog.is_restart d then 0
    else cycle_total c0 l + DayLog.total_on_duty_hours d.
Proof. unfold cycle_total. rewrite fold_left_app. reflexivity. Qed.

Lemma work_day_cycle (n : nat) (tdh c0 : Q) (s s' : Locals) (e : LoopExit) :
  cycle_agrees c0 s -> work_day n tdh s = Some (s', e) -> cycle_agrees c0 s'.
Proof.
  intros Hs Hw. apply work_day_log in Hw. destruct Hw as (r & Hrun & ->).
  pose proof (drive_loop_frame _ _ _ _ Hrun) as (Hlogs & Hcyc & _).
  pose proof (drive_loop_cent _ _ _ _ (start_day_cent s) Hrun) as Hcent.
  apply (rest_cent tdh) in Hcent.
  unfold cycle_agrees, close_day. proj. rewrite cycle_total_snoc.
  cbn [DayLog.is_restart DayLog.total_on_duty_hours].
  autorewrite with frame. rewrite Hlogs, Hcyc. autorewrite with frame.
  unfold start_day at 1 2. proj.
  rewrite round2_cent by (apply sum_durations_cent; exact Hcent).
  unfold cycle_agrees in Hs. rewrite Hs. reflexivity.
Qed.

Lemma run_schedule_cycle (fuel : nat) (now : datetime) (miles tdh c : Q)
    (s : Locals) :
  run_schedule fuel now miles tdh c = Some s -> cycle_agrees c s.
Proof.
  unfold run_schedule.
  apply (day_loop_inv (cycle_agrees c)).
  - intros s0 _ _ _. unfold cycle_agrees, restart_day. proj.
    rewrite cycle_total_snoc. reflexivity.
  - intros s0 s' e H0 _ _ Hw. eapply work_day_cycle; eauto.
  - reflexivity.
Qed.

(** C8 (amended).  Whenever the day loop ends, [cycle_used_after] is the
    running total re-derived from the logs, rounded to two decimals, and
    it agrees with the simulation's final cycle counter up to rounding:
    the two differ by less than one hundredth of an hour. *)
Theorem cycle_used_after_near_counter (fuel : nat) (now : datetime)
    (miles c : Q) (s : Locals) :
  run_schedule fuel now miles (miles / AVG_SPEED_MPH) c = Some s ->
  exists plan,
    calculate_trip fuel now miles c = Some plan /\
    TripPlan.cycle_used_after plan
    == round2 (cycle_total c (TripPlan.daily_logs plan)) /\
    current_cycle s - (1 # 100) < TripPlan.cycle_used_after plan /\
    TripPlan.cycle_used_after plan < current_cycle s + (1 # 100).
Proof.
  intros Hrun. pose proof (run_schedule_cycle _ _ _ _ _ _ Hrun) as Hc.
  unfold calculate_trip, _generate_daily_schedule. rewrite Hrun.
  cbn [option_map]. eexists. split; [reflexivity | ].
  cbn [TripPlan.daily_logs TripPlan.cycle_used_after].
  unfold _calculate_final_cycle_usage.
  split; [reflexivity | ].
  unfold cycle_agrees in Hc.
  destruct (round2_close (cycle_total c (daily_logs s))) as [H1 H2].
  split; lra.
Qed.

Lemma cycle_used_after_near_counter_witness :
  exists s plan,
    run_schedule 10 0%Z 60 (60 / AVG_SPEED_MPH) (1 # 8) = Some s /\
    calculate_trip 10 0%Z 60 (1 # 8) = Some plan /\
    TripPlan.cycle_used_after plan
    == round2 (cycle_total (1 # 8) (TripPlan.daily_logs plan)) /\
    current_cycle s - (1 # 100) < TripPlan.cycle_used_after plan /\
    TripPlan.cycle_used_after plan < current_cycle s + (1 # 100).
Proof.
  eexists.
  destruct (cycle_used_after_near_counter 10 0%Z 60 (1 # 8) _
              ltac:(vm_compute; reflexivity)) as (plan & Hp & Hr & Hlo & Hhi).
  exists plan. split; [reflexivity | ].
  split; [exact Hp | ]. split; [exact Hr | ]. split; [exact Hlo | exact Hhi].
Defined.

(** C8 (as stated, refuted).  For 60 miles and 0.125 cycle hours used the
    loop ends with the counter at 3.125, and [cycle_used_after] is 3.12. *)
Lemma cycle_used_after_not_exact :
  exists s plan,
    run_schedule 10 0%Z 60 (60 / AVG_SPEED_MPH) (1 # 8) = Some s /\
    calculate_trip 10 0%Z 60 (1 # 8) = Some plan /\
    current_cycle s == 25 # 8 /\
    TripPlan.cycle_used_after plan == 312 # 100 /\
    ~ TripPlan.cycle_used_after plan == current_cycle s.
Proof.
  eexists. eexists.
  split; [vm_compute; reflexivity | ].
  split; [vm_compute; reflexivity | ].
  split; [vm_compute; reflexivity | ].
  split; [vm_compute; reflexivity | ].
  vm_compute. discriminate.
Qed.

(** ** C9: the guard on short driving segments *)

Lemma epsilon_exit_hours_remain (fuel : nat) (s r : Locals) :
  drive_loop fuel s = Some (r, EpsilonBreak) -> 0 < remaining_driving_hours r.
Proof.
  intros Hrun.
  refine (drive_loop_inv (fun _ => True)
            (fun r e => e = EpsilonBreak -> 0 < remaining_driving_hours r)
            _ _ _ fuel s r EpsilonBreak I Hrun eq_refl).
  - intros; discriminate.
  - auto.
  - intros s0 s' e _ Hc Hb He. subst e.
    pose proof (drive_body_case s0) as C. rewrite Hb in C.
    apply drive_cond_true in Hc. inversion C; subst. apply Hc.
Qed.

(** C9 (amended).  When the driving loop of a day is left by the
    [drive_duration < 0.1] guard, no failure is signalled: the day is
    closed by the 10-hour rest and appended like any other work day,
    driving hours remain, and the day loop goes on with the next day. *)
Theorem epsilon_guard_only_ends_the_day (n : nat) (tdh : Q) (s s' : Locals) :
  dropoff_done s = false ->
  work_day n tdh s = Some (s', EpsilonBreak) ->
  (exists d es rest,
     daily_logs s' = daily_logs s ++ [d] /\
     DayLog.is_restart d = false /\
     DayLog.log_entries d = es ++ [rest] /\ is_rest rest = true) /\
  0 < remaining_driving_hours s' /\
  trip_done s' = false /\
  day_cond s' = true.
Proof.
  intros Hd Hw. apply work_day_log in Hw. destruct Hw as (r & Hrun & ->).
  pose proof (drive_loop_frame _ _ _ _ Hrun) as (Hlogs & _).
  pose proof (epsilon_exit_hours_remain _ _ _ Hrun) as Hrem.
  assert (Hd1 : dropoff_done (do_pickup (start_day s)) = false)
    by (autorewrite with frame; exact Hd).
  destruct (drive_loop_appended _ _ _ _ Hd1 Hrun)
    as (mid & _ & [(_ & Hdr & _) | (Habs & _)]); [ | discriminate Habs].
  split; [ | split; [ | split]].
  - eexists. exists (day_entries r). eexists. split.
    { unfold close_day. proj. autorewrite with frame. rewrite Hlogs.
      autorewrite with frame. reflexivity. }
    split; [reflexivity | ].
    cbn [DayLog.log_entries]. unfold end_of_day_rest. rewrite Hdr.
    cbn [negb orb]. proj. split; reflexivity.
  - unfold close_day. proj. autorewrite with frame. exact Hrem.
  - unfold trip_done, close_day. proj. autorewrite with frame.
    rewrite Hdr. reflexivity.
  - unfold day_cond, close_day. proj. autorewrite with frame.
    rewrite Hdr. apply orb_true_r.
Qed.

Lemma epsilon_guard_only_ends_the_day_witness :
  exists s',
    work_day 10 1 (initial_locals 0%Z 60 1 (1103 # 16))
    = Some (s', EpsilonBreak) /\
    0 < remaining_driving_hours s' /\ day_cond s' = true.
Proof.
  eexists. split; [vm_compute; reflexivity | ].
  refine ((fun H => conj (proj1 (proj2 H)) (proj2 (proj2 (proj2 H))))
            (epsilon_guard_only_ends_the_day 10 1
               (initial_locals 0%Z 60 1 (1103 # 16)) _ _ _)).
  - reflexivity.
  - vm_compute. reflexivity.
Defined.

(** C9 (as stated, refuted).  For 60 miles with 68.9375 cycle hours used,
    the first day offers 0.0625 hours of driving after the pickup: the
    guard fires before any driving, yet [calculate_trip] returns a plan
    of three days. *)
Lemma epsilon_collapse_returns_a_plan :
  exists s' plan,
    work_day 10 (60 / AVG_SPEED_MPH)
      (initial_locals 0%Z 60 (60 / AVG_SPEED_MPH) (1103 # 16))
    = Some (s', EpsilonBreak) /\
    hours_driven_today s' == 0 /\
    calculate_trip 10 0%Z 60 (1103 # 16) = Some plan /\
    List.length (TripPlan.daily_logs plan) = 3%nat.
Proof.
  eexists. eexists.
  split; [vm_compute; reflexivity | ].
  split; [reflexivity | ].
  split; [vm_compute; reflexivity | ].
  reflexivity.
Qed.

(** ** C10: fuel-stop segments against [num_fuel_stops] *)

Lemma qcount_plus (a b : nat) : qcount (a + b) == qcount a + qcount b.
Proof. unfold qcount. rewrite Nat2Z.inj_add, inject_Z_plus. reflexivity. Qed.

Ltac fuel_count :=
  rewrite ?fuel_segments_snoc; unfold _create_log_entry, is_fuel_stop;
  cbn [LogEntry.status LogEntry.notes DutyStatus_eqb andb];
  rewrite ?Nat.add_0_r.

Lemma fuel_inv_step (M : Q) (s s' : Locals) (x : option LoopExit) :
  fuel_inv_day M s -> drive_body s = (s', x) -> fuel_inv_day M s'.
Proof.
  intros [H1 H2] Hb. pose proof (drive_body_case s) as C. rewrite Hb in C.
  unfold fuel_inv_day, fuel_bound in *.
  inversion C; subst; clear C.
  - unfold take_break. proj. fuel_count. split; assumption.
  - unfold fuel_stop. proj. fuel_count.
    change (String.eqb NOTE_FUEL NOTE_FUEL) with true. cbv iota.
    rewrite Nat.add_assoc, qcount_plus.
    change (qcount 1) with 1. consts. split; [lra | right; lra].
  - split; assumption.
  - unfold do_dropoff, drive. proj. fuel_count.
    change (String.eqb NOTE_DROPOFF NOTE_FUEL) with false. cbv iota.
    rewrite ?Nat.add_0_r. consts. split; [lra | assumption].
  - unfold drive. proj. fuel_count. consts. split; [lra | assumption].
Qed.

Lemma fuel_inv_start (M : Q) (s : Locals) :
  fuel_inv M s -> fuel_inv_day M (do_pickup (start_day s)).
Proof.
  intros [H1 H2]. unfold fuel_inv_day, fuel_bound. autorewrite with frame.
  assert (E : fuel_segments (day_entries (do_pickup (start_day s))) = 0%nat).
  { unfold do_pickup. destruct (pickup_done (start_day s)); reflexivity. }
  rewrite E, Nat.add_0_r. unfold start_day. proj. split; assumption.
Qed.

Lemma fuel_inv_close (M tdh : Q) (s : Locals) :
  fuel_inv_day M s -> fuel_inv M (close_day (end_of_day_rest tdh s)).
Proof.
  intros [H1 H2]. unfold fuel_inv, fuel_bound, close_day. proj.
  rewrite all_entries_snoc, fuel_segments_app.
  cbn [DayLog.log_entries]. autorewrite with frame.
  assert (E : fuel_segments (day_entries (end_of_day_rest tdh s))
              = fuel_segments (day_entries s)).
  { unfold end_of_day_rest. destruct (_ || _); [ | reflexivity].
    proj. fuel_count. reflexivity. }
  rewrite E. split; assumption.
Qed.

Lemma work_day_fuel (n : nat) (M tdh : Q) (s s' : Locals) (e : LoopExit) :
  fuel_inv M s -> work_day n tdh s = Some (s', e) -> fuel_inv M s'.
Proof.
  intros Hs Hw. apply work_day_log in Hw. destruct Hw as (r & Hrun & ->).
  apply fuel_inv_close. revert Hrun.
  apply (drive_loop_inv (fuel_inv_day M) (fun r _ => fuel_inv_day M r)).
  - auto.
  - intros s1 s2 H1 _ Hb. eapply fuel_inv_step; eauto.
  - intros s1 s2 x H1 _ Hb. eapply fuel_inv_step; eauto.
  - now apply fuel_inv_start.
Qed.

Lemma run_schedule_fuel (fuel : nat) (now : datetime) (miles tdh c : Q)
    (s : Locals) :
  run_schedule fuel now miles tdh c = Some s -> fuel_inv miles s.
Proof.
  unfold run_schedule. apply (day_loop_inv (fuel_inv miles)).
  - intros s0 [H1 H2] _ _. unfold fuel_inv, fuel_bound, restart_day. proj.
    rewrite all_entries_snoc, fuel_segments_app.
    change (fuel_segments (DayLog.log_entries _)) with 0%nat.
    rewrite Nat.add_0_r. split; assumption.
  - intros s0 s' e H0 _ _ Hw. eapply work_day_fuel; eauto.
  - unfold fuel_inv, fuel_bound, initial_locals. proj.
    change (qcount (fuel_segments (all_entries []))) with 0.
    split; [consts; lra | left; reflexivity].
Qed.

(** C10.  For a trip of non-negative length, the plan holds at most
    [num_fuel_stops = floor(total_miles / 1000)] fuel-stop segments, and
    strictly fewer when [total_miles] is a positive multiple of 1000. *)
Theorem fuel_segments_at_most_counted (fuel : nat) (now : datetime)
    (miles c : Q) (plan : TripPlan.t) :
  0 <= miles ->
  calculate_trip fuel now miles c = Some plan ->
  (Z.of_nat (fuel_segments (all_entries (TripPlan.daily_logs plan)))
   <= TripPlan.num_fuel_stops plan)%Z
  /\ (forall n : Z, (0 < n)%Z -> miles == FUEL_STOP_MILES * inject_Z n ->
      (Z.of_nat (fuel_segments (all_entries (TripPlan.daily_logs plan)))
       < TripPlan.num_fuel_stops plan)%Z).
Proof.
  intros Hm Hplan.
  destruct (calculate_trip_some _ _ _ _ _ Hplan) as (s & Hrun & -> & -> & _).
  apply run_schedule_fuel in Hrun. destruct Hrun as [_ H2].
  set (k := fuel_segments (all_entries (daily_logs s))) in *.
  unfold qcount in H2.
  assert (Hk : inject_Z (Z.of_nat k) <= miles / FUEL_STOP_MILES).
  { apply Qle_shift_div_l; [reflexivity | ].
    destruct H2 as [H2 | H2]; consts; lra. }
  split.
  - apply Qfloor_resp_le in Hk. rewrite Qfloor_Z in Hk. exact Hk.
  - intros n Hn E.
    assert (En : miles / FUEL_STOP_MILES == inject_Z n).
    { rewrite E. unfold FUEL_STOP_MILES. field. }
    rewrite (Qfloor_comp _ _ En), Qfloor_Z.
    assert (Hlt : inject_Z (Z.of_nat k) < inject_Z n).
    { assert (Hn' : 0 < inject_Z n)
        by (change (inject_Z 0 < inject_Z n); rewrite <- Zlt_Qlt; exact Hn).
      destruct H2 as [H2 | H2].
      - rewrite H2. exact Hn'.
      - rewrite E in H2. consts. lra. }
    rewrite Zlt_Qlt. exact Hlt.
Qed.

Lemma fuel_segments_at_most_counted_witness :
  exists plan,
    calculate_trip 20 0%Z 1000 0 = Some plan /\
    TripPlan.num_fuel_stops plan = 1%Z /\
    (Z.of_nat (fuel_segments (all_entries (TripPlan.daily_logs plan)))
     < TripPlan.num_fuel_stops plan)%Z.
Proof.
  eexists. split; [vm_compute; reflexivity | ].
  split; [vm_compute; reflexivity | ].
  refine (proj2 (fuel_segments_at_most_counted 20 0%Z 1000 0 _ _ _) 1%Z _ _).
  - unfold Qle; simpl; lia.
  - vm_compute; reflexivity.
  - lia.
  - reflexivity.
Defined.

(** * Further properties *)

(** ** Timestamps: the segments of a plan follow one another *)

Lemma chained_snoc (t : datetime) (l : list LogEntry.t) (e : LogEntry.t) :
  chained t l ->
  LogEntry.start_time e = chain_end t l ->
  (LogEntry.start_time e <= LogEntry.end_time e)%Z ->
  chained t (l ++ [e]) /\ chain_end t (l ++ [e]) = LogEntry.end_time e.
Proof.
  revert t. induction l as [ | x l IH]; intros t Hl Hs He; simpl in *.
  - repeat split; assumption.
  - destruct Hl as (H1 & H2 & H3).
    destruct (IH _ H3 Hs He) as [IH1 IH2]. repeat split; assumption.
Qed.

Lemma days_chained_snoc (t : datetime) (logs : list DayLog.t) (d : DayLog.t) :
  days_chained t logs ->
  DayLog.start_time d = days_end t logs ->
  chained (DayLog.start_time d) (DayLog.log_entries d) ->
  chain_end (DayLog.start_time d) (DayLog.log_entries d) = DayLog.end_time d ->
  days_chained t (logs ++ [d]) /\ days_end t (logs ++ [d]) = DayLog.end_time d.
Proof.
  revert t. induction logs as [ | x logs IH]; intros t Hl Hs Hc He; simpl in *.
  - subst t. repeat split; assumption.
  - destruct Hl as (H1 & H2 & H3 & H4).
    destruct (IH _ H4 Hs Hc He) as [IH1 IH2]. repeat split; assumption.
Qed.

Lemma round_half_even_nonneg (x : Q) : 0 <= x -> (0 <= round_half_even x)%Z.
Proof.
  intros H. apply round_half_even_mono in H.
  change (round_half_even 0) with 0%Z in H. exact H.
Qed.

Lemma timedelta_hours_nonneg (h : Q) : 0 <= h -> (0 <= timedelta_hours h)%Z.
Proof.
  intros H. apply round_half_even_nonneg.
  apply Qmult_le_0_compat; [exact H | ]. unfold Qle; simpl; lia.
Qed.

(** An entry created where the chain ends, of a duration that is not
    negative, extends the chain. *)
Lemma chained_log (t0 t : datetime) (l : list LogEntry.t) (st : DutyStatus)
    (d : Q) (note : string) :
  chained t0 l -> chain_end t0 l = t -> 0 <= d ->
  chained t0 (l ++ [_create_log_entry st t d note]) /\
  chain_end t0 (l ++ [_create_log_entry st t d note])
  = LogEntry.end_time (_create_log_entry st t d note).
Proof.
  intros H1 H2 Hd. apply chained_snoc.
  - exact H1.
  - symmetry. exact H2.
  - unfold _create_log_entry. cbn [LogEntry.start_time LogEntry.end_time].
    pose proof (timedelta_hours_nonneg d Hd). lia.
Qed.

Lemma clock_inv_step (s s' : Locals) (x : option LoopExit) :
  clock_inv_day s -> drive_body s = (s', x) -> clock_inv_day s'.
Proof.
  intros [H1 H2] Hb. pose proof (drive_body_case s) as C. rewrite Hb in C.
  inversion C; subst; clear C; unfold clock_inv_day.
  - unfold take_break. proj. apply chained_log; [exact H1 | exact H2 | ].
    consts. lra.
  - unfold fuel_stop. proj. apply chained_log; [exact H1 | exact H2 | ].
    consts. lra.
  - split; assumption.
  - unfold do_dropoff, drive. proj.
    assert (Hd : 0 <= drive_duration s) by (consts; lra).
    destruct (chained_log _ _ _ D (drive_duration s)
                (note_driving (drive_duration s * AVG_SPEED_MPH)) H1 H2 Hd)
      as [K1 K2].
    apply chained_log; [exact K1 | exact K2 | consts; lra].
  - unfold drive. proj. apply chained_log; [exact H1 | exact H2 | ].
    consts. lra.
Qed.

Lemma clock_inv_start (s : Locals) : clock_inv_day (do_pickup (start_day s)).
Proof.
  unfold clock_inv_day, do_pickup.
  change (pickup_done (start_day s)) with (pickup_done s).
  destruct (pickup_done s); unfold start_day; proj.
  - split; reflexivity.
  - apply (chained_log _ _ []); [exact I | reflexivity | consts; lra].
Qed.

Lemma clock_inv_rest (tdh : Q) (s : Locals) :
  clock_inv_day s -> clock_inv_day (end_of_day_rest tdh s).
Proof.
  intros [H1 H2]. unfold clock_inv_day, end_of_day_rest.
  destruct (_ || _); [ | split; assumption]. proj.
  apply chained_log; [exact H1 | exact H2 | consts; lra].
Qed.

Lemma drive_loop_clock (fuel : nat) (s r : Locals) (e : LoopExit) :
  clock_inv_day s -> drive_loop fuel s = Some (r, e) -> clock_inv_day r.
Proof.
  intros Hs.
  apply (drive_loop_inv clock_inv_day (fun r _ => clock_inv_day r));
    [auto | | | exact Hs].
  - intros s1 s2 H1 _ Hb. eapply clock_inv_step; eauto.
  - intros s1 s2 x H1 _ Hb. eapply clock_inv_step; eauto.
Qed.

Lemma work_day_clock (n : nat) (tdh : Q) (t0 : datetime) (s s' : Locals)
    (e : LoopExit) :
  clock_inv t0 s -> work_day n tdh s = Some (s', e) -> clock_inv t0 s'.
Proof.
  intros [H1 H2] Hw. apply work_day_log in Hw. destruct Hw as (r & Hrun & ->).
  pose proof (drive_loop_frame _ _ _ _ Hrun) as (Hlogs & _ & _ & _ & Hst & _).
  pose proof (drive_loop_clock _ _ _ _ (clock_inv_start s) Hrun) as Hr.
  apply (clock_inv_rest tdh) in Hr. destruct Hr as [Hr1 Hr2].
  assert (Est : day_start_time (end_of_day_rest tdh r) = current_time s).
  { transitivity (day_start_time r).
    - unfold end_of_day_rest. now destruct (_ || _).
    - rewrite Hst. unfold do_pickup.
      now destruct (pickup_done (start_day s)). }
  rewrite Est in Hr1, Hr2.
  unfold clock_inv, close_day. proj. autorewrite with frame.
  rewrite Hlogs. autorewrite with frame. change (daily_logs (start_day s))
    with (daily_logs s).
  apply days_chained_snoc;
    cbn [DayLog.start_time DayLog.log_entries DayLog.end_time];
    rewrite ?Est; try assumption.
  symmetry. exact H2.
Qed.

Lemma run_schedule_clock (fuel : nat) (now : datetime) (miles tdh c : Q)
    (s : Locals) :
  run_schedule fuel now miles tdh c = Some s ->
  clock_inv (replace_6am now) s.
Proof.
  unfold run_schedule. apply (day_loop_inv (clock_inv (replace_6am now))).
  - intros s0 [H1 H2] _ _. unfold clock_inv, restart_day. proj.
    apply days_chained_snoc; unfold _create_restart_log;
      cbn [DayLog.start_time DayLog.log_entries DayLog.end_time
           chained chain_end LogEntry.start_time LogEntry.end_time];
      try assumption.
    + symmetry. exact H2.
    + repeat split.
      pose proof (timedelta_hours_nonneg RESTART_OFF_DUTY_HOURS
                    ltac:(unfold Qle; simpl; lia)). lia.
    + reflexivity.
  - intros s0 s' e H0 _ _ Hw. eapply work_day_clock; eauto.
  - split; reflexivity.
Qed.

(** X1.  In every plan the engine returns the days follow one another
    from 6:00 of the starting day: each day starts when the day before
    ended, inside a day each segment starts when the one before ended and
    no segment ends before it starts, and a day ends with its last
    segment.  There is no gap and no overlap anywhere in the plan. *)
Theorem plan_is_contiguous (fuel : nat) (now : datetime) (miles c : Q)
    (plan : TripPlan.t) :
  calculate_trip fuel now miles c = Some plan ->
  days_chained (replace_6am now) (TripPlan.daily_logs plan).
Proof.
  intros Hplan.
  destruct (calculate_trip_some _ _ _ _ _ Hplan) as (s & Hrun & -> & _).
  exact (proj1 (run_schedule_clock _ _ _ _ _ _ Hrun)).
Qed.

Lemma plan_is_contiguous_witness :
  exists plan, calculate_trip 20 0%Z 1200 (207 # 4) = Some plan /\
               days_chained (replace_6am 0%Z) (TripPlan.daily_logs plan).
Proof.
  eexists. split; [vm_compute; reflexivity | ].
  apply (plan_is_contiguous 20 0%Z 1200 (207 # 4)). vm_compute. reflexivity.
Defined.

(** ** Day numbers, the day estimate and how days end *)

Lemma numbered_snoc (k : Z) (logs : list DayLog.t) (d : DayLog.t) :
  numbered k logs ->
  DayLog.day_number d = (k + Z.of_nat (List.length logs))%Z ->
  numbered k (logs ++ [d]).
Proof.
  revert k. induction logs as [ | x logs IH]; intros k Hn Hd; simpl in *.
  - split; [lia | exact I].
  - destruct Hn as [H1 H2]. split; [exact H1 | ]. apply IH; [exact H2 | lia].
Qed.

Lemma qcount_succ (n : nat) : qcount (n + 1) == qcount n + 1.
Proof. rewrite qcount_plus. reflexivity. Qed.

Lemma drive_loop_hours (fuel : nat) (R0 : Q) (s r : Locals) (e : LoopExit) :
  hours_inv R0 s -> drive_loop fuel s = Some (r, e) -> hours_inv R0 r.
Proof.
  intros Hs.
  assert (Hstep : forall s1 s2 x, hours_inv R0 s1 -> drive_cond s1 = true ->
                    drive_body s1 = (s2, x) -> hours_inv R0 s2).
  { intros s1 s2 x (H1 & H2 & H3) Hc Hb.
    pose proof (drive_body_case s1) as C. rewrite Hb in C.
    pose proof (drive_duration_bounds s1) as (_ & B & _).
    apply drive_cond_true in Hc.
    inversion C; subst; clear C; unfold hours_inv, take_break, fuel_stop,
      do_dropoff, drive; proj;
      (split; [ | split]); try assumption; try lra. }
  apply (drive_loop_inv (hours_inv R0) (fun r _ => hours_inv R0 r));
    [auto | | | exact Hs].
  - intros s1 s2 H1 Hc Hb. eapply Hstep; eauto.
  - intros s1 s2 x H1 Hc Hb. eapply Hstep; eauto.
Qed.

Lemma hours_inv_start (s : Locals) :
  hours_inv (remaining_driving_hours s) (do_pickup (start_day s)).
Proof.
  unfold hours_inv. autorewrite with frame. unfold start_day. proj.
  split; [lra | ]. split; [consts; lra | ].
  unfold min3. qmin_cases; lra.
Qed.

(** When the day loop is left, no driving hours remain. *)
Lemma day_loop_exit_hours (n fuel : nat) (tdh : Q) (s r : Locals) :
  day_loop n fuel tdh s = Some r -> remaining_driving_hours r <= 0.
Proof.
  revert s. induction fuel as [ | fuel IH]; intros s Hrun; simpl in Hrun.
  - discriminate.
  - destruct (day_cond s) eqn:Hc.
    + destruct (needs_restart s); [eapply IH; eauto | ].
      destruct (work_day n tdh s) as [[s' e] | ]; [ | discriminate].
      destruct (trip_done s') eqn:Ht; [ | eapply IH; eauto].
      inversion Hrun; subst. unfold trip_done in Ht. btests. assumption.
    + inversion Hrun; subst. unfold day_cond in Hc. btests. assumption.
Qed.

Lemma closing_inv_running (tdh : Q) (s : Locals) :
  closing_inv tdh s -> day_cond s = true ->
  dropoff_done s = false /\
  Forall (fun d => DayLog.is_restart d = false -> ends_with_rest d)
         (daily_logs s).
Proof.
  intros (_ & _ & _ & [H | (Hd & Hr & _)]) Hc; [exact H | ].
  unfold day_cond in Hc. rewrite Hd in Hc. simpl in Hc.
  rewrite orb_false_r in Hc. btests. lra.
Qed.

Lemma closing_inv_restart (tdh : Q) (s : Locals) :
  closing_inv tdh s -> day_cond s = true -> closing_inv tdh (restart_day s).
Proof.
  intros Hs Hc. destruct (closing_inv_running _ _ Hs Hc) as [Hd Hrest].
  destruct Hs as (Hn & Hk & Hb & _).
  unfold closing_inv, restart_day. proj. rewrite length_app. cbn [List.length].
  split; [ | split; [ | split]].
  - apply numbered_snoc; [exact Hn | ].
    unfold _create_restart_log. cbn [DayLog.day_number]. lia.
  - lia.
  - rewrite qcount_succ. consts. lra.
  - left. split; [exact Hd | ]. apply Forall_app. split; [exact Hrest | ].
    constructor; [discriminate | constructor].
Qed.

Lemma closing_inv_work (n : nat) (tdh : Q) (s s' : Locals) (e : LoopExit) :
  closing_inv tdh s -> day_cond s = true ->
  work_day n tdh s = Some (s', e) -> closing_inv tdh s'.
Proof.
  intros Hs Hc Hw. destruct (closing_inv_running _ _ Hs Hc) as [Hd Hrest].
  destruct Hs as (Hn & Hk & Hb & _).
  apply work_day_log in Hw. destruct Hw as (r & Hrun & ->).
  pose proof (drive_loop_frame _ _ _ _ Hrun) as (Hlogs & _ & Hnum & _).
  pose proof (drive_loop_hours _ _ _ _ _ (hours_inv_start s) Hrun)
    as (Hh1 & Hh2 & _).
  assert (Hd1 : dropoff_done (do_pickup (start_day s)) = false)
    by (autorewrite with frame; exact Hd).
  destruct (drive_loop_appended _ _ _ _ Hd1 Hrun) as (mid & _ & Happ).
  assert (Elogs : daily_logs r = daily_logs s)
    by (rewrite Hlogs; autorewrite with frame; reflexivity).
  assert (Enum : day_number r = day_number s).
  { rewrite Hnum. unfold do_pickup.
    now destruct (pickup_done (start_day s)). }
  assert (Hbudget : tdh - remaining_driving_hours r
                    <= MAX_DRIVING_HOURS
                       * qcount (List.length (daily_logs s) + 1)).
  { rewrite qcount_succ. consts. lra. }
  unfold closing_inv, close_day. proj. autorewrite with frame.
  rewrite Elogs, length_app. cbn [List.length].
  split; [ | split; [ | split]].
  - apply numbered_snoc; [exact Hn | ].
    cbn [DayLog.day_number].
    transitivity (day_number r); [ | lia].
    unfold end_of_day_rest. now destruct (_ || _).
  - assert (E : day_number (end_of_day_rest tdh r) = day_number r)
      by (unfold end_of_day_rest; now destruct (_ || _)).
    rewrite E. lia.
  - exact Hbudget.
  - destruct Happ as [(_ & Hdr & _) | (_ & Hdr & Hrem & dr & drop & E & _ & Hdrop)].
    + left. split; [exact Hdr | ]. apply Forall_app. split; [exact Hrest | ].
      constructor; [ | constructor]. intros _.
      exists (day_entries r). eexists. cbn [DayLog.log_entries].
      unfold end_of_day_rest. rewrite Hdr. cbn [negb orb]. proj.
      split; reflexivity.
    + right. split; [exact Hdr | ]. split; [exact Hrem | ].
      assert (Hnorest : end_of_day_rest tdh r = r).
      { unfold end_of_day_rest. rewrite Hdr. cbn [negb orb].
        assert (Hlt : (day_number r
                       <? Qceiling (tdh / MAX_DRIVING_HOURS))%Z = false).
        { apply Z.ltb_ge.
          assert (Hq : tdh / MAX_DRIVING_HOURS
                       <= inject_Z (Z.of_nat (List.length (daily_logs s) + 1))).
          { apply Qle_shift_div_r; [reflexivity | ].
            unfold qcount in Hbudget. consts. lra. }
          apply Qceiling_resp_le in Hq. rewrite Qceiling_Z in Hq. lia. }
        rewrite Hlt. reflexivity. }
      rewrite Hnorest.
      eexists. eexists. split; [reflexivity | ].
      split; [reflexivity | ]. split; [ | exact Hrest].
      cbn [DayLog.log_entries]. rewrite E.
      exists (day_entries (do_pickup (start_day s)) ++ mid ++ [dr]), drop.
      split; [ | exact Hdrop].
      rewrite <- !app_assoc. reflexivity.
Qed.

Lemma run_schedule_closing (fuel : nat) (now : datetime) (miles tdh c : Q)
    (s : Locals) :
  run_schedule fuel now miles tdh c = Some s -> closing_inv tdh s.
Proof.
  unfold run_schedule. apply (day_loop_inv (closing_inv tdh)).
  - intros s0 H0 Hc _. now apply closing_inv_restart.
  - intros s0 s' e H0 Hc _ Hw. eapply closing_inv_work; eauto.
  - unfold closing_inv, initial_locals. proj. cbn [List.length numbered].
    split; [exact I | ]. split; [reflexivity | ].
    split; [change (qcount 0) with 0; consts; lra | ].
    left. split; [reflexivity | constructor].
Qed.

(** X2.  In every plan the engine returns the days are numbered 1, 2, 3,
    ... in the order of the plan, restart days included. *)
Theorem days_numbered_from_one (fuel : nat) (now : datetime) (miles c : Q)
    (plan : TripPlan.t) :
  calculate_trip fuel now miles c = Some plan ->
  numbered 1 (TripPlan.daily_logs plan).
Proof.
  intros Hplan.
  destruct (calculate_trip_some _ _ _ _ _ Hplan) as (s & Hrun & -> & _).
  exact (proj1 (run_schedule_closing _ _ _ _ _ _ Hrun)).
Qed.

Lemma days_numbered_from_one_witness :
  exists plan, calculate_trip 20 0%Z 1200 (207 # 4) = Some plan /\
               numbered 1 (TripPlan.daily_logs plan).
Proof.
  eexists. split; [vm_compute; reflexivity | ].
  apply (days_numbered_from_one 20 0%Z 1200 (207 # 4)). vm_compute. reflexivity.
Defined.

Lemma calculate_trip_days (fuel : nat) (now : datetime) (miles c : Q)
    (plan : TripPlan.t) :
  calculate_trip fuel now miles c = Some plan ->
  TripPlan.estimated_days plan
  = Qceiling (miles / AVG_SPEED_MPH / MAX_DRIVING_HOURS) /\
  TripPlan.actual_days plan
  = Z.of_nat (List.length (TripPlan.daily_logs plan)) /\
  TripPlan.restart_needed plan
  = _check_restart_needed (TripPlan.daily_logs plan).
Proof.
  unfold calculate_trip, _generate_daily_schedule.
  destruct (run_schedule _ _ _ _ _) as [s | ]; [ | discriminate].
  cbn [option_map]. intros H.
  assert (E := f_equal (fun o => match o with Some p => p | None => plan end) H).
  cbv beta iota in E. subst plan. repeat split.
Qed.

(** X3.  The day estimate never exceeds the days the plan takes:
    [estimated_days = ceil(total_driving_hours / 11)] is at most
    [actual_days], because no day drives more than 11 hours. *)
Theorem estimate_at_most_actual (fuel : nat) (now : datetime) (miles c : Q)
    (plan : TripPlan.t) :
  calculate_trip fuel now miles c = Some plan ->
  (TripPlan.estimated_days plan <= TripPlan.actual_days plan)%Z.
Proof.
  intros Hplan.
  destruct (calculate_trip_days _ _ _ _ _ Hplan) as (-> & -> & _).
  destruct (calculate_trip_some _ _ _ _ _ Hplan) as (s & Hrun & -> & _).
  pose proof (run_schedule_closing _ _ _ _ _ _ Hrun) as (_ & _ & Hb & _).
  pose proof (day_loop_exit_hours _ _ _ _ _ Hrun) as Hr.
  assert (Hq : miles / AVG_SPEED_MPH / MAX_DRIVING_HOURS
               <= inject_Z (Z.of_nat (List.length (daily_logs s)))).
  { apply Qle_shift_div_r; [reflexivity | ].
    unfold qcount in Hb. consts. lra. }
  apply Qceiling_resp_le in Hq. rewrite Qceiling_Z in Hq. exact Hq.
Qed.

Lemma estimate_at_most_actual_witness :
  exists plan,
    calculate_trip 20 0%Z 1200 (207 # 4) = Some plan /\
    (TripPlan.estimated_days plan <= TripPlan.actual_days plan)%Z.
Proof.
  eexists. split; [vm_compute; reflexivity | ].
  apply (estimate_at_most_actual 20 0%Z 1200 (207 # 4)).
  vm_compute. reflexivity.
Defined.

(** X4.  Every plan the engine returns ends with the dropoff: its last
    day is a work day whose last segment is the dropoff, with no 10-hour
    rest after it (the [day_number < estimated days] test of line 263
    never adds one), and every work day before the last is closed by the
    10-hour rest. *)
Theorem plan_ends_with_dropoff (fuel : nat) (now : datetime) (miles c : Q)
    (plan : TripPlan.t) :
  calculate_trip fuel now miles c = Some plan ->
  plan_closed (TripPlan.daily_logs plan).
Proof.
  intros Hplan.
  destruct (calculate_trip_some _ _ _ _ _ Hplan) as (s & Hrun & -> & _).
  pose proof (run_schedule_closing _ _ _ _ _ _ Hrun)
    as (_ & _ & _ & [[Hd _] | (_ & _ & Hc)]); [ | exact Hc].
  pose proof (day_loop_exit _ _ _ _ _ Hrun). congruence.
Qed.

Lemma plan_ends_with_dropoff_witness :
  exists plan,
    calculate_trip 20 0%Z 1200 (207 # 4) = Some plan /\
    plan_closed (TripPlan.daily_logs plan).
Proof.
  eexists. split; [vm_compute; reflexivity | ].
  apply (plan_ends_with_dropoff 20 0%Z 1200 (207 # 4)).
  vm_compute. reflexivity.
Defined.

(** ** The 30-minute break after 8 hours of driving *)

Lemma stretch_snoc (l : list LogEntry.t) (e : LogEntry.t) :
  stretch (l ++ [e]) = stretch_step (stretch l) e.
Proof. unfold stretch. rewrite fold_left_app. reflexivity. Qed.

Lemma break_rule_snoc (l : list LogEntry.t) (e : LogEntry.t) :
  break_rule l -> stretch (l ++ [e]) <= REQUIRED_BREAK_AFTER_HOURS ->
  break_rule (l ++ [e]).
Proof.
  intros Hl He n. rewrite firstn_app.
  destruct (Nat.le_gt_cases n (List.length l)) as [Hn | Hn].
  - replace (n - List.length l)%nat with 0%nat by lia.
    cbn [firstn]. rewrite app_nil_r. apply Hl.
  - rewrite firstn_all2 by lia.
    destruct (n - List.length l)%nat as [ | k] eqn:E; [lia | ].
    cbn [firstn]. rewrite firstn_nil. exact He.
Qed.

Lemma break_rule_last (l : list LogEntry.t) :
  break_rule l -> stretch l <= REQUIRED_BREAK_AFTER_HOURS.
Proof.
  intros H. specialize (H (List.length l)). now rewrite firstn_all in H.
Qed.

Lemma round2_until_break (h : Q) :
  even_hours h -> round2 (REQUIRED_BREAK_AFTER_HOURS - h)
                  == REQUIRED_BREAK_AFTER_HOURS - h.
Proof.
  intros [H | [H | [H | [H | H]]]]; rewrite H; reflexivity.
Qed.

Lemma break_inv_step (s s' : Locals) (x : option LoopExit) :
  break_inv s -> drive_cond s = true -> drive_body s = (s', x) ->
  break_inv s'.
Proof.
  intros [Hrule Hrun] Hc Hb. destruct (Hrun Hc) as [Hst Hev].
  pose proof (break_rule_last _ Hrule) as Hlast.
  pose proof (drive_body_case s) as C. rewrite Hb in C.
  assert (Hdrive : stretch (day_entries s)
                   + round2 (drive_duration s) <= REQUIRED_BREAK_AFTER_HOURS).
  { pose proof (drive_duration_bounds s) as (B & _).
    apply round2_mono in B. rewrite (round2_until_break _ Hev) in B. lra. }
  inversion C; subst; clear C.
  - (* break *)
    split.
    + unfold take_break. proj. apply break_rule_snoc; [exact Hrule | ].
      rewrite stretch_snoc. unfold stretch_step, _create_log_entry.
      cbn [LogEntry.status]. consts. lra.
    + intros _. unfold take_break. proj. rewrite stretch_snoc.
      unfold stretch_step, _create_log_entry. cbn [LogEntry.status].
      split; [reflexivity | left; reflexivity].
  - (* fuel *)
    split.
    + unfold fuel_stop. proj. apply break_rule_snoc; [exact Hrule | ].
      rewrite stretch_snoc. unfold stretch_step, _create_log_entry.
      cbn [LogEntry.status]. exact Hlast.
    + intros _. unfold fuel_stop. proj. rewrite stretch_snoc.
      unfold stretch_step, _create_log_entry. cbn [LogEntry.status].
      split; assumption.
  - (* the guard *)
    split; assumption.
  - (* last segment and dropoff *)
    split.
    + unfold do_dropoff, drive. proj.
      apply break_rule_snoc; [apply break_rule_snoc; [exact Hrule | ] | ];
        rewrite ?stretch_snoc; unfold stretch_step, _create_log_entry;
        cbn [LogEntry.status LogEntry.duration]; exact Hdrive.
    + intros Hc'. exfalso. apply drive_cond_true in Hc'.
      unfold do_dropoff in Hc'. proj. lra.
  - (* a segment *)
    split.
    + unfold drive. proj. apply break_rule_snoc; [exact Hrule | ].
      rewrite stretch_snoc. unfold stretch_step, _create_log_entry.
      cbn [LogEntry.status LogEntry.duration]. exact Hdrive.
    + intros Hc'.
      destruct (continued_segment_is_two s Hc' ltac:(assumption) Hev)
        as [E Hev'].
      split; [ | exact Hev'].
      unfold drive. proj. rewrite stretch_snoc.
      unfold stretch_step, _create_log_entry.
      cbn [LogEntry.status LogEntry.duration].
      rewrite E at 1. rewrite round2_two, E. lra.
Qed.

Lemma break_inv_start (s : Locals) : break_inv (do_pickup (start_day s)).
Proof.
  assert (H0 : break_rule []).
  { intros n. rewrite firstn_nil. change (stretch []) with 0. consts. lra. }
  unfold break_inv. autorewrite with frame. unfold do_pickup.
  destruct (pickup_done (start_day s)); unfold start_day; proj.
  - split; [exact H0 | ]. intros _. split; [reflexivity | left; reflexivity].
  - split.
    + apply break_rule_snoc; [exact H0 | ].
      rewrite stretch_snoc. unfold stretch_step, _create_log_entry.
      cbn [LogEntry.status]. change (stretch []) with 0. consts. lra.
    + intros _. split; [reflexivity | left; reflexivity].
Qed.

Lemma work_day_break_rule (n : nat) (tdh : Q) (s s' : Locals) (e : LoopExit) :
  work_day n tdh s = Some (s', e) ->
  exists d, daily_logs s' = daily_logs s ++ [d] /\
            break_rule (DayLog.log_entries d).
Proof.
  intros Hw. apply work_day_log in Hw. destruct Hw as (r & Hrun & ->).
  pose proof (drive_loop_frame _ _ _ _ Hrun) as (Hlogs & _).
  assert (Hr : break_rule (day_entries r)).
  { revert Hrun.
    apply (drive_loop_inv break_inv (fun r _ => break_rule (day_entries r))).
    - intros s0 [H _] _. exact H.
    - intros s1 s2 H1 Hc Hb. eapply break_inv_step; eauto.
    - intros s1 s2 x H1 Hc Hb. eapply break_inv_step; eauto.
    - apply break_inv_start. }
  eexists. split.
  - unfold close_day. proj. autorewrite with frame. rewrite Hlogs.
    autorewrite with frame. reflexivity.
  - cbn [DayLog.log_entries]. unfold end_of_day_rest.
    destruct (_ || _); [ | exact Hr]. proj.
    apply break_rule_snoc; [exact Hr | ]. rewrite stretch_snoc.
    unfold stretch_step, _create_log_entry. cbn [LogEntry.status].
    consts. lra.
Qed.

(** X5.  In every DayLog of every plan the engine returns, the driving
    durations reported between two off-duty segments (or from the start
    of the day) never add up to more than 8 hours: the 30-minute break is
    always inserted in time. *)
Theorem break_after_eight_hours (fuel : nat) (now : datetime) (miles c : Q)
    (plan : TripPlan.t) :
  calculate_trip fuel now miles c = Some plan ->
  Forall (fun d => break_rule (DayLog.log_entries d))
         (TripPlan.daily_logs plan).
Proof.
  intros Hplan.
  destruct (calculate_trip_some _ _ _ _ _ Hplan) as (s & Hrun & -> & _).
  unfold run_schedule in Hrun. revert Hrun.
  apply (day_loop_inv
           (fun s => Forall (fun d => break_rule (DayLog.log_entries d))
                            (daily_logs s))).
  - intros s0 H0 _ _. unfold restart_day. proj.
    apply Forall_app. split; [exact H0 | ].
    constructor; [ | constructor].
    intros [ | [ | n]]; cbn [firstn DayLog.log_entries _create_restart_log];
      unfold stretch; cbn [fold_left]; unfold stretch_step;
      cbn [LogEntry.status]; consts; lra.
  - intros s0 s' e H0 _ _ Hw.
    destruct (work_day_break_rule _ _ _ _ _ Hw) as (d & -> & Hd).
    apply Forall_app. split; [exact H0 | ].
    constructor; [exact Hd | constructor].
  - constructor.
Qed.

Lemma break_after_eight_hours_witness :
  exists plan,
    calculate_trip 20 0%Z 1200 (207 # 4) = Some plan /\
    Forall (fun d => break_rule (DayLog.log_entries d))
           (TripPlan.daily_logs plan).
Proof.
  eexists. split; [vm_compute; reflexivity | ].
  apply (break_after_eight_hours 20 0%Z 1200 (207 # 4)).
  vm_compute. reflexivity.
Defined.

(** ** Restart days *)

Lemma last_is_restart_snoc (logs : list DayLog.t) (d : DayLog.t) :
  last_is_restart (logs ++ [d]) = DayLog.is_restart d.
Proof. unfold last_is_restart. rewrite map_app. apply last_last. Qed.

Lemma no_double_restart_snoc (logs : list DayLog.t) (d : DayLog.t) :
  no_double_restart logs ->
  (last_is_restart logs = true -> DayLog.is_restart d = false) ->
  no_double_restart (logs ++ [d]).
Proof.
  induction logs as [ | x logs IH]; intros Hn Hl; [exact I | ].
  destruct logs as [ | y logs].
  - cbn. split; [exact Hl | exact I].
  - destruct Hn as [H1 H2]. change ((x :: y :: logs) ++ [d])
      with (x :: (y :: logs) ++ [d]).
    cbn [app no_double_restart]. split; [exact H1 | ].
    apply IH; [exact H2 | exact Hl].
Qed.

(** X6.  In every plan the engine returns, a restart day is never
    directly followed by another restart day: the restart brings the cycle
    counter to zero, and the next day is a work day. *)
Theorem restart_days_never_adjacent (fuel : nat) (now : datetime)
    (miles c : Q) (plan : TripPlan.t) :
  calculate_trip fuel now miles c = Some plan ->
  no_double_restart (TripPlan.daily_logs plan).
Proof.
  intros Hplan.
  destruct (calculate_trip_some _ _ _ _ _ Hplan) as (s & Hrun & -> & _).
  unfold run_schedule in Hrun.
  apply (day_loop_inv restart_inv) in Hrun; [exact (proj1 Hrun) | | | ].
  - intros s0 [H1 H2] _ Hr. unfold restart_inv, restart_day. proj. split.
    + apply no_double_restart_snoc; [exact H1 | ].
      intros Hl. exfalso. specialize (H2 Hl).
      unfold needs_restart in Hr. apply orb_true_iff in Hr.
      destruct Hr as [Hr | Hr]; btests; consts; lra.
    + intros _. reflexivity.
  - intros s0 s' e [H1 _] _ _ Hw.
    apply work_day_log in Hw. destruct Hw as (r & Hrun' & ->).
    pose proof (drive_loop_frame _ _ _ _ Hrun') as (Hlogs & _).
    unfold restart_inv, close_day. proj. autorewrite with frame.
    rewrite Hlogs. autorewrite with frame.
    change (daily_logs (start_day s0)) with (daily_logs s0). split.
    + apply no_double_restart_snoc; [exact H1 | ]. intros _. reflexivity.
    + rewrite last_is_restart_snoc. cbn [DayLog.is_restart]. discriminate.
  - split; [exact I | ]. unfold initial_locals, last_is_restart. proj.
    cbn. discriminate.
Qed.

Lemma restart_days_never_adjacent_witness :
  exists plan,
    calculate_trip 20 0%Z 1200 (207 # 4) = Some plan /\
    no_double_restart (TripPlan.daily_logs plan).
Proof.
  eexists. split; [vm_compute; reflexivity | ].
  apply (restart_days_never_adjacent 20 0%Z 1200 (207 # 4)).
  vm_compute. reflexivity.
Defined.

(** ** The figures a DayLog reports *)

Lemma round2_nonneg (x : Q) : 0 <= x -> 0 <= round2 x.
Proof.
  intros H. apply round2_mono in H.
  assert (E : round2 0 == 0) by reflexivity. lra.
Qed.

Lemma create_log_entry_nonneg (st : DutyStatus) (t : datetime) (d : Q)
    (note : string) :
  0 <= d -> 0 <= LogEntry.duration (_create_log_entry st t d note).
Proof. apply round2_nonneg. Qed.

Lemma nonneg_entries_snoc (l : list LogEntry.t) (e : LogEntry.t) :
  nonneg_entries l -> 0 <= LogEntry.duration e -> nonneg_entries (l ++ [e]).
Proof.
  intros Hl He. apply Forall_app. split; [exact Hl | ].
  constructor; [exact He | constructor].
Qed.

Lemma drive_loop_nonneg (fuel : nat) (s r : Locals) (e : LoopExit) :
  nonneg_entries (day_entries s) ->
  drive_loop fuel s = Some (r, e) -> nonneg_entries (day_entries r).
Proof.
  intros Hs.
  assert (Hstep : forall s1 s2 x, nonneg_entries (day_entries s1) ->
            drive_body s1 = (s2, x) -> nonneg_entries (day_entries s2)).
  { intros s1 s2 x H1 Hb. pose proof (drive_body_case s1) as C.
    rewrite Hb in C.
    inversion C; subst; clear C; try exact H1;
      unfold take_break, fuel_stop, do_dropoff, drive; proj;
      repeat apply nonneg_entries_snoc; try exact H1;
      apply create_log_entry_nonneg; consts; lra. }
  apply (drive_loop_inv (fun s => nonneg_entries (day_entries s))
                        (fun r _ => nonneg_entries (day_entries r)));
    [auto | | | exact Hs].
  - intros s1 s2 H1 _ Hb. eapply Hstep; eauto.
  - intros s1 s2 x H1 _ Hb. eapply Hstep; eauto.
Qed.

Lemma sum_durations_nonneg (sel : LogEntry.t -> bool) (l : list LogEntry.t) :
  nonneg_entries l -> 0 <= sum_durations sel l.
Proof.
  induction l as [ | e l IH] using rev_ind; intros H.
  - unfold sum_durations. simpl. lra.
  - apply Forall_app in H. destruct H as [Hl He]. inversion He; subst.
    rewrite sum_durations_snoc. specialize (IH Hl).
    destruct (sel e); lra.
Qed.

Lemma driving_within_on_duty (l : list LogEntry.t) :
  nonneg_entries l ->
  sum_durations is_driving l <= sum_durations is_on_duty l.
Proof.
  induction l as [ | e l IH] using rev_ind; intros H.
  - unfold sum_durations. simpl. lra.
  - apply Forall_app in H. destruct H as [Hl He]. inversion He; subst.
    rewrite !sum_durations_snoc. specialize (IH Hl).
    destruct (is_driving e) eqn:E1; destruct (is_on_duty e) eqn:E2; try lra.
    unfold is_driving in E1. unfold is_on_duty in E2.
    rewrite E1 in E2. discriminate.
Qed.

Lemma is_cent_complement (cap : Z) (x : Q) :
  is_cent x -> is_cent (inject_Z cap - x).
Proof.
  intros [z Hz]. exists (cap * 100 - z)%Z. rewrite Hz.
  unfold Qeq; simpl; lia.
Qed.

Lemma drive_loop_caps_post (n : nat) (s r : Locals) (e : LoopExit) :
  drive_loop n (do_pickup (start_day s)) = Some (r, e) -> caps_post r.
Proof.
  apply (drive_loop_inv caps_inv (fun r _ => caps_post r)).
  - intros; now apply caps_inv_exit.
  - apply caps_inv_step.
  - apply caps_inv_break.
  - apply caps_inv_start.
Qed.

Lemma work_day_report (n : nat) (tdh : Q) (s s' : Locals) (e : LoopExit) :
  work_day n tdh s = Some (s', e) ->
  exists d, daily_logs s' = daily_logs s ++ [d] /\ report_consistent d.
Proof.
  intros Hw. apply work_day_log in Hw. destruct Hw as (r & Hrun & ->).
  pose proof (drive_loop_frame _ _ _ _ Hrun) as (Hlogs & _).
  pose proof (drive_loop_caps_post _ _ _ _ Hrun) as [Hcap1 Hcap2].
  rewrite <- (rest_sum_driving tdh) in Hcap1, Hcap2.
  rewrite <- (rest_sum_on_duty tdh) in Hcap2.
  set (es := day_entries (end_of_day_rest tdh r)) in *.
  assert (Hcent : cent_entries es).
  { apply rest_cent. eapply drive_loop_cent; [ | exact Hrun].
    apply start_day_cent. }
  assert (Hnn : nonneg_entries es).
  { assert (Hr : nonneg_entries (day_entries r)).
    { eapply drive_loop_nonneg; [ | exact Hrun]. unfold do_pickup.
      destruct (pickup_done (start_day s)); unfold start_day; proj.
      - constructor.
      - apply nonneg_entries_snoc; [constructor | ].
        apply create_log_entry_nonneg. consts. lra. }
    unfold es, end_of_day_rest. destruct (_ || _); [ | exact Hr]. proj.
    apply nonneg_entries_snoc; [exact Hr | ].
    apply create_log_entry_nonneg. consts. lra. }
  pose proof (sum_durations_cent is_driving _ Hcent) as CD.
  pose proof (sum_durations_cent is_on_duty _ Hcent) as CO.
  pose proof (sum_durations_nonneg is_driving _ Hnn) as ND.
  pose proof (driving_within_on_duty _ Hnn) as DO.
  pose proof (round2_cent _ CD) as ED.
  pose proof (round2_cent _ CO) as EO.
  pose proof (round2_cent _ (is_cent_complement 11 _ CD)) as RD.
  pose proof (round2_cent _ (is_cent_complement 14 _ CO)) as RO.
  change (inject_Z 11) with MAX_DRIVING_HOURS in RD.
  change (inject_Z 14) with MAX_ON_DUTY_HOURS in RO.
  eexists. split.
  - unfold close_day. proj. autorewrite with frame. rewrite Hlogs.
    autorewrite with frame. reflexivity.
  - unfold report_consistent.
    cbn [DayLog.total_driving_hours DayLog.total_on_duty_hours
         DayLog.remaining_drive_time DayLog.remaining_on_duty_time].
    fold es. rewrite ED, EO, RD, RO. consts.
    split; [lra | ]. split; [lra | ]. split; [lra | ]. split; [lra | ].
    split; lra.
Qed.

(** X7.  Every DayLog of every plan the engine returns reports figures
    that fit together: driving hours are not negative and not more than
    the on-duty hours, the remaining drive time is 11 minus the driving
    hours, the remaining on-duty time is 14 minus the on-duty hours, and
    neither remaining time is negative. *)
Theorem day_reports_consistent (fuel : nat) (now : datetime) (miles c : Q)
    (plan : TripPlan.t) :
  calculate_trip fuel now miles c = Some plan ->
  Forall report_consistent (TripPlan.daily_logs plan).
Proof.
  intros Hplan.
  destruct (calculate_trip_some _ _ _ _ _ Hplan) as (s & Hrun & -> & _).
  unfold run_schedule in Hrun. revert Hrun.
  apply (day_loop_inv (fun s => Forall report_consistent (daily_logs s))).
  - intros s0 H0 _ _. unfold restart_day. proj.
    apply Forall_app. split; [exact H0 | ].
    constructor; [ | constructor].
    unfold report_consistent, _create_restart_log.
    cbn [DayLog.total_driving_hours DayLog.total_on_duty_hours
         DayLog.remaining_drive_time DayLog.remaining_on_duty_time].
    consts.
    split; [lra | ]. split; [lra | ]. split; [lra | ]. split; [lra | ].
    split; lra.
  - intros s0 s' e H0 _ _ Hw.
    destruct (work_day_report _ _ _ _ _ Hw) as (d & -> & Hd).
    apply Forall_app. split; [exact H0 | ].
    constructor; [exact Hd | constructor].
  - constructor.
Qed.

Lemma day_reports_consistent_witness :
  exists plan,
    calculate_trip 20 0%Z 1200 (207 # 4) = Some plan /\
    Forall report_consistent (TripPlan.daily_logs plan).
Proof.
  eexists. split; [vm_compute; reflexivity | ].
  apply (day_reports_consistent 20 0%Z 1200 (207 # 4)).
  vm_compute. reflexivity.
Defined.

(** ** Fuel stops in a day *)

Lemma one_fuel_inv_step (s s' : Locals) (x : option LoopExit) :
  one_fuel_inv s -> drive_cond s = true -> drive_body s = (s', x) ->
  one_fuel_inv s'.
Proof.
  intros (Hmax & Hdrv & Hf) Hc Hb. apply drive_cond_true in Hc.
  destruct Hc as (Hc & _ & _).
  pose proof (drive_body_case s) as C. rewrite Hb in C.
  inversion C; subst; clear C; unfold one_fuel_inv.
  - unfold take_break. proj. fuel_count. repeat split; assumption.
  - unfold fuel_stop. proj. fuel_count.
    change (String.eqb NOTE_FUEL NOTE_FUEL) with true. cbv iota.
    split; [exact Hmax | ]. split; [exact Hdrv | ].
    destruct Hf as [Hf | [_ Hf]]; [ | exfalso; consts; lra].
    right. rewrite Hf. split; [reflexivity | ]. consts. lra.
  - repeat split; assumption.
  - unfold do_dropoff, drive. proj. fuel_count.
    change (String.eqb NOTE_DROPOFF NOTE_FUEL) with false. cbv iota.
    rewrite ?Nat.add_0_r.
    split; [exact Hmax | ]. split; [consts; lra | ].
    destruct Hf as [Hf | [Hf1 Hf2]]; [left; exact Hf | right].
    split; [exact Hf1 | consts; lra].
  - unfold drive. proj. fuel_count.
    split; [exact Hmax | ]. split; [consts; lra | ].
    destruct Hf as [Hf | [Hf1 Hf2]]; [left; exact Hf | right].
    split; [exact Hf1 | consts; lra].
Qed.

Lemma one_fuel_inv_start (s : Locals) : one_fuel_inv (do_pickup (start_day s)).
Proof.
  unfold one_fuel_inv. autorewrite with frame.
  split; [unfold start_day; proj; unfold min3; qmin_cases; lra | ].
  split; [unfold start_day; proj; lra | ].
  left. unfold do_pickup. destruct (pickup_done (start_day s)); reflexivity.
Qed.

Lemma rest_fuel_segments (tdh : Q) (s : Locals) :
  fuel_segments (day_entries (end_of_day_rest tdh s))
  = fuel_segments (day_entries s).
Proof.
  unfold end_of_day_rest. destruct (_ || _); [ | reflexivity].
  proj. fuel_count. reflexivity.
Qed.

(** X8.  No DayLog of a plan the engine returns holds more than one
    fuel-stop segment: after a fuel stop, the at most 11 driving hours of
    a day cannot add up to the 1000 miles that call for the next one. *)
Theorem one_fuel_stop_a_day (fuel : nat) (now : datetime) (miles c : Q)
    (plan : TripPlan.t) :
  calculate_trip fuel now miles c = Some plan ->
  Forall (fun d => (fuel_segments (DayLog.log_entries d) <= 1)%nat)
         (TripPlan.daily_logs plan).
Proof.
  intros Hplan.
  destruct (calculate_trip_some _ _ _ _ _ Hplan) as (s & Hrun & -> & _).
  unfold run_schedule in Hrun. revert Hrun.
  apply (day_loop_inv
           (fun s => Forall (fun d => (fuel_segments (DayLog.log_entries d)
                                       <= 1)%nat) (daily_logs s))).
  - intros s0 H0 _ _. unfold restart_day. proj.
    apply Forall_app. split; [exact H0 | ].
    constructor; [cbn; lia | constructor].
  - intros s0 s' e H0 _ _ Hw.
    apply work_day_log in Hw. destruct Hw as (r & Hrun & ->).
    pose proof (drive_loop_frame _ _ _ _ Hrun) as (Hlogs & _).
    assert (Hr : one_fuel_inv r).
    { revert Hrun.
      apply (drive_loop_inv one_fuel_inv (fun r _ => one_fuel_inv r)).
      - auto.
      - intros s1 s2 H1 Hc Hb. eapply one_fuel_inv_step; eauto.
      - intros s1 s2 x H1 Hc Hb. eapply one_fuel_inv_step; eauto.
      - apply one_fuel_inv_start. }
    destruct Hr as (_ & _ & Hf).
    unfold close_day. proj. autorewrite with frame. rewrite Hlogs.
    autorewrite with frame. change (daily_logs (start_day s0))
      with (daily_logs s0).
    apply Forall_app. split; [exact H0 | ].
    constructor; [ | constructor]. cbn [DayLog.log_entries].
    rewrite rest_fuel_segments. destruct Hf as [-> | [-> _]]; lia.
  - constructor.
Qed.

Lemma one_fuel_stop_a_day_witness :
  exists plan,
    calculate_trip 20 0%Z 1200 (207 # 4) = Some plan /\
    Forall (fun d => (fuel_segments (DayLog.log_entries d) <= 1)%nat)
           (TripPlan.daily_logs plan).
Proof.
  eexists. split; [vm_compute; reflexivity | ].
  apply (one_fuel_stop_a_day 20 0%Z 1200 (207 # 4)).
  vm_compute. reflexivity.
Defined.

(** ** The plan drives the whole distance *)

Lemma driven_inv_body (s s' : Locals) (x : option LoopExit) :
  driven_inv s -> drive_cond s = true -> drive_body s = (s', x) ->
  0 <= remaining_driving_hours s' /\
  within (1 # 200) (hours_driven_today s')
         (sum_durations is_driving (day_entries s')).
Proof.
  intros ((_ & _ & _ & _ & Hrun) & Hrem & Hw) Hc Hb.
  destruct (Hrun Hc) as (Hsum & _ & _).
  pose proof (drive_body_case s) as C. rewrite Hb in C.
  pose proof (drive_duration_bounds s) as (_ & _ & _ & B4 & _).
  destruct (round2_close (drive_duration s)) as [R1 R2].
  unfold within in *.
  inversion C; subst; clear C.
  - unfold take_break. proj. sums. split; [exact Hrem | exact Hw].
  - unfold fuel_stop. proj. sums. split; [exact Hrem | exact Hw].
  - split; [exact Hrem | exact Hw].
  - unfold do_dropoff, drive. proj. sums. split; [lra | split; lra].
  - unfold drive. proj. sums. split; [lra | split; lra].
Qed.

Lemma driven_inv_start (s : Locals) :
  0 <= remaining_driving_hours s -> driven_inv (do_pickup (start_day s)).
Proof.
  intros Hrem. pose proof (caps_inv_start s) as Hcaps.
  split; [exact Hcaps | ].
  autorewrite with frame. split; [unfold start_day; proj; exact Hrem | ].
  unfold within, do_pickup.
  destruct (pickup_done (start_day s)); unfold start_day; proj; sums;
    unfold sum_durations; cbn [fold_left]; split; lra.
Qed.

Lemma drive_loop_driven (fuel : nat) (s r : Locals) (e : LoopExit) :
  driven_inv s -> drive_loop fuel s = Some (r, e) ->
  0 <= remaining_driving_hours r /\
  within (1 # 200) (hours_driven_today r)
         (sum_durations is_driving (day_entries r)).
Proof.
  apply (drive_loop_inv driven_inv
           (fun r _ => 0 <= remaining_driving_hours r /\
                       within (1 # 200) (hours_driven_today r)
                         (sum_durations is_driving (day_entries r)))).
  - intros s0 (_ & H1 & H2) _. split; assumption.
  - intros s0 s1 H0 Hc Hb. split; [ | eapply driven_inv_body; eauto].
    destruct H0 as (Hcaps & _). eapply caps_inv_step; eauto.
  - intros s0 s1 x H0 Hc Hb. eapply driven_inv_body; eauto.
Qed.

Lemma reported_driving_snoc (logs : list DayLog.t) (d : DayLog.t) :
  reported_driving (logs ++ [d])
  = reported_driving logs + DayLog.total_driving_hours d.
Proof. unfold reported_driving. rewrite fold_left_app. reflexivity. Qed.

(** A work day reports, to half a hundredth, the hours it takes from the
    hours that remain. *)
Lemma work_day_driven (n : nat) (tdh : Q) (s s' : Locals) (e : LoopExit) :
  0 <= remaining_driving_hours s ->
  work_day n tdh s = Some (s', e) ->
  exists d,
    daily_logs s' = daily_logs s ++ [d] /\
    0 <= remaining_driving_hours s' /\
    within (1 # 200)
           (remaining_driving_hours s - remaining_driving_hours s')
           (DayLog.total_driving_hours d).
Proof.
  intros Hrem Hw. apply work_day_log in Hw. destruct Hw as (r & Hrun & ->).
  pose proof (drive_loop_frame _ _ _ _ Hrun) as (Hlogs & _).
  destruct (drive_loop_driven _ _ _ _ (driven_inv_start s Hrem) Hrun)
    as (Hrem' & Hw).
  pose proof (drive_loop_hours _ _ _ _ _ (hours_inv_start s) Hrun)
    as (Hh & _).
  assert (Hcent : cent_entries (day_entries (end_of_day_rest tdh r))).
  { apply rest_cent. eapply drive_loop_cent; [ | exact Hrun].
    apply start_day_cent. }
  pose proof (round2_cent _ (sum_durations_cent is_driving _ Hcent)) as ED.
  rewrite (rest_sum_driving tdh) in ED.
  eexists. split; [ | split].
  - unfold close_day. proj. autorewrite with frame. rewrite Hlogs.
    autorewrite with frame. reflexivity.
  - unfold close_day. proj. autorewrite with frame. exact Hrem'.
  - unfold close_day. proj. autorewrite with frame.
    cbn [DayLog.total_driving_hours]. rewrite (rest_sum_driving tdh) at 1.
    unfold within in *. rewrite ED. split; lra.
Qed.

Lemma run_schedule_distance (fuel : nat) (now : datetime) (miles tdh c : Q)
    (s : Locals) :
  0 <= tdh ->
  run_schedule fuel now miles tdh c = Some s -> distance_inv tdh s.
Proof.
  intros Htdh. unfold run_schedule.
  apply (day_loop_inv (distance_inv tdh)).
  - intros s0 (H1 & H2 & H3) _ _. unfold distance_inv, within, restart_day.
    proj. rewrite length_app, reported_driving_snoc. cbn [List.length].
    rewrite qcount_succ.
    unfold _create_restart_log. cbn [DayLog.total_driving_hours].
    split; [exact H1 | split; lra].
  - intros s0 s' e (H1 & H2 & H3) _ _ Hw.
    destruct (work_day_driven _ _ _ _ _ H1 Hw) as (d & Hd & Hrem & D1 & D2).
    unfold distance_inv, within. rewrite Hd.
    rewrite length_app, reported_driving_snoc. cbn [List.length].
    rewrite qcount_succ. split; [exact Hrem | split; lra].
  - unfold distance_inv, within, initial_locals. proj.
    unfold reported_driving, qcount. cbn [fold_left List.length Z.of_nat].
    change (inject_Z 0) with 0. split; [lra | split; lra].
Qed.

(** X9.  A plan the engine returns drives the whole trip: the driving
    hours its DayLogs report add up to [total_miles / 60], to within half
    a hundredth of an hour for each day of the plan (each day's figure is
    a sum of durations rounded to hundredths). *)
Theorem plan_drives_the_distance (fuel : nat) (now : datetime) (miles c : Q)
    (plan : TripPlan.t) :
  0 <= miles ->
  calculate_trip fuel now miles c = Some plan ->
  within (inject_Z (TripPlan.actual_days plan) * (1 # 200))
         (miles / AVG_SPEED_MPH)
         (reported_driving (TripPlan.daily_logs plan)).
Proof.
  intros Hm Hplan.
  destruct (calculate_trip_some _ _ _ _ _ Hplan) as (s & Hrun & Hlogs & _).
  destruct (calculate_trip_days _ _ _ _ _ Hplan) as (_ & Hdays & _).
  assert (Htdh : 0 <= miles / AVG_SPEED_MPH).
  { apply Qle_shift_div_l; [consts; lra | lra]. }
  destruct (run_schedule_distance _ _ _ _ _ _ Htdh Hrun) as (H1 & H2 & H3).
  pose proof (day_loop_exit_hours _ _ _ _ _ Hrun) as H0.
  rewrite Hdays, Hlogs. unfold within. fold (qcount (List.length (daily_logs s))).
  split; lra.
Qed.

Lemma plan_drives_the_distance_witness :
  exists plan,
    calculate_trip 20 0%Z 1200 (207 # 4) = Some plan /\
    within (inject_Z (TripPlan.actual_days plan) * (1 # 200))
           (1200 / AVG_SPEED_MPH)
           (reported_driving (TripPlan.daily_logs plan)).
Proof.
  eexists. split; [vm_compute; reflexivity | ].
  apply (plan_drives_the_distance 20 0%Z 1200 (207 # 4)).
  - vm_compute. discriminate.
  - vm_compute. reflexivity.
Defined.

(** ** The grid of the ELD log *)

Lemma clip_24_cases (x : Q) :
  x <= 0 /\ ELDLogGenerator.clip_24 x == 0
  \/ 0 <= x /\ x <= 24 /\ ELDLogGenerator.clip_24 x == x
  \/ 24 <= x /\ ELDLogGenerator.clip_24 x == 24.
Proof.
  unfold ELDLogGenerator.clip_24.
  destruct (Q.min_spec 24 x) as [[H1 E1] | [H1 E1]];
  destruct (Q.max_spec 0 (Qmin 24 x)) as [[H2 E2] | [H2 E2]];
    rewrite E2; rewrite E1 in *.
  - right. right. split; [lra | reflexivity].
  - exfalso. lra.
  - right. left. split; [lra | split; [lra | reflexivity]].
  - left. split; [lra | reflexivity].
Qed.

Lemma clip_24_bounds (x : Q) :
  0 <= ELDLogGenerator.clip_24 x /\ ELDLogGenerator.clip_24 x <= 24.
Proof.
  destruct (clip_24_cases x) as [[_ E] | [(H1 & H2 & E) | [_ E]]];
    rewrite E; split; lra.
Qed.

Lemma clip_24_mono (x y : Q) :
  x <= y -> ELDLogGenerator.clip_24 x <= ELDLogGenerator.clip_24 y.
Proof.
  intros H.
  destruct (clip_24_cases x) as [[Hx Ex] | [(Hx & Hx' & Ex) | [Hx Ex]]];
  destruct (clip_24_cases y) as [[Hy Ey] | [(Hy & Hy' & Ey) | [Hy Ey]]];
    rewrite Ex, Ey; lra.
Qed.

Lemma round2_clip_bounds (x : Q) :
  0 <= round2 (ELDLogGenerator.clip_24 x)
  /\ round2 (ELDLogGenerator.clip_24 x) <= 24.
Proof.
  destruct (clip_24_bounds x) as [H0 H24].
  apply round2_mono in H0, H24.
  assert (E0 : round2 0 == 0) by reflexivity.
  assert (E24 : round2 24 == 24) by reflexivity.
  split; lra.
Qed.

Lemma hours_from_mono (ds t1 t2 : datetime) :
  (t1 <= t2)%Z ->
  ELDLogGenerator.hours_from ds t1 <= ELDLogGenerator.hours_from ds t2.
Proof.
  intros H. unfold ELDLogGenerator.hours_from.
  apply Qmult_le_compat_r; [ | unfold Qle; simpl; lia].
  rewrite <- Zle_Qle. lia.
Qed.

Lemma process_entry_in_grid (ds : datetime) (e : LogEntry.t) :
  in_grid (ELDLogGenerator.process_entry ds e).
Proof.
  unfold in_grid, ELDLogGenerator.process_entry.
  cbn [ELDLogGenerator.start_hours ELDLogGenerator.end_hours].
  pose proof (round2_clip_bounds
                (ELDLogGenerator.hours_from ds (LogEntry.start_time e))).
  pose proof (round2_clip_bounds
                (ELDLogGenerator.hours_from ds (LogEntry.end_time e))).
  tauto.
Qed.

(** X10.  Whatever the day log, every entry [generate_json_for_frontend]
    returns has its start and end hour on the 24-hour grid, between 0 and
    24, also for segments that begin before the day's midnight or end
    after the next. *)
Theorem grid_hours_within_day (day_log : DayLog.t) :
  Forall in_grid
    (ELDLogGenerator.entries
       (ELDLogGenerator.generate_json_for_frontend day_log)).
Proof.
  unfold ELDLogGenerator.generate_json_for_frontend.
  cbn [ELDLogGenerator.entries]. apply Forall_map.
  apply Forall_forall. intros e _. apply process_entry_in_grid.
Qed.

Lemma grid_chained_of_chain (ds t : datetime) (l : list LogEntry.t) :
  chained t l -> grid_chained (map (ELDLogGenerator.process_entry ds) l).
Proof.
  revert t. induction l as [ | e l IH]; intros t H; [exact I | ].
  destruct H as (H1 & H2 & H3). cbn [map grid_chained].
  split; [ | split].
  - unfold ELDLogGenerator.process_entry.
    cbn [ELDLogGenerator.start_hours ELDLogGenerator.end_hours].
    apply round2_mono, clip_24_mono, hours_from_mono. exact H2.
  - destruct l as [ | e' l]; [exact I | ].
    destruct H3 as (H4 & _). cbn [map].
    unfold ELDLogGenerator.process_entry.
    cbn [ELDLogGenerator.start_hours ELDLogGenerator.end_hours].
    rewrite H4. reflexivity.
  - eapply IH. exact H3.
Qed.

Lemma days_chained_each (t : datetime) (logs : list DayLog.t) :
  days_chained t logs ->
  Forall (fun d => chained (DayLog.start_time d) (DayLog.log_entries d)) logs.
Proof.
  revert t. induction logs as [ | d logs IH]; intros t H; [constructor | ].
  destruct H as (H1 & H2 & _ & H4). constructor.
  - rewrite H1. exact H2.
  - eapply IH. exact H4.
Qed.

(** X11.  For every DayLog of a plan the engine returns, the grid entries
    of [generate_json_for_frontend] follow one another on the grid: no
    entry ends before it starts, and each starts at the hour at which the
    one before ends. *)
Theorem grid_of_plan_chained (fuel : nat) (now : datetime) (miles c : Q)
    (plan : TripPlan.t) :
  calculate_trip fuel now miles c = Some plan ->
  Forall (fun d => grid_chained
                     (ELDLogGenerator.entries
                        (ELDLogGenerator.generate_json_for_frontend d)))
         (TripPlan.daily_logs plan).
Proof.
  intros Hplan.
  destruct (calculate_trip_some _ _ _ _ _ Hplan) as (s & Hrun & -> & _).
  pose proof (run_schedule_clock _ _ _ _ _ _ Hrun) as [Hc _].
  apply days_chained_each in Hc.
  eapply Forall_impl; [ | exact Hc].
  intros d Hd. unfold ELDLogGenerator.generate_json_for_frontend.
  cbn [ELDLogGenerator.entries].
  eapply grid_chained_of_chain. exact Hd.
Qed.

Lemma grid_of_plan_chained_witness :
  exists plan,
    calculate_trip 20 0%Z 300 0 = Some plan /\
    Forall (fun d => grid_chained
                       (ELDLogGenerator.entries
                          (ELDLogGenerator.generate_json_for_frontend d)))
           (TripPlan.daily_logs plan).
Proof.
  eexists. split; [vm_compute; reflexivity | ].
  apply (grid_of_plan_chained 20 0%Z 300 0). vm_compute. reflexivity.
Defined.

Lemma hours_from_next_day (ds t : datetime) :
  (ds + US_PER_DAY <= t)%Z -> 24 <= ELDLogGenerator.hours_from ds t.
Proof.
  intros H. unfold ELDLogGenerator.hours_from.
  apply Qle_shift_div_l; [reflexivity | ].
  assert (E : 24 * inject_Z US_PER_HOUR == inject_Z US_PER_DAY) by reflexivity.
  rewrite E. rewrite <- Zle_Qle. lia.
Qed.

Lemma clip_24_late (x : Q) : 24 <= x -> round2 (ELDLogGenerator.clip_24 x) == 24.
Proof.
  intros H.
  destruct (clip_24_cases x) as [[Hx E] | [(Hx & Hx' & E) | [Hx E]]];
    rewrite E; try (exfalso; lra); try reflexivity.
  assert (E' : x == 24) by lra. rewrite E'. reflexivity.
Qed.

(** X12.  A segment that starts at or after the midnight that ends the
    day of the log is not carried over: [generate_json_for_frontend]
    gives it start hour 24 and end hour 24, a grid entry of no width
    that keeps the segment's full duration. *)
Theorem after_midnight_is_flat (day_log : DayLog.t) (i : nat)
    (e : LogEntry.t) :
  nth_error (DayLog.log_entries day_log) i = Some e ->
  (ELDLogGenerator.day_start_of day_log + US_PER_DAY
   <= LogEntry.start_time e)%Z ->
  (LogEntry.start_time e <= LogEntry.end_time e)%Z ->
  exists g,
    nth_error (ELDLogGenerator.entries
                 (ELDLogGenerator.generate_json_for_frontend day_log)) i
    = Some g /\
    ELDLogGenerator.start_hours g == 24 /\
    ELDLogGenerator.end_hours g == 24 /\
    ELDLogGenerator.duration g = LogEntry.duration e.
Proof.
  intros Hi Hs He.
  exists (ELDLogGenerator.process_entry
            (ELDLogGenerator.day_start_of day_log) e).
  split; [ | split; [ | split]].
  - unfold ELDLogGenerator.generate_json_for_frontend.
    cbn [ELDLogGenerator.entries]. rewrite nth_error_map, Hi. reflexivity.
  - apply clip_24_late, hours_from_next_day. exact Hs.
  - apply clip_24_late, hours_from_next_day. lia.
  - reflexivity.
Qed.

Lemma after_midnight_is_flat_witness :
  exists plan d e,
    calculate_trip 20 0%Z 660 70 = Some plan /\
    nth_error (TripPlan.daily_logs plan) 1 = Some d /\
    nth_error (DayLog.log_entries d) 6 = Some e /\
    LogEntry.status e = D /\
    exists g,
      nth_error (ELDLogGenerator.entries
                   (ELDLogGenerator.generate_json_for_frontend d)) 6
      = Some g /\
      ELDLogGenerator.start_hours g == 24 /\
      ELDLogGenerator.end_hours g == 24 /\
      ELDLogGenerator.duration g = LogEntry.duration e.
Proof.
  eexists. eexists. eexists.
  split; [vm_compute; reflexivity | ].
  split; [vm_compute; reflexivity | ].
  split; [vm_compute; reflexivity | ].
  split; [vm_compute; reflexivity | ].
  apply (after_midnight_is_flat _ 6 _).
  - vm_compute. reflexivity.
  - vm_compute. discriminate.
  - vm_compute. discriminate.
Defined.

(** X13.  The grid of a restart day never shows the whole restart: of the
    34 hours of its one segment, [generate_json_for_frontend] keeps what
    lies before the next midnight, so the entry ends at hour 24. *)
Theorem restart_grid_cut_at_midnight (k : Z) (t : datetime) :
  exists g,
    ELDLogGenerator.entries
      (ELDLogGenerator.generate_json_for_frontend (_create_restart_log k t))
    = [g] /\
    ELDLogGenerator.duration g == RESTART_OFF_DUTY_HOURS /\
    0 <= ELDLogGenerator.start_hours g /\
    ELDLogGenerator.end_hours g == 24.
Proof.
  eexists. split; [reflexivity | ].
  cbn [ELDLogGenerator.duration ELDLogGenerator.start_hours
       ELDLogGenerator.end_hours ELDLogGenerator.process_entry].
  split; [reflexivity | ]. split.
  - apply round2_clip_bounds.
  - apply clip_24_late, hours_from_next_day.
    unfold ELDLogGenerator.day_start_of, _create_restart_log.
    cbn [DayLog.date LogEntry.end_time].
    assert (E : timedelta_hours RESTART_OFF_DUTY_HOURS = 122400000000%Z)
      by (vm_compute; reflexivity).
    rewrite E. unfold date_of.
    pose proof (Z.mul_div_le t US_PER_DAY ltac:(reflexivity)).
    change US_PER_DAY with 86400000000%Z in *. lia.
Qed.

(** ** The status line of the drawing *)

Lemma lane_on_graph (x : Q) (st : DutyStatus) :
  on_graph (ELDLogGenerator.MARGIN_LEFT
            + ELDLogGenerator.clip_24 x * ELDLogGenerator.hour_width,
            ELDLogGenerator.lane_y st).
Proof.
  destruct (clip_24_bounds x) as [H0 H24].
  unfold on_graph, ELDLogGenerator.hour_width, ELDLogGenerator.GRAPH_WIDTH,
    ELDLogGenerator.WIDTH, ELDLogGenerator.MARGIN_LEFT,
    ELDLogGenerator.MARGIN_RIGHT. cbn [fst snd].
  split; [ | split].
  - assert (0 <= ELDLogGenerator.clip_24 x * ((1200 - 100 - 50) / 24)).
    { apply Qmult_le_0_compat; [exact H0 | unfold Qle; simpl; lia]. }
    lra.
  - assert (E : (1200 - 100 - 50) / 24 == 175 # 4) by reflexivity.
    rewrite E. lra.
  - destruct st; [left | right; left | right; right; left | right; right; right];
      reflexivity.
Qed.

Lemma status_path_rest (ds : datetime) (l : list LogEntry.t)
    (ps : DutyStatus) (x : Q) :
  Forall is_line_to (ELDLogGenerator.status_path ds (Some ps) l) /\
  rectilinear (x, ELDLogGenerator.lane_y ps)
    (ELDLogGenerator.status_path ds (Some ps) l) /\
  Forall on_graph (map cmd_point (ELDLogGenerator.status_path ds (Some ps) l)).
Proof.
  revert ps x. induction l as [ | e l IH]; intros ps x.
  - cbn. repeat split; constructor.
  - cbn [ELDLogGenerator.status_path].
    set (x1 := ELDLogGenerator.MARGIN_LEFT + _ * _).
    set (x2 := ELDLogGenerator.MARGIN_LEFT + _ * _).
    destruct (IH (LogEntry.status e) x2) as (I1 & I2 & I3).
    destruct (DutyStatus_eqb (LogEntry.status e) ps) eqn:E.
    + assert (Es : LogEntry.status e = ps)
        by (destruct (LogEntry.status e), ps; (reflexivity || discriminate)).
      cbn [app map]. split; [ | split].
      * constructor; [exact I | exact I1].
      * cbn [rectilinear cmd_point fst snd]. split; [ | exact I2].
        right. rewrite Es. reflexivity.
      * constructor; [apply lane_on_graph | exact I3].
    + cbn [app map]. split; [ | split].
      * repeat (constructor; [exact I | ]). exact I1.
      * cbn [rectilinear cmd_point fst snd].
        split; [right; reflexivity | ]. split; [left; reflexivity | ].
        split; [right; reflexivity | exact I2].
      * repeat (constructor; [apply lane_on_graph | ]). exact I3.
Qed.

(** X14.  [_draw_status_lines] draws nothing for a day log without
    entries; otherwise its path starts with its only move-to command,
    every later command is a line-to that runs along one axis (the status
    line is made of horizontal and vertical strokes), and every point of
    the path is on the graph: between its left and right edge, at the
    middle height of one of the four lanes. *)
Theorem status_line_well_formed (day_log : DayLog.t) :
  match ELDLogGenerator._draw_status_lines day_log with
  | None => DayLog.log_entries day_log = []
  | Some path => DayLog.log_entries day_log <> [] /\ status_line_ok path
  end.
Proof.
  unfold ELDLogGenerator._draw_status_lines.
  destruct (DayLog.log_entries day_log) as [ | e l]; [reflexivity | ].
  split; [discriminate | ].
  cbn [ELDLogGenerator.status_path app].
  set (x1 := ELDLogGenerator.MARGIN_LEFT + _ * _).
  set (x2 := ELDLogGenerator.MARGIN_LEFT + _ * _).
  destruct (status_path_rest (ELDLogGenerator.day_start_of day_log) l
              (LogEntry.status e) x2) as (I1 & I2 & I3).
  unfold status_line_ok. split; [ | split].
  - constructor; [exact I | exact I1].
  - cbn [rectilinear cmd_point fst snd]. split; [right; reflexivity | exact I2].
  - cbn [map]. constructor; [apply lane_on_graph | ].
    constructor; [apply lane_on_graph | exact I3].
Qed.

Lemma abscissa_mono (ds t1 t2 : datetime) :
  (t1 <= t2)%Z -> abscissa ds t1 <= abscissa ds t2.
Proof.
  intros H. unfold abscissa.
  pose proof (clip_24_mono _ _ (hours_from_mono ds _ _ H)) as Hc.
  assert (Hw : 0 <= ELDLogGenerator.hour_width)
    by (unfold Qle; simpl; lia).
  pose proof (Qmult_le_compat_r _ _ _ Hc Hw). lra.
Qed.

Lemma status_path_forward (ds t : datetime) (l : list LogEntry.t)
    (st : DutyStatus) :
  chained t l ->
  runs_forward (abscissa ds t) (ELDLogGenerator.status_path ds (Some st) l).
Proof.
  revert t st. induction l as [ | e l IH]; intros t st H; [exact I | ].
  destruct H as (H1 & H2 & H3).
  cbn [ELDLogGenerator.status_path].
  fold (abscissa ds (LogEntry.start_time e)).
  fold (abscissa ds (LogEntry.end_time e)).
  pose proof (abscissa_mono ds _ _ H2) as Hm.
  specialize (IH _ (LogEntry.status e) H3).
  rewrite H1 in *.
  destruct (DutyStatus_eqb (LogEntry.status e) st);
    cbn [app runs_forward cmd_point fst].
  - split; [exact Hm | exact IH].
  - split; [lra | ]. split; [lra | ]. split; [exact Hm | exact IH].
Qed.

Lemma ends_with_rest_not_empty (d : DayLog.t) :
  ends_with_rest d -> DayLog.log_entries d <> [].
Proof. intros (es & r & E & _). rewrite E. now destruct es. Qed.

Lemma ends_with_dropoff_not_empty (d : DayLog.t) :
  ends_with_dropoff d -> DayLog.log_entries d <> [].
Proof. intros (es & r & E & _). rewrite E. now destruct es. Qed.

(** No day of the schedule is without entries. *)
Lemma run_schedule_days_not_empty (fuel : nat) (now : datetime)
    (miles tdh c : Q) (s : Locals) :
  run_schedule fuel now miles tdh c = Some s ->
  Forall (fun d => DayLog.log_entries d <> []) (daily_logs s).
Proof.
  intros Hrun.
  assert (Hwork : Forall (fun d => DayLog.is_restart d = false ->
                                   DayLog.log_entries d <> [])
                         (daily_logs s)).
  { destruct (run_schedule_closing _ _ _ _ _ _ Hrun)
      as (_ & _ & _ & [[_ H] | (_ & _ & init & last & E & _ & Hl & Hi)]).
    - eapply Forall_impl; [ | exact H].
      intros d Hd Hr. apply ends_with_rest_not_empty. now apply Hd.
    - rewrite E. apply Forall_app. split.
      + eapply Forall_impl; [ | exact Hi].
        intros d Hd Hr. apply ends_with_rest_not_empty. now apply Hd.
      + constructor; [ | constructor].
        intros _. now apply ends_with_dropoff_not_empty. }
  assert (Hrestart : Forall (fun d => DayLog.is_restart d = true ->
                                      DayLog.log_entries d <> [])
                            (daily_logs s)).
  { revert Hrun. unfold run_schedule.
    apply (day_loop_inv
             (fun s => Forall (fun d => DayLog.is_restart d = true ->
                                        DayLog.log_entries d <> [])
                              (daily_logs s))).
    - intros s0 H0 _ _. unfold restart_day. proj.
      apply Forall_app. split; [exact H0 | ].
      constructor; [ | constructor]. intros _. discriminate.
    - intros s0 s' e H0 _ _ Hw.
      apply work_day_log in Hw. destruct Hw as (r & Hr & ->).
      pose proof (drive_loop_frame _ _ _ _ Hr) as (Hlogs & _).
      unfold close_day. proj. apply Forall_app. split.
      + autorewrite with frame. rewrite Hlogs. autorewrite with frame.
        exact H0.
      + constructor; [ | constructor]. cbn [DayLog.is_restart]. discriminate.
    - constructor. }
  rewrite Forall_forall in *. intros d Hin.
  destruct (DayLog.is_restart d) eqn:E.
  - now apply Hrestart.
  - now apply Hwork.
Qed.

(** X15.  For every DayLog of a plan the engine returns,
    [_draw_status_lines] draws a path, and the path runs from left to
    right: no command of it lies to the left of the one before. *)
Theorem status_line_of_plan_runs_forward (fuel : nat) (now : datetime)
    (miles c : Q) (plan : TripPlan.t) :
  calculate_trip fuel now miles c = Some plan ->
  Forall (fun d =>
            exists x y rest,
              ELDLogGenerator._draw_status_lines d
              = Some (ELDLogGenerator.M x y :: rest) /\
              runs_forward x rest)
         (TripPlan.daily_logs plan).
Proof.
  intros Hplan.
  destruct (calculate_trip_some _ _ _ _ _ Hplan) as (s & Hrun & -> & _).
  pose proof (run_schedule_clock _ _ _ _ _ _ Hrun) as [Hc _].
  pose proof (run_schedule_days_not_empty _ _ _ _ _ _ Hrun) as Hne.
  apply days_chained_each in Hc.
  rewrite Forall_forall in *. intros d Hin.
  specialize (Hc d Hin). specialize (Hne d Hin).
  unfold ELDLogGenerator._draw_status_lines.
  destruct (DayLog.log_entries d) as [ | e l]; [contradiction | ].
  destruct Hc as (H1 & H2 & H3).
  cbn [ELDLogGenerator.status_path app].
  fold (abscissa (ELDLogGenerator.day_start_of d) (LogEntry.start_time e)).
  fold (abscissa (ELDLogGenerator.day_start_of d) (LogEntry.end_time e)).
  eexists. eexists. eexists. split; [reflexivity | ].
  cbn [runs_forward cmd_point fst]. split.
  - apply abscissa_mono. exact H2.
  - eapply status_path_forward. exact H3.
Qed.

Lemma status_line_of_plan_runs_forward_witness :
  exists plan,
    calculate_trip 20 0%Z 300 0 = Some plan /\
    Forall (fun d =>
              exists x y rest,
                ELDLogGenerator._draw_status_lines d
                = Some (ELDLogGenerator.M x y :: rest) /\
                runs_forward x rest)
           (TripPlan.daily_logs plan).
Proof.
  eexists. split; [vm_compute; reflexivity | ].
  apply (status_line_of_plan_runs_forward 20 0%Z 300 0).
  vm_compute. reflexivity.
Defined.

(** ** The route service *)

Lemma prefix_spec (sub s : string) :
  String.prefix sub s = true <-> exists post, s = (sub ++ post)%string.
Proof.
  revert s. induction sub as [ | c sub IH]; intros s; simpl.
  - split; [intros _; exists s; reflexivity | intros _; destruct s; reflexivity].
  - destruct s as [ | c' s]; simpl.
    + split; [discriminate | intros [post H]; discriminate].
    + destruct (Ascii.ascii_dec c c') as [-> | NE].
      * rewrite IH. split; intros [post H]; exists post.
        -- now rewrite H.
        -- now inversion H.
      * split; [discriminate | ]. intros [post H]. inversion H. congruence.
Qed.

(** [contains] is the substring test of Python's [in]. *)
Lemma contains_spec (sub s : string) :
  RouteService.contains sub s = true <-> occurs sub s.
Proof.
  induction s as [ | c s IH].
  - cbn [RouteService.contains]. rewrite orb_false_r, prefix_spec.
    split.
    + intros [post H]. exists EmptyString, post. exact H.
    + intros (pre & post & H). destruct pre; simpl in H.
      * exists post. exact H.
      * discriminate.
  - cbn [RouteService.contains]. rewrite orb_true_iff, prefix_spec, IH.
    split.
    + intros [[post H] | (pre & post & H)].
      * exists EmptyString, post. exact H.
      * exists (String c pre), post. simpl. now rewrite H.
    + intros (pre & post & H). destruct pre as [ | c' pre]; simpl in H.
      * left. exists post. exact H.
      * right. exists pre, post. now inversion H.
Qed.

Lemma first_known_spec (db : list (string * RouteService.Coord))
    (location_lower : string) :
  (Forall (fun entry => ~ occurs (fst entry) location_lower) db /\
   RouteService.first_known db location_lower = RouteService.default_coords)
  \/
  (exists before city coords after,
     db = before ++ (city, coords) :: after /\
     Forall (fun entry => ~ occurs (fst entry) location_lower) before /\
     occurs city location_lower /\
     RouteService.first_known db location_lower = coords).
Proof.
  induction db as [ | [city coords] db IH]; cbn [RouteService.first_known].
  - left. split; [constructor | reflexivity].
  - destruct (RouteService.contains city location_lower) eqn:E.
    + right. exists [], city, coords, db.
      split; [reflexivity | ]. split; [constructor | ].
      split; [now apply contains_spec | reflexivity].
    + assert (N : ~ occurs city location_lower).
      { intros H. apply contains_spec in H. congruence. }
      destruct IH as [[H1 H2] | (before & c & xy & after & H1 & H2 & H3 & H4)].
      * left. split; [constructor; [exact N | exact H1] | exact H2].
      * right. exists ((city, coords) :: before), c, xy, after.
        split; [now rewrite H1 | ].
        split; [constructor; [exact N | exact H2] | ].
        split; [exact H3 | exact H4].
Qed.

(** X16.  [_get_approximate_coords] answers every location: with the
    coordinates of the first city of its table whose name occurs in the
    lower-cased location, and with the centre of the US when no name of
    the table occurs in it. *)
Theorem approximate_coords_first_match (lower : string -> string)
    (location : string) :
  (Forall (fun entry => ~ occurs (fst entry) (lower location))
          RouteService.locations_db /\
   RouteService._get_approximate_coords lower location
   = RouteService.default_coords)
  \/
  (exists before city coords after,
     RouteService.locations_db = before ++ (city, coords) :: after /\
     Forall (fun entry => ~ occurs (fst entry) (lower location)) before /\
     occurs city (lower location) /\
     RouteService._get_approximate_coords lower location = coords).
Proof. apply first_known_spec. Qed.

(** *** Distances *)

Lemma math_sqrt_0 : RouteService.math_sqrt 0 = RouteService.Ok 0%R.
Proof.
  unfold RouteService.math_sqrt.
  destruct (Rlt_dec 0 0) as [H | _]; [exfalso; Lra.lra | ].
  now rewrite sqrt_0.
Qed.

Lemma math_asin_0 : RouteService.math_asin 0 = RouteService.Ok 0%R.
Proof.
  unfold RouteService.math_asin.
  destruct (Rlt_dec 0 (-1)) as [H | _]; [exfalso; Lra.lra | ].
  destruct (Rlt_dec 1 0) as [H | _]; [exfalso; Lra.lra | ].
  now rewrite asin_0.
Qed.

Lemma haversine_same_point (p : RouteService.Coord) :
  RouteService._haversine_distance p p = RouteService.Ok 0%R.
Proof.
  destruct p as [lon lat]. unfold RouteService._haversine_distance.
  cbv zeta.
  set (x := RouteService.math_radians (Q2R lon)).
  set (y := RouteService.math_radians (Q2R lat)).
  assert (E : (sin ((y - y) / 2) ^ 2 + cos y * cos y * sin ((x - x) / 2) ^ 2
               = 0)%R).
  { replace ((y - y) / 2)%R with 0%R by Lra.lra.
    replace ((x - x) / 2)%R with 0%R by Lra.lra.
    rewrite sin_0. ring. }
  rewrite E, math_sqrt_0. cbn [RouteService.bind].
  rewrite math_asin_0. cbn [RouteService.bind].
  f_equal. ring.
Qed.

Lemma round_half_even_R_0 : RouteService.round_half_even_R 0 = 0%Z.
Proof.
  unfold RouteService.round_half_even_R.
  assert (E : Int_part 0 = 0%Z).
  { unfold Int_part. rewrite <- (tech_up 0 1); [reflexivity | | ];
      simpl; Lra.lra. }
  rewrite E. cbv zeta.
  destruct (total_order_T (0 - IZR 0) (1 / 2)) as [[H | H] | H];
    [reflexivity | exfalso | exfalso]; simpl in H; Lra.lra.
Qed.

Lemma round1_R_0 : RouteService.round1_R 0 == 0.
Proof.
  unfold RouteService.round1_R. rewrite Rmult_0_l, round_half_even_R_0.
  reflexivity.
Qed.

Lemma round2_R_0 : RouteService.round2_R 0 == 0.
Proof.
  unfold RouteService.round2_R. rewrite Rmult_0_l, round_half_even_R_0.
  reflexivity.
Qed.

(** The loop of the fallback over coordinates that are all the same. *)
Lemma fallback_loop_same_place (p : RouteService.Coord)
    (coordinates : list RouteService.Coord)
    (segments : list RouteService.Segment) :
  Forall (fun c => c = p) coordinates ->
  Forall (fun sg => RouteService.distance_miles sg == 0) segments ->
  exists segments',
    RouteService.fallback_loop coordinates 0%R segments
    = RouteService.Ok (0%R, segments') /\
    Forall (fun sg => RouteService.distance_miles sg == 0) segments' /\
    List.length segments'
    = (List.length segments + (List.length coordinates - 1))%nat.
Proof.
  revert segments.
  induction coordinates as [ | c1 coordinates IH]; intros segments Hc Hs.
  - exists segments. cbn. split; [reflexivity | ]. split; [exact Hs | lia].
  - destruct coordinates as [ | c2 coordinates].
    + exists segments. cbn. split; [reflexivity | ]. split; [exact Hs | lia].
    + inversion Hc as [ | ? ? E1 Hc']; subst.
      inversion Hc' as [ | ? ? E2 Hc'']; subst.
      cbn [RouteService.fallback_loop].
      rewrite haversine_same_point. cbn [RouteService.bind].
      assert (E : (0 + 0 * 0.621371 * 1.2 = 0)%R) by Lra.lra.
      assert (E' : (0 * 0.621371 * 1.2 = 0)%R) by Lra.lra.
      rewrite E, E'.
      destruct (IH (segments ++
                      [ {| RouteService.seg_start := p;
                           RouteService.seg_end := p;
                           RouteService.distance_miles :=
                             RouteService.round1_R 0 |} ]) Hc')
        as (segments' & H1 & H2 & H3).
      { apply Forall_app. split; [exact Hs | ].
        constructor; [apply round1_R_0 | constructor]. }
      exists segments'. split; [exact H1 | ]. split; [exact H2 | ].
      rewrite H3, length_app. cbn [List.length]. lia.
Qed.

(** A route between locations that are all looked up to the same
    coordinates. *)
Lemma calculate_route_same_place (lower : string -> string)
    (locations : list string) (p : RouteService.Coord) :
  (2 <= List.length locations)%nat ->
  Forall (fun l => RouteService._get_approximate_coords lower l = p)
         locations ->
  exists route_data,
    RouteService.calculate_route lower locations
    = RouteService.Ok route_data /\
    RouteService.total_miles route_data == 0 /\
    RouteService.total_duration_hours route_data == 0 /\
    Forall (fun sg => RouteService.distance_miles sg == 0)
           (RouteService.segments route_data) /\
    List.length (RouteService.segments route_data)
    = (List.length locations - 1)%nat.
Proof.
  intros Hlen Hsame. unfold RouteService.calculate_route.
  rewrite length_map.
  assert (Hl : (List.length locations <? 2)%nat = false)
    by (apply Nat.ltb_ge; exact Hlen).
  rewrite Hl.
  assert (Hc : Forall (fun c => c = p)
                 (map (RouteService.geocode_address lower) locations)).
  { apply Forall_map. exact Hsame. }
  destruct (fallback_loop_same_place p _ [] Hc (Forall_nil _))
    as (segments' & H1 & H2 & H3).
  unfold RouteService._calculate_route_fallback. rewrite H1.
  cbn [RouteService.bind].
  eexists. split; [reflexivity | ].
  cbn [RouteService.total_miles RouteService.total_duration_hours
       RouteService.segments].
  split; [apply round1_R_0 | ].
  split.
  - assert (E : (0 / 60 = 0)%R) by Lra.lra. rewrite E. apply round2_R_0.
  - split; [exact H2 | ]. rewrite H3, length_map. reflexivity.
Qed.

(** X17.  When all the locations of a route (two or more) are looked up
    to the same coordinates, as all addresses that name no city of the
    table are, [calculate_route] returns a route of zero miles: every
    segment, the total and the duration are 0. *)
Theorem same_place_route_is_zero (lower : string -> string)
    (locations : list string) (p : RouteService.Coord) :
  (2 <= List.length locations)%nat ->
  Forall (fun l => RouteService._get_approximate_coords lower l = p)
         locations ->
  exists route_data,
    RouteService.calculate_route lower locations
    = RouteService.Ok route_data /\
    RouteService.total_miles route_data == 0 /\
    RouteService.total_duration_hours route_data == 0 /\
    Forall (fun sg => RouteService.distance_miles sg == 0)
           (RouteService.segments route_data) /\
    List.length (RouteService.segments route_data)
    = (List.length locations - 1)%nat.
Proof. apply calculate_route_same_place. Qed.

Lemma same_place_route_is_zero_witness :
  exists route_data,
    RouteService.calculate_route ascii_lower
      ["Springfield, IL"; "Shelbyville, IL"; "Capital City"]%string
    = RouteService.Ok route_data /\
    RouteService.total_miles route_data == 0 /\
    RouteService.total_duration_hours route_data == 0 /\
    Forall (fun sg => RouteService.distance_miles sg == 0)
           (RouteService.segments route_data) /\
    List.length (RouteService.segments route_data) = 2%nat.
Proof.
  apply (same_place_route_is_zero ascii_lower
           ["Springfield, IL"; "Shelbyville, IL"; "Capital City"]%string
           RouteService.default_coords).
  - simpl. lia.
  - repeat (constructor; [vm_compute; reflexivity | ]). constructor.
Defined.

(** X18.  The distance of [_haversine_distance] does not depend on the
    direction: from [p] to [q] it gives what it gives from [q] to [p],
    be it a distance or the error of [math.sqrt] or [math.asin]. *)
Theorem haversine_symmetric (p q : RouteService.Coord) :
  RouteService._haversine_distance p q = RouteService._haversine_distance q p.
Proof.
  destruct p as [lon1 lat1], q as [lon2 lat2].
  unfold RouteService._haversine_distance. cbv zeta.
  set (x1 := RouteService.math_radians (Q2R lon1)).
  set (y1 := RouteService.math_radians (Q2R lat1)).
  set (x2 := RouteService.math_radians (Q2R lon2)).
  set (y2 := RouteService.math_radians (Q2R lat2)).
  assert (E : (sin ((y2 - y1) / 2) ^ 2 + cos y1 * cos y2 * sin ((x2 - x1) / 2) ^ 2
               = sin ((y1 - y2) / 2) ^ 2
                 + cos y2 * cos y1 * sin ((x1 - x2) / 2) ^ 2)%R).
  { replace ((y1 - y2) / 2)%R with (- ((y2 - y1) / 2))%R by Lra.lra.
    replace ((x1 - x2) / 2)%R with (- ((x2 - x1) / 2))%R by Lra.lra.
    rewrite !sin_neg. ring. }
  rewrite E. reflexivity.
Qed.

(** *** The shape of a route *)

Lemma fallback_loop_joins (coordinates : list RouteService.Coord) :
  forall (total : R) (segments segments' : list RouteService.Segment)
         (total' : R),
    RouteService.fallback_loop coordinates total segments
    = RouteService.Ok (total', segments') ->
    exists new,
      segments' = segments ++ new /\ joins coordinates new.
Proof.
  induction coordinates as [ | c1 coordinates IH];
    intros total segments segments' total' H.
  - cbn in H. inversion H; subst. exists []. now rewrite app_nil_r.
  - destruct coordinates as [ | c2 coordinates].
    + cbn in H. inversion H; subst. exists []. now rewrite app_nil_r.
    + cbn [RouteService.fallback_loop] in H.
      destruct (RouteService._haversine_distance c1 c2) as [d | msg];
        cbn [RouteService.bind] in H; [ | discriminate].
      destruct (IH _ _ _ _ H) as (new & H1 & H2).
      eexists. split; [rewrite H1, <- app_assoc; reflexivity | ].
      cbn [app joins RouteService.seg_start RouteService.seg_end].
      split; [reflexivity | ]. split; [reflexivity | exact H2].
Qed.

Lemma waypoints_from_spec (coordinates : list RouteService.Coord)
    (locations : list string) (i : nat) :
  map RouteService.location
      (RouteService.waypoints_from i coordinates locations) = coordinates /\
  map RouteService.address
      (RouteService.waypoints_from i coordinates locations)
  = map (fun k => nth_error locations k) (seq i (List.length coordinates)).
Proof.
  revert i. induction coordinates as [ | c coordinates IH]; intros i.
  - split; reflexivity.
  - destruct (IH (S i)) as [H1 H2].
    cbn [RouteService.waypoints_from map List.length seq
         RouteService.location RouteService.address].
    rewrite H1, H2. split; reflexivity.
Qed.

Lemma nth_error_seq_all (A : Type) (l : list A) :
  map (fun k => nth_error l k) (seq 0 (List.length l)) = map Some l.
Proof.
  induction l as [ | x l IH]; [reflexivity | ].
  cbn [List.length seq map nth_error]. f_equal.
  rewrite <- seq_shift, map_map. exact IH.
Qed.

(** X19.  [calculate_route] raises "At least 2 locations required"
    exactly when it is given fewer than two locations.  A route it
    returns has the coordinates of the locations in their order, one
    waypoint for each location with its address, and one segment from
    each location to the next. *)
Theorem route_shape (lower : string -> string) (locations : list string) :
  match RouteService.calculate_route lower locations with
  | RouteService.ValueError msg =>
      (List.length locations < 2)%nat /\
      msg = "At least 2 locations required"%string
      \/
      (2 <= List.length locations)%nat /\ msg = "math domain error"%string
  | RouteService.Ok route_data =>
      (2 <= List.length locations)%nat /\
      RouteService.coordinates route_data
      = map (RouteService._get_approximate_coords lower) locations /\
      map RouteService.location (RouteService.waypoints route_data)
      = RouteService.coordinates route_data /\
      map RouteService.address (RouteService.waypoints route_data)
      = map Some locations /\
      joins (RouteService.coordinates route_data)
            (RouteService.segments route_data) /\
      RouteService.method route_data = "fallback"%string
  end.
Proof.
  unfold RouteService.calculate_route. rewrite length_map.
  destruct (List.length locations <? 2)%nat eqn:Hl.
  - left. split; [now apply Nat.ltb_lt | reflexivity].
  - apply Nat.ltb_ge in Hl.
    set (coordinates := map (RouteService.geocode_address lower) locations).
    assert (Hfb : match RouteService._calculate_route_fallback
                          coordinates locations with
                  | RouteService.ValueError msg =>
                      msg = "math domain error"%string
                  | RouteService.Ok route_data =>
                      RouteService.coordinates route_data = coordinates /\
                      map RouteService.location
                          (RouteService.waypoints route_data) = coordinates /\
                      map RouteService.address
                          (RouteService.waypoints route_data)
                      = map Some locations /\
                      joins coordinates (RouteService.segments route_data) /\
                      RouteService.method route_data = "fallback"%string
                  end).
    { unfold RouteService._calculate_route_fallback.
      destruct (RouteService.fallback_loop coordinates 0 [])
        as [[total segments] | msg] eqn:E; cbn [RouteService.bind].
      - destruct (fallback_loop_joins _ _ _ _ _ E) as (new & -> & Hj).
        destruct (waypoints_from_spec coordinates locations 0) as [W1 W2].
        cbn [RouteService.coordinates RouteService.waypoints
             RouteService.segments RouteService.method].
        split; [reflexivity | ]. split; [exact W1 | ].
        split.
        + rewrite W2. unfold coordinates. rewrite length_map.
          apply nth_error_seq_all.
        + split; [exact Hj | reflexivity].
      - revert E. generalize (@nil RouteService.Segment). generalize 0%R.
        induction coordinates as [ | c1 cs IH]; intros total segs E.
        + discriminate.
        + destruct cs as [ | c2 cs]; [discriminate | ].
          cbn [RouteService.fallback_loop] in E.
          destruct (RouteService._haversine_distance c1 c2) as [d | m] eqn:Hd;
            cbn [RouteService.bind] in E.
          * eapply IH; exact E.
          * inversion E; subst. clear - Hd.
            destruct c1 as [lon1 lat1], c2 as [lon2 lat2].
            unfold RouteService._haversine_distance in Hd. cbv zeta in Hd.
            unfold RouteService.math_sqrt, RouteService.math_asin in Hd.
            repeat match type of Hd with
                   | context [Rlt_dec ?a ?b] =>
                       destruct (Rlt_dec a b); cbn [RouteService.bind] in Hd
                   end; now inversion Hd. }
    destruct (RouteService._calculate_route_fallback coordinates locations)
      as [route_data | msg] eqn:E.
    + destruct Hfb as (F1 & F2 & F3 & F4 & F5).
      split; [exact Hl | ]. rewrite F1.
      split; [reflexivity | ]. split; [exact F2 | ]. split; [exact F3 | ].
      split; [exact F4 | exact F5].
    + right. split; [exact Hl | exact Hfb].
Qed.

(** *** From the locations to the plan *)

Lemma no_miles_never_returns (fuel : nat) (now : datetime) (miles c : Q) :
  miles <= 0 -> calculate_trip fuel now miles c = None.
Proof.
  intros Hm.
  unfold calculate_trip, _generate_daily_schedule, run_schedule.
  rewrite day_loop_stuck; [reflexivity | | reflexivity].
  unfold initial_locals. proj. consts.
  apply Qle_shift_div_r; lra.
Qed.

(** X20.  When the current location, the pickup and the dropoff are
    looked up to the same coordinates (three addresses that name no city
    of the table, or that name the same city), the view gets a route of
    zero miles and the engine never returns a plan for it: whatever the
    fuel, steps 1 to 3 of the view do not come to an end.  (In CPython
    the day loop runs until memory is used up or the calendar ends.) *)
Theorem same_place_trip_never_planned (fuel : nat) (now : datetime)
    (lower : string -> string)
    (current_location pickup_location dropoff_location : string)
    (current_cycle_used : Q) :
  RouteService._get_approximate_coords lower pickup_location
  = RouteService._get_approximate_coords lower current_location ->
  RouteService._get_approximate_coords lower dropoff_location
  = RouteService._get_approximate_coords lower current_location ->
  Views.calculate_trip fuel now lower current_location pickup_location
    dropoff_location current_cycle_used = None.
Proof.
  intros Hp Hd. unfold Views.calculate_trip.
  destruct (calculate_route_same_place lower
              [current_location; pickup_location; dropoff_location]
              (RouteService._get_approximate_coords lower current_location))
    as (route_data & -> & Hmiles & _).
  - simpl. lia.
  - constructor; [reflexivity | ].
    constructor; [exact Hp | ]. constructor; [exact Hd | constructor].
  - rewrite no_miles_never_returns; [reflexivity | ]. rewrite Hmiles. lra.
Qed.

Lemma same_place_trip_never_planned_witness :
  Views.calculate_trip 1000 0%Z ascii_lower
    "12 Main Street, Springfield" "Warehouse 4, Shelbyville"
    "Depot, Ogdenville" 0 = None.
Proof.
  apply (same_place_trip_never_planned 1000 0%Z ascii_lower
           "12 Main Street, Springfield" "Warehouse 4, Shelbyville"
           "Depot, Ogdenville" 0).
  - vm_compute. reflexivity.
  - vm_compute. reflexivity.
Defined.

(** ** Serializing the [datetime] objects of a response *)

(** Induction on objects, with the hypothesis for every value of a
    dictionary and every item of a list. *)
Lemma value_nested_ind (P : Views.value -> Prop) :
  (forall t, P (Views.VDatetime t)) ->
  (forall s, P (Views.VStr s)) ->
  (forall x, P (Views.VNumber x)) ->
  (forall b, P (Views.VBool b)) ->
  P Views.VNone ->
  (forall items, Forall (fun item => P (snd item)) items ->
                 P (Views.VDict items)) ->
  (forall items, Forall P items -> P (Views.VList items)) ->
  (forall items, P (Views.VTuple items)) ->
  forall obj, P obj.
Proof.
  intros Hdt Hs Hn Hb Hnone Hdict Hlist Htuple.
  fix IH 1. intros [t | s | x | b | | items | items | items].
  - apply Hdt.
  - apply Hs.
  - apply Hn.
  - apply Hb.
  - apply Hnone.
  - apply Hdict. induction items as [ | item items IHl]; constructor.
    + apply IH.
    + exact IHl.
  - apply Hlist. induction items as [ | item items IHl]; constructor.
    + apply IH.
    + exact IHl.
  - apply Htuple.
Qed.

Lemma serialized_dict (items : list (Views.value * Views.value)) :
  serialized (Views.VDict items)
  <-> Forall (fun item => serialized (snd item)) items.
Proof.
  induction items as [ | item items IH].
  - split; [constructor | intros _; exact I].
  - change (serialized (Views.VDict (item :: items)))
      with (serialized (snd item) /\ serialized (Views.VDict items)).
    rewrite IH. split.
    + intros [H1 H2]. now constructor.
    + intros H. inversion H; subst. now split.
Qed.

Lemma serialized_list (items : list Views.value) :
  serialized (Views.VList items) <-> Forall serialized items.
Proof.
  induction items as [ | item items IH].
  - split; [constructor | intros _; exact I].
  - change (serialized (Views.VList (item :: items)))
      with (serialized item /\ serialized (Views.VList items)).
    rewrite IH. split.
    + intros [H1 H2]. now constructor.
    + intros H. inversion H; subst. now split.
Qed.

(** X21.  In the result of [serialize_datetime_in_dict] no [datetime]
    object is left at the top, in a value of a dictionary or in an item
    of a list, however deeply these are nested. *)
Theorem serialize_leaves_no_datetime (isoformat : datetime -> string)
    (obj : Views.value) :
  serialized (Views.serialize_datetime_in_dict isoformat obj).
Proof.
  induction obj as [t | s | x | b | | items IH | items IH | items]
    using value_nested_ind; try exact I.
  - cbn [Views.serialize_datetime_in_dict]. apply serialized_dict.
    apply Forall_map. cbn [snd]. exact IH.
  - cbn [Views.serialize_datetime_in_dict]. apply serialized_list.
    apply Forall_map. exact IH.
Qed.

(** X22.  [serialize_datetime_in_dict] returns an object in which it
    finds no [datetime] object as it is; so serializing twice is
    serializing once. *)
Theorem serialize_keeps_serialized (isoformat : datetime -> string)
    (obj : Views.value) :
  serialized obj -> Views.serialize_datetime_in_dict isoformat obj = obj.
Proof.
  induction obj as [t | s | x | b | | items IH | items IH | items]
    using value_nested_ind; intros H; try reflexivity.
  - destruct H.
  - cbn [Views.serialize_datetime_in_dict]. f_equal.
    apply serialized_dict in H.
    induction items as [ | [key v] items IHl]; [reflexivity | ].
    inversion IH; subst. inversion H; subst. cbn [map fst snd] in *.
    f_equal; [f_equal; auto | auto].
  - cbn [Views.serialize_datetime_in_dict]. f_equal.
    apply serialized_list in H.
    induction items as [ | v items IHl]; [reflexivity | ].
    inversion IH; subst. inversion H; subst. cbn [map].
    f_equal; auto.
Qed.

Lemma serialize_keeps_serialized_witness :
  let obj :=
    Views.VDict
      [ (Views.VStr "status", Views.VStr "D");
        (Views.VStr "start_time", Views.VStr "2024-01-01T06:00:00");
        (Views.VStr "stops",
         Views.VList [Views.VNumber 1; Views.VTuple [Views.VDatetime 0%Z]]) ] in
  Views.serialize_datetime_in_dict (fun _ => "2024-01-01T06:00:00"%string) obj
  = obj.
Proof.
  intros obj.
  apply (serialize_keeps_serialized (fun _ => "2024-01-01T06:00:00"%string) obj).
  simpl. tauto.
Defined.
